(** * Trade analysis engine: merge, normalisation, divergence, trade matching

    A shallow embedding of [trade_analyzer.py] (class [TradeAnalyzer]),
    of the constants of [fantasy_config.py] it reads, and of the part of
    [main.py] that drives it, followed by the properties of the
    specification that are about them.

    Numbers.  The pandas columns hold IEEE doubles.  A number is an exact
    rational or one of the three special values of IEEE arithmetic:
    [+inf], [-inf] and [NaN].  Division by zero, arithmetic on infinities
    and comparisons with [NaN] follow IEEE 754 (as numpy does: no
    exception is raised).  Finite results are kept in lowest terms, so
    that two equal numbers are the same term.  As in pandas, [NaN] is also
    the representation of a missing cell.  The stages are given twice:
    first with the exact operations, which neither round nor overflow,
    for the properties that are about which rows, columns, categories and
    errors come out; then, in the module [Binary64], with every result
    rounded to the nearest double, for the properties that depend on the
    value of a computed number.  The sign of zero is not modelled.

    Effects.  The analyzer object is a record that the methods take and
    return; an exception is an [Err] result.  What the methods print is
    left out, and the messages of [main] are kept without their
    pictograms. *)

From Stdlib Require Import QArith Qreduction Qabs Qpower ZArith.
From Stdlib Require Import String Bool List Lia Lqa Permutation Sorted.
Import ListNotations.

Local Open Scope Z_scope.
Local Open Scope Q_scope.
Local Open Scope list_scope.

(** ** Extended rational numbers *)

Inductive num : Type :=
| Fin (q : Q)
| PInf
| NInf
| NaN.

Definition isna (x : num) : bool :=
  match x with NaN => true | _ => false end.

Definition notna (x : num) : bool :=
  match x with NaN => false | _ => true end.

Definition is_finite (x : num) : bool :=
  match x with Fin _ => true | _ => false end.

Definition Qltb (a b : Q) : bool :=
  match a ?= b with Lt => true | _ => false end.

Definition Qleb (a b : Q) : bool :=
  match a ?= b with Gt => false | _ => true end.

Definition num_add (x y : num) : num :=
  match x, y with
  | NaN, _ | _, NaN => NaN
  | Fin a, Fin b => Fin (Qred (a + b))
  | PInf, NInf | NInf, PInf => NaN
  | PInf, _ | _, PInf => PInf
  | NInf, _ | _, NInf => NInf
  end.

Definition num_sub (x y : num) : num :=
  match x, y with
  | NaN, _ | _, NaN => NaN
  | Fin a, Fin b => Fin (Qred (a - b))
  | PInf, PInf | NInf, NInf => NaN
  | PInf, _ | _, NInf => PInf
  | NInf, _ | _, PInf => NInf
  end.

(** An infinity scaled by a finite factor: the sign of the factor
    decides, and a zero factor gives [NaN]. *)
Definition scale_inf (positive : bool) (b : Q) : num :=
  match b ?= 0 with
  | Eq => NaN
  | Gt => if positive then PInf else NInf
  | Lt => if positive then NInf else PInf
  end.

Definition num_mul (x y : num) : num :=
  match x, y with
  | NaN, _ | _, NaN => NaN
  | Fin a, Fin b => Fin (Qred (a * b))
  | PInf, Fin b | Fin b, PInf => scale_inf true b
  | NInf, Fin b | Fin b, NInf => scale_inf false b
  | PInf, PInf | NInf, NInf => PInf
  | PInf, NInf | NInf, PInf => NInf
  end.

(** Float division never raises: [x / 0] is an infinity of the sign of
    [x], and [0 / 0] is [NaN]. *)
Definition num_div (x y : num) : num :=
  match x, y with
  | NaN, _ | _, NaN => NaN
  | Fin a, Fin b =>
      match b ?= 0 with
      | Eq => match a ?= 0 with Eq => NaN | Gt => PInf | Lt => NInf end
      | _ => Fin (Qred (a / b))
      end
  | Fin _, PInf | Fin _, NInf => Fin 0
  | PInf, Fin b => match b ?= 0 with Lt => NInf | _ => PInf end
  | NInf, Fin b => match b ?= 0 with Lt => PInf | _ => NInf end
  | PInf, PInf | PInf, NInf | NInf, PInf | NInf, NInf => NaN
  end.

Definition num_abs (x : num) : num :=
  match x with
  | Fin a => Fin (Qred (Qabs a))
  | PInf | NInf => PInf
  | NaN => NaN
  end.

(** Comparisons: every comparison with [NaN] is false. *)
Definition num_lt (x y : num) : bool :=
  match x, y with
  | NaN, _ | _, NaN => false
  | Fin a, Fin b => Qltb a b
  | NInf, Fin _ | NInf, PInf | Fin _, PInf => true
  | NInf, NInf | PInf, _ | Fin _, NInf => false
  end.

Definition num_le (x y : num) : bool :=
  match x, y with
  | NaN, _ | _, NaN => false
  | Fin a, Fin b => Qleb a b
  | NInf, _ | Fin _, PInf | PInf, PInf => true
  | PInf, Fin _ | PInf, NInf | Fin _, NInf => false
  end.

Definition num_gt (x y : num) : bool := num_lt y x.
Definition num_ge (x y : num) : bool := num_le y x.

(** [approx eps x y]: [|x - y| <= eps]. *)
Definition approx (eps x y : num) : bool :=
  num_le (num_abs (num_sub x y)) eps.

(** ** The pandas operations the analyzer uses *)

(** [Series.sum] and [Series.mean] skip missing cells ([skipna=True]);
    the mean of no value at all is [NaN]. *)
Definition total (l : list num) : num :=
  fold_right num_add (Fin 0) l.

Definition mean (col : list num) : num :=
  match filter notna col with
  | [] => NaN
  | vs => num_div (total vs) (Fin (inject_Z (Z.of_nat (length vs))))
  end.

(** [DataFrame.head(n)]: the first [n] rows, or all but the last [-n]
    when [n] is negative. *)
Definition head {A : Type} (n : Z) (l : list A) : list A :=
  if (n <? 0)%Z
  then firstn (length l - Z.to_nat (- n)) l
  else firstn (Z.to_nat n) l.

(** [DataFrame.sort_values(key, ascending)]: rows whose key is missing go
    last ([na_position='last']); the others are ordered by the key.
    pandas does not fix the order of rows with equal keys (its default
    sort is not stable); here they keep their relative order.  The proofs
    below use only that the result holds the same rows, in order. *)
Section Sorting.
Context {A : Type}.
Variable key : A -> num.
Variable ascending : bool.

Definition strictly_before (y x : A) : bool :=
  if ascending then num_lt (key y) (key x) else num_gt (key y) (key x).

Fixpoint insert_row (x : A) (l : list A) : list A :=
  match l with
  | [] => [x]
  | y :: l' =>
      if strictly_before y x then y :: insert_row x l' else x :: y :: l'
  end.

Fixpoint insertion_sort (l : list A) : list A :=
  match l with
  | [] => []
  | x :: l' => insert_row x (insertion_sort l')
  end.

Definition sort_values (l : list A) : list A :=
  insertion_sort (filter (fun r => notna (key r)) l)
    ++ filter (fun r => isna (key r)) l.
End Sorting.

(** ** Errors *)

Inductive error : Type :=
| KeyError (key : string)
| AttributeError (message : string)
| TypeError (message : string).

Inductive result (A : Type) : Type :=
| Ok (a : A)
| Err (e : error).
Arguments Ok {A} a.
Arguments Err {A} e.

Definition bind {A B : Type} (m : result A) (k : A -> result B) : result B :=
  match m with
  | Ok a => k a
  | Err e => Err e
  end.

Notation "x <- m ;; k" := (bind m (fun x => k))
  (at level 61, m at next level, right associativity).
Notation "' pat <- m ;; k" :=
  (bind m (fun x => match x with pat => k end))
  (at level 61, pat pattern, m at next level, right associativity).
Notation "m ;;; k" := (bind m (fun _ => k))
  (at level 61, right associativity).

(** A Python [for] loop whose body appends rows to a list and may raise. *)
Fixpoint for_each {A B : Type} (body : A -> result (list B)) (l : list A)
  : result (list B) :=
  match l with
  | [] => Ok []
  | x :: l' =>
      ys <- body x ;;
      zs <- for_each body l' ;;
      Ok (ys ++ zs)
  end.

(** ** Configuration ([fantasy_config.py]) *)

(** The attributes of the module the analyzer reads.
    [trade_analyzer.py] also reads [config.VALUE_MATCH_TOLERANCE], a name
    [fantasy_config.py] does not assign: [None] is the module as it is,
    [Some t] the module with [VALUE_MATCH_TOLERANCE = t] added to it. *)
Record Config : Type := mkConfig {
  MIN_DISCOUNT_THRESHOLD : num;
  MIN_PREMIUM_THRESHOLD : num;
  UNTOUCHABLE_PLAYERS : list string;
  VALUE_MATCH_TOLERANCE : option num
}.

(** The values the module assigns. *)
Definition default_config : Config :=
  {| MIN_DISCOUNT_THRESHOLD := Fin 10;
     MIN_PREMIUM_THRESHOLD := Fin (-10);
     UNTOUCHABLE_PLAYERS := [];
     VALUE_MATCH_TOLERANCE := None |}.

(** The module with a tolerance assigned as well. *)
Definition with_tolerance (tolerance : num) (cfg : Config) : Config :=
  {| MIN_DISCOUNT_THRESHOLD := MIN_DISCOUNT_THRESHOLD cfg;
     MIN_PREMIUM_THRESHOLD := MIN_PREMIUM_THRESHOLD cfg;
     UNTOUCHABLE_PLAYERS := UNTOUCHABLE_PLAYERS cfg;
     VALUE_MATCH_TOLERANCE := Some tolerance |}.

(** The module with [VALUE_MATCH_TOLERANCE = 0.15]. *)
Definition tuned_config : Config :=
  with_tolerance (Fin (15 # 100)) default_config.

(** ** Tables *)

(** A table carries the names of its columns next to its rows: selecting
    a column that is not there raises [KeyError].  The cells of a row
    under a name that is not among the columns are never read. *)

Definition col_in (c : string) (cols : list string) : bool :=
  existsb (String.eqb c) cols.

Definition require (cols : list string) (c : string) : result unit :=
  if col_in c cols then Ok tt else Err (KeyError c).

Fixpoint require_all (cols needed : list string) : result unit :=
  match needed with
  | [] => Ok tt
  | c :: rest => require cols c ;;; require_all cols rest
  end.

(** [df[c] = ...]: a new column goes last, an existing one is overwritten
    in place. *)
Definition add_column (c : string) (cols : list string) : list string :=
  if col_in c cols then cols else cols ++ [c].

(** Rows of the roster table ([ESPNClient.get_all_rosters]). *)
Module Roster.
Record row : Type := mk {
  player_name : string;
  position : string;
  team_name : string;
  team_id : Z
}.
End Roster.

(** The perceived-value table ([get_perceived_values]). *)
Module Perceived.
Record row : Type := mk {
  player_name : string;
  perceived_value : num;
  perceived_value_adjusted : num;
  overall_rank : num
}.
Record table : Type := mkTable {
  columns : list string;
  rows : list row
}.
End Perceived.

(** The forecasted-value table (ESPN projections, or a table that has a
    [forecasted_value] column already). *)
Module Forecasted.
Record row : Type := mk {
  player_name : string;
  rest_of_season_projection : num;
  forecasted_value : num
}.
Record table : Type := mkTable {
  columns : list string;
  rows : list row
}.
End Forecasted.

(** A row of the analyzer's working table [merged_df]. *)
Record Row : Type := mkRow {
  player_name : string;
  position : string;
  team_name : string;
  team_id : Z;
  perceived_value : num;
  perceived_value_adjusted : num;
  overall_rank : num;
  forecasted_value : num;
  perceived_normalized : num;
  forecasted_normalized : num;
  discount_premium : num;
  value_category : string;
  interpretation : string
}.

Record DataFrame : Type := mkDataFrame {
  columns : list string;
  rows : list Row
}.

Definition empty (df : DataFrame) : bool :=
  match columns df, rows df with
  | [], _ | _, [] => true
  | _, _ => false
  end.

Definition with_perceived (v adj rank : num) (r : Row) : Row :=
  mkRow (player_name r) (position r) (team_name r) (team_id r)
        v adj rank (forecasted_value r)
        (perceived_normalized r) (forecasted_normalized r)
        (discount_premium r) (value_category r) (interpretation r).

Definition with_perceived_value (v : num) (r : Row) : Row :=
  with_perceived v (perceived_value_adjusted r) (overall_rank r) r.

Definition with_forecasted_value (v : num) (r : Row) : Row :=
  mkRow (player_name r) (position r) (team_name r) (team_id r)
        (perceived_value r) (perceived_value_adjusted r) (overall_rank r) v
        (perceived_normalized r) (forecasted_normalized r)
        (discount_premium r) (value_category r) (interpretation r).

Definition with_normalized (pn fn : num) (r : Row) : Row :=
  mkRow (player_name r) (position r) (team_name r) (team_id r)
        (perceived_value r) (perceived_value_adjusted r) (overall_rank r)
        (forecasted_value r)
        pn fn
        (discount_premium r) (value_category r) (interpretation r).

Definition with_classification (dp : num) (cat interp : string) (r : Row)
  : Row :=
  mkRow (player_name r) (position r) (team_name r) (team_id r)
        (perceived_value r) (perceived_value_adjusted r) (overall_rank r)
        (forecasted_value r)
        (perceived_normalized r) (forecasted_normalized r)
        dp cat interp.

(** The columns of the roster table as [main] passes it. *)
Definition roster_columns : list string :=
  ["player_id"; "player_name"; "position"; "eligible_positions";
   "team_name"; "team_id"; "pro_team"; "wins"; "losses"]%string.

Definition from_roster (r : Roster.row) : Row :=
  mkRow (Roster.player_name r) (Roster.position r) (Roster.team_name r)
        (Roster.team_id r)
        NaN NaN NaN NaN NaN NaN NaN EmptyString EmptyString.

(** [left.merge(right, on='player_name', how='left')]: every left row, in
    order, once for each right row of the same name (in the right table's
    order), and once with the new cells missing when there is none. *)
Definition merge_left {R : Type} (name : R -> string)
    (fill : R -> Row -> Row) (left : list Row) (right : list R) : list Row :=
  flat_map
    (fun l =>
       match filter (fun r => String.eqb (player_name l) (name r)) right with
       | [] => [l]
       | matches => map (fun r => fill r l) matches
       end)
    left.

(** [df.dropna(subset=['perceived_value', 'forecasted_value'])]. *)
Definition dropna (l : list Row) : list Row :=
  filter (fun r => notna (perceived_value r) && notna (forecasted_value r)) l.

(** ** The analyzer *)

Record TradeAnalyzer : Type := mkTradeAnalyzer {
  roster_df : list Roster.row;
  perceived_df : Perceived.table;
  forecasted_df : Forecasted.table;
  merged_df : option DataFrame
}.

(** [TradeAnalyzer.__init__] *)
Definition init (roster : list Roster.row) (perceived : Perceived.table)
    (forecasted : Forecasted.table) : TradeAnalyzer :=
  mkTradeAnalyzer roster perceived forecasted None.

Definition set_merged_df (df : DataFrame) (self : TradeAnalyzer)
  : TradeAnalyzer :=
  mkTradeAnalyzer (roster_df self) (perceived_df self) (forecasted_df self)
                  (Some df).

Definition perceived_subset : list string :=
  ["player_name"; "perceived_value"; "perceived_value_adjusted";
   "overall_rank"]%string.

(** [TradeAnalyzer.merge_data_sources] *)
Definition merge_data_sources (self : TradeAnalyzer)
  : result (DataFrame * TradeAnalyzer) :=
  let df := mkDataFrame roster_columns (map from_roster (roster_df self)) in
  let perceived := perceived_df self in
  require_all (Perceived.columns perceived) perceived_subset ;;;
  let df :=
    mkDataFrame
      (columns df ++ ["perceived_value"; "perceived_value_adjusted";
                      "overall_rank"]%string)
      (merge_left Perceived.player_name
         (fun p => with_perceived (Perceived.perceived_value p)
                     (Perceived.perceived_value_adjusted p)
                     (Perceived.overall_rank p))
         (rows df) (Perceived.rows perceived)) in
  let forecasted := forecasted_df self in
  let fcols := Forecasted.columns forecasted in
  df <- (if col_in "rest_of_season_projection" fcols then
           require fcols "player_name" ;;;
           Ok (mkDataFrame
                 (columns df ++ ["forecasted_value"%string])
                 (merge_left Forecasted.player_name
                    (fun f => with_forecasted_value
                                (Forecasted.rest_of_season_projection f))
                    (rows df) (Forecasted.rows forecasted)))
         else if col_in "forecasted_value" fcols then
           require fcols "player_name" ;;;
           Ok (mkDataFrame
                 (columns df ++ ["forecasted_value"%string])
                 (merge_left Forecasted.player_name
                    (fun f => with_forecasted_value
                                (Forecasted.forecasted_value f))
                    (rows df) (Forecasted.rows forecasted)))
         else Ok df) ;;
  require (columns df) "forecasted_value" ;;;
  (* Remove players without both values *)
  let df := mkDataFrame (columns df) (dropna (rows df)) in
  (* Use adjusted perceived value if available *)
  let df :=
    if col_in "perceived_value_adjusted" (columns df)
    then mkDataFrame (columns df)
           (map (fun r => with_perceived_value (perceived_value_adjusted r) r)
                (rows df))
    else df in
  Ok (df, set_merged_df df self).

(** [TradeAnalyzer.normalize_values] *)
Definition normalize_values (self : TradeAnalyzer)
  : result (DataFrame * TradeAnalyzer) :=
  match merged_df self with
  | None => Err (AttributeError "'NoneType' object has no attribute 'copy'")
  | Some df =>
      require (columns df) "perceived_value" ;;;
      require (columns df) "forecasted_value" ;;;
      let avg_perceived := mean (map perceived_value (rows df)) in
      let avg_forecasted := mean (map forecasted_value (rows df)) in
      let df :=
        mkDataFrame
          (add_column "forecasted_normalized"
             (add_column "perceived_normalized" (columns df)))
          (map (fun r =>
                  with_normalized
                    (num_mul (num_div (perceived_value r) avg_perceived)
                             (Fin 100))
                    (num_mul (num_div (forecasted_value r) avg_forecasted)
                             (Fin 100))
                    r)
               (rows df)) in
      Ok (df, set_merged_df df self)
  end.

(** The lambda of [calculate_discount_premium] that names the category. *)
Definition categorize (cfg : Config) (x : num) : string :=
  if num_gt x (MIN_DISCOUNT_THRESHOLD cfg) then "Undervalued"
  else if num_lt x (MIN_PREMIUM_THRESHOLD cfg) then "Overvalued"
  else "Fair Value".

(** [TradeAnalyzer._interpret_discount] *)
Definition _interpret_discount (value : num) : string :=
  if num_gt value (Fin 30) then "Severely undervalued - BUY"
  else if num_gt value (Fin 10) then "Undervalued - Good buy target"
  else if num_gt value (Fin (-10)) then "Fair value"
  else if num_gt value (Fin (-30)) then "Overvalued - Good sell candidate"
  else "Severely overvalued - SELL".

(** The Reddit formula of [calculate_discount_premium], on one row. *)
Definition discount_of (r : Row) : num :=
  num_mul
    (num_div (num_sub (forecasted_normalized r) (perceived_normalized r))
             (forecasted_normalized r))
    (Fin 100).

(** [TradeAnalyzer.calculate_discount_premium] *)
Definition calculate_discount_premium (cfg : Config) (self : TradeAnalyzer)
  : result (DataFrame * TradeAnalyzer) :=
  match merged_df self with
  | None => Err (AttributeError "'NoneType' object has no attribute 'copy'")
  | Some df =>
      require (columns df) "forecasted_normalized" ;;;
      require (columns df) "perceived_normalized" ;;;
      let df :=
        mkDataFrame
          (add_column "interpretation"
             (add_column "value_category"
                (add_column "discount_premium" (columns df))))
          (map (fun r =>
                  let x := discount_of r in
                  with_classification x (categorize cfg x)
                    (_interpret_discount x) r)
               (rows df)) in
      Ok (df, set_merged_df df self)
  end.

(** [TradeAnalyzer.analyze_team]: the team's overvalued rows (lowest
    discount first) and its undervalued rows (highest discount first). *)
Definition analyze_team (cfg : Config) (self : TradeAnalyzer)
    (team : string) : result (DataFrame * DataFrame) :=
  match merged_df self with
  | None => Err (TypeError "'NoneType' object is not subscriptable")
  | Some df =>
      require (columns df) "team_name" ;;;
      let team_df :=
        filter (fun r => String.eqb (team_name r) team) (rows df) in
      require (columns df) "discount_premium" ;;;
      let overvalued :=
        sort_values discount_premium true
          (filter (fun r => num_lt (discount_premium r)
                                   (MIN_PREMIUM_THRESHOLD cfg))
                  team_df) in
      let undervalued :=
        sort_values discount_premium false
          (filter (fun r => num_gt (discount_premium r)
                                   (MIN_DISCOUNT_THRESHOLD cfg))
                  team_df) in
      Ok (mkDataFrame (columns df) overvalued,
          mkDataFrame (columns df) undervalued)
  end.

(** Python truth value of the optional [position_filter] argument:
    [None] and the empty string are false. *)
Definition truthy (s : option string) : bool :=
  match s with
  | None => false
  | Some s => negb (String.eqb s EmptyString)
  end.

Definition position_matches (position_filter : option string) (r : Row)
  : bool :=
  match position_filter with
  | None => false
  | Some p => String.eqb (position r) p
  end.

Definition isin (names : list string) (s : string) : bool :=
  existsb (String.eqb s) names.

(** [TradeAnalyzer.find_trade_targets] *)
Definition find_trade_targets (cfg : Config) (self : TradeAnalyzer)
    (your_team : string) (position_filter : option string)
  : result DataFrame :=
  match merged_df self with
  | None => Err (TypeError "'NoneType' object is not subscriptable")
  | Some df =>
      require (columns df) "team_name" ;;;
      let other_teams :=
        filter (fun r => negb (String.eqb (team_name r) your_team))
               (rows df) in
      require (columns df) "discount_premium" ;;;
      let targets :=
        filter (fun r => num_gt (discount_premium r)
                                (MIN_DISCOUNT_THRESHOLD cfg))
               other_teams in
      targets <- (if truthy position_filter then
                    require (columns df) "position" ;;;
                    Ok (filter (position_matches position_filter) targets)
                  else Ok targets) ;;
      (* Remove untouchables *)
      targets <- (match UNTOUCHABLE_PLAYERS cfg with
                  | [] => Ok targets
                  | untouchable =>
                      require (columns df) "player_name" ;;;
                      Ok (filter (fun r => negb (isin untouchable
                                                      (player_name r)))
                                 targets)
                  end) ;;
      let targets := sort_values discount_premium false targets in
      Ok (mkDataFrame (columns df) targets)
  end.

(** A row of the table [suggest_trade_pairs] returns. *)
Record Suggestion : Type := mkSuggestion {
  give_player : string;
  give_position : string;
  give_perceived : num;
  give_forecasted : num;
  give_discount : num;
  get_player : string;
  get_position : string;
  get_team : string;
  get_perceived : num;
  get_forecasted : num;
  get_discount : num;
  value_gain : num;
  value_gain_pct : num
}.

(** The band test of [suggest_trade_pairs]. *)
Definition similar_perceived (tolerance your_perceived : num) (t : Row)
  : bool :=
  num_ge (perceived_normalized t)
         (num_mul your_perceived (num_sub (Fin 1) tolerance))
  && num_le (perceived_normalized t)
            (num_mul your_perceived (num_add (Fin 1) tolerance)).

(** The body of the inner loop: one target against one of your players. *)
Definition consider (cols : list string) (your_player target : Row)
  : result (list Suggestion) :=
  require cols "forecasted_normalized" ;;;
  let value_gain :=
    num_sub (forecasted_normalized target)
            (forecasted_normalized your_player) in
  (* Only suggest if we gain value *)
  if num_gt value_gain (Fin 5) then
    require cols "player_name" ;;;
    require cols "position" ;;;
    Ok [mkSuggestion
          (player_name your_player) (position your_player)
          (perceived_normalized your_player)
          (forecasted_normalized your_player)
          (discount_premium your_player)
          (player_name target) (position target) (team_name target)
          (perceived_normalized target) (forecasted_normalized target)
          (discount_premium target)
          value_gain
          (if num_gt (forecasted_normalized your_player) (Fin 0)
           then num_mul (num_div value_gain
                                 (forecasted_normalized your_player))
                        (Fin 100)
           else Fin 0)]
  else Ok [].

(** What the attribute access [config.VALUE_MATCH_TOLERANCE] raises on
    the module as it is. *)
Definition no_tolerance : error :=
  AttributeError
    "module 'fantasy_config' has no attribute 'VALUE_MATCH_TOLERANCE'".

(** The attribute access [config.VALUE_MATCH_TOLERANCE]. *)
Definition read_tolerance (cfg : Config) : result num :=
  match VALUE_MATCH_TOLERANCE cfg with
  | Some tolerance => Ok tolerance
  | None => Err no_tolerance
  end.

(** [TradeAnalyzer.suggest_trade_pairs].  The tolerance is read inside the
    loop over the team's overvalued rows, so the read is reached exactly
    when both tables are non-empty. *)
Definition suggest_trade_pairs (cfg : Config)
    (self : TradeAnalyzer) (your_team : string) (max_suggestions : Z)
  : result (list Suggestion) :=
  '(your_overvalued, _) <- analyze_team cfg self your_team ;;
  trade_targets <- find_trade_targets cfg self your_team None ;;
  if empty your_overvalued || empty trade_targets then Ok []
  else
    suggestions <-
      for_each
        (fun your_player =>
           require (columns your_overvalued) "perceived_normalized" ;;;
           let your_perceived := perceived_normalized your_player in
           (* Find players with similar perceived value *)
           tolerance <- read_tolerance cfg ;;
           let similar :=
             filter (similar_perceived tolerance your_perceived)
                    (rows trade_targets) in
           for_each (consider (columns trade_targets) your_player)
                    (head 3 similar))
        (rows your_overvalued) ;;
    match suggestions with
    | [] => Ok []
    | _ => Ok (head max_suggestions (sort_values value_gain false suggestions))
    end.

(** ** The driver ([main], from the fetched tables to the classified one) *)

Inductive outcome : Type :=
| SysExit (code : Z) (message : string)
| UnexpectedError (e : error)
| Analysed (df : DataFrame) (analyzer : TradeAnalyzer).

Definition perceived_empty (t : Perceived.table) : bool :=
  match Perceived.columns t, Perceived.rows t with
  | [], _ | _, [] => true
  | _, _ => false
  end.

Definition forecasted_empty (t : Forecasted.table) : bool :=
  match Forecasted.columns t, Forecasted.rows t with
  | [], _ | _, [] => true
  | _, _ => false
  end.

(** Steps 2 to 4 of [main], once the three tables are fetched.  An
    exception that escapes is caught by the handler around [main]. *)
Definition main_analysis (cfg : Config) (rosters_df : list Roster.row)
    (perceived_df : Perceived.table) (forecasted_df : Forecasted.table)
  : outcome :=
  if perceived_empty perceived_df then
    SysExit 1 "Failed to fetch perceived values"
  else if forecasted_empty forecasted_df then
    SysExit 1 "Failed to fetch forecasted values"
  else
    let analyzer := init rosters_df perceived_df forecasted_df in
    match merge_data_sources analyzer with
    | Err e => UnexpectedError e
    | Ok (merged_df, analyzer) =>
        if empty merged_df then SysExit 1 "No players with complete data"
        else
          match normalize_values analyzer with
          | Err e => UnexpectedError e
          | Ok (_, analyzer) =>
              match calculate_discount_premium cfg analyzer with
              | Err e => UnexpectedError e
              | Ok (df, analyzer) => Analysed df analyzer
              end
          end
    end.

(** The three stages in a row, as every caller chains them. *)
Definition run_pipeline (cfg : Config) (self : TradeAnalyzer)
  : result (DataFrame * TradeAnalyzer) :=
  '(_, self) <- merge_data_sources self ;;
  '(_, self) <- normalize_values self ;;
  calculate_discount_premium cfg self.


(** ** Row-level views of the stages *)

Definition normalize_row (avg_perceived avg_forecasted : num) (r : Row)
  : Row :=
  with_normalized
    (num_mul (num_div (perceived_value r) avg_perceived) (Fin 100))
    (num_mul (num_div (forecasted_value r) avg_forecasted) (Fin 100))
    r.

Definition classify_row (cfg : Config) (r : Row) : Row :=
  with_classification (discount_of r) (categorize cfg (discount_of r))
    (_interpret_discount (discount_of r)) r.

(** The analyzer a successful call leaves behind ([self] when it raised). *)
Definition state_after {A : Type} (m : result (A * TradeAnalyzer))
    (self : TradeAnalyzer) : TradeAnalyzer :=
  match m with
  | Ok (_, self') => self'
  | Err _ => self
  end.

(** ** A worked league: Alice (TeamX) and Bob (TeamY) *)

Definition fantasycalc_columns : list string :=
  ["player_name"; "position"; "nfl_team"; "perceived_value";
   "overall_rank"; "position_rank"; "trend_30day";
   "perceived_value_adjusted"]%string.

Definition league_roster : list Roster.row :=
  [Roster.mk "Alice" "RB" "TeamX" 1; Roster.mk "Bob" "WR" "TeamY" 2].

Definition league_perceived : Perceived.table :=
  Perceived.mkTable fantasycalc_columns
    [Perceived.mk "Alice" (Fin 100) (Fin 100) (Fin 1);
     Perceived.mk "Bob" (Fin 50) (Fin 50) (Fin 2)].

Definition league_forecasted : Forecasted.table :=
  Forecasted.mkTable ["player_name"; "forecasted_value"]%string
    [Forecasted.mk "Alice" NaN (Fin 50); Forecasted.mk "Bob" NaN (Fin 150)].

Definition league : TradeAnalyzer :=
  init league_roster league_perceived league_forecasted.

Definition league_merged : TradeAnalyzer :=
  state_after (merge_data_sources league) league.

Definition league_normalized : TradeAnalyzer :=
  state_after (normalize_values league_merged) league_merged.

Definition league_classified : TradeAnalyzer :=
  state_after (calculate_discount_premium default_config league_normalized)
              league_normalized.

(** ** The result of the merge, in closed form *)

(** The column of the forecasted table the merge reads. *)
Definition forecast_of (fcols : list string) (f : Forecasted.row) : num :=
  if col_in "rest_of_season_projection" fcols
  then Forecasted.rest_of_season_projection f
  else Forecasted.forecasted_value f.

(** The roster joined to both value tables, before incomplete rows are
    dropped. *)
Definition joined_rows (self : TradeAnalyzer) : list Row :=
  merge_left Forecasted.player_name
    (fun f => with_forecasted_value
                (forecast_of (Forecasted.columns (forecasted_df self)) f))
    (merge_left Perceived.player_name
       (fun p => with_perceived (Perceived.perceived_value p)
                   (Perceived.perceived_value_adjusted p)
                   (Perceived.overall_rank p))
       (map from_roster (roster_df self))
       (Perceived.rows (perceived_df self)))
    (Forecasted.rows (forecasted_df self)).

Definition supersede (r : Row) : Row :=
  with_perceived_value (perceived_value_adjusted r) r.

Definition merged_columns : list string :=
  roster_columns
    ++ ["perceived_value"; "perceived_value_adjusted"; "overall_rank";
        "forecasted_value"]%string.

Definition merged_table (self : TradeAnalyzer) : DataFrame :=
  mkDataFrame merged_columns (map supersede (dropna (joined_rows self))).

(** The two value tables have the columns the merge selects. *)
Definition merge_inputs_ok (self : TradeAnalyzer) : bool :=
  forallb (fun c => col_in c (Perceived.columns (perceived_df self)))
          perceived_subset
  && (col_in "rest_of_season_projection"
             (Forecasted.columns (forecasted_df self))
      || col_in "forecasted_value" (Forecasted.columns (forecasted_df self)))
  && col_in "player_name" (Forecasted.columns (forecasted_df self)).

Definition normalized_columns : list string :=
  merged_columns ++ ["perceived_normalized"; "forecasted_normalized"]%string.

Definition classified_columns : list string :=
  normalized_columns
    ++ ["discount_premium"; "value_category"; "interpretation"]%string.

(** ** The result of the three stages, in closed form *)

Definition normalized_table (self : TradeAnalyzer) : DataFrame :=
  let merged := rows (merged_table self) in
  mkDataFrame normalized_columns
    (map (normalize_row (mean (map perceived_value merged))
                        (mean (map forecasted_value merged)))
         merged).

Definition classified_table (cfg : Config) (self : TradeAnalyzer)
  : DataFrame :=
  mkDataFrame classified_columns
    (map (classify_row cfg) (rows (normalized_table self))).

(** Running the three stages again on the analyzer a run leaves behind. *)
Definition run_twice (cfg : Config) (self : TradeAnalyzer)
  : result (DataFrame * TradeAnalyzer) :=
  '(_, self) <- run_pipeline cfg self ;;
  run_pipeline cfg self.

(** ** Vocabulary of the properties *)


(** The rows [find_trade_targets] keeps. *)
Definition is_target (cfg : Config) (your_team : string)
    (position_filter : option string) (r : Row) : bool :=
  negb (String.eqb (team_name r) your_team)
  && num_gt (discount_premium r) (MIN_DISCOUNT_THRESHOLD cfg)
  && (if truthy position_filter then position_matches position_filter r
      else true)
  && negb (isin (UNTOUCHABLE_PLAYERS cfg) (player_name r)).


(** The rows [analyze_team] reports as overvalued. *)
Definition is_overvalued_on (cfg : Config) (team : string) (r : Row) : bool :=
  String.eqb (team_name r) team
  && num_lt (discount_premium r) (MIN_PREMIUM_THRESHOLD cfg).

(** ** The suggestions, in closed form *)

Definition gain (your_player target : Row) : num :=
  num_sub (forecasted_normalized target) (forecasted_normalized your_player).

Definition suggestion_of (your_player target : Row) : Suggestion :=
  mkSuggestion
    (player_name your_player) (position your_player)
    (perceived_normalized your_player) (forecasted_normalized your_player)
    (discount_premium your_player)
    (player_name target) (position target) (team_name target)
    (perceived_normalized target) (forecasted_normalized target)
    (discount_premium target)
    (gain your_player target)
    (if num_gt (forecasted_normalized your_player) (Fin 0)
     then num_mul (num_div (gain your_player target)
                           (forecasted_normalized your_player))
                  (Fin 100)
     else Fin 0).

(** What one pass of the outer loop appends for [your_player]. *)
Definition pairs_for (tolerance : num) (targets : list Row)
    (your_player : Row) : list Suggestion :=
  flat_map
    (fun target =>
       if num_gt (gain your_player target) (Fin 5)
       then [suggestion_of your_player target] else [])
    (head 3 (filter (similar_perceived tolerance
                       (perceived_normalized your_player))
                    targets)).

Definition suggestions_table (cfg : Config) (tolerance : num)
    (df : DataFrame) (your_team : string) (max_suggestions : Z)
  : list Suggestion :=
  head max_suggestions
    (sort_values value_gain false
       (flat_map
          (pairs_for tolerance
             (sort_values discount_premium false
                (filter (is_target cfg your_team None) (rows df))))
          (sort_values discount_premium true
             (filter (is_overvalued_on cfg your_team) (rows df))))).

(** A number that is not an infinity: finite, or missing. *)
Definition not_inf (x : num) : bool :=
  match x with PInf | NInf => false | _ => true end.

Definition Qsum (l : list Q) : Q := fold_right Qplus 0 l.

(** A mean one can divide by: finite and not zero. *)
Definition nonzero_finite (x : num) : bool :=
  match x with
  | Fin a => negb (Qeq_bool a 0)
  | _ => false
  end.

(** The normalisation of one cell. *)
Definition percent_of (avg x : num) : num :=
  num_mul (num_div x avg) (Fin 100).

(** ** A league whose market values are all zero

    [FantasyCalcClient.get_redraft_values] fills a value the API omits with
    [0]. *)

Definition unpriced_perceived : Perceived.table :=
  Perceived.mkTable fantasycalc_columns
    [Perceived.mk "Alice" (Fin 0) (Fin 0) (Fin 999);
     Perceived.mk "Bob" (Fin 0) (Fin 0) (Fin 999)].

Definition unpriced_league : TradeAnalyzer :=
  init league_roster unpriced_perceived league_forecasted.

(** A roster player has complete coverage: some perceived row and some
    forecasted row of that name carry a value. *)
Definition has_coverage (self : TradeAnalyzer) (r : Roster.row) : bool :=
  existsb (fun p => String.eqb (Roster.player_name r)
                               (Perceived.player_name p)
                    && notna (Perceived.perceived_value p))
          (Perceived.rows (perceived_df self))
  && existsb (fun f => String.eqb (Roster.player_name r)
                                  (Forecasted.player_name f)
                       && notna (forecast_of
                                   (Forecasted.columns (forecasted_df self))
                                   f))
             (Forecasted.rows (forecasted_df self)).

(** ** More leagues *)

(** Market values with the position-scarcity multipliers applied
    (RB 1.2, WR 1.0). *)
Definition scarcity_perceived : Perceived.table :=
  Perceived.mkTable fantasycalc_columns
    [Perceived.mk "Alice" (Fin 100) (Fin 120) (Fin 1);
     Perceived.mk "Bob" (Fin 50) (Fin 50) (Fin 2)].

Definition scarcity_league : TradeAnalyzer :=
  init league_roster scarcity_perceived league_forecasted.

(** A perceived table in which Alice has a raw value and no adjusted
    one. *)
Definition partial_perceived : Perceived.table :=
  Perceived.mkTable fantasycalc_columns
    [Perceived.mk "Alice" (Fin 100) NaN (Fin 1);
     Perceived.mk "Bob" (Fin 50) (Fin 50) (Fin 2)].

Definition partial_league : TradeAnalyzer :=
  init league_roster partial_perceived league_forecasted.

(** A roster whose only player, Carol, is in neither value table. *)
Definition carol_roster : list Roster.row :=
  [Roster.mk "Carol" "TE" "TeamZ" 3].

Definition carol_league : TradeAnalyzer :=
  init carol_roster league_perceived league_forecasted.

(** Alice is projected to score nothing. *)
Definition benched_forecasted : Forecasted.table :=
  Forecasted.mkTable ["player_name"; "forecasted_value"]%string
    [Forecasted.mk "Alice" NaN (Fin 0); Forecasted.mk "Bob" NaN (Fin 150)].

Definition benched_league : TradeAnalyzer :=
  init league_roster league_perceived benched_forecasted.



(** A league with a trade in it: Alice (TeamX) is priced close to Dave
    (TeamY) and forecast well below him. *)
Definition trade_roster : list Roster.row :=
  [Roster.mk "Alice" "RB" "TeamX" 1; Roster.mk "Dave" "WR" "TeamY" 2].

Definition trade_perceived : Perceived.table :=
  Perceived.mkTable fantasycalc_columns
    [Perceived.mk "Alice" (Fin 100) (Fin 100) (Fin 1);
     Perceived.mk "Dave" (Fin 105) (Fin 105) (Fin 2)].

Definition trade_forecasted : Forecasted.table :=
  Forecasted.mkTable ["player_name"; "rest_of_season_projection"]%string
    [Forecasted.mk "Alice" (Fin 50) NaN; Forecasted.mk "Dave" (Fin 90) NaN].

Definition trade_league : TradeAnalyzer :=
  init trade_roster trade_perceived trade_forecasted.

(** The analyzer after the three stages. *)
Definition classified (cfg : Config) (self : TradeAnalyzer) : TradeAnalyzer :=
  set_merged_df (classified_table cfg self) self.

(** Alice's row in the worked league, classified. *)
Definition league_alice : Row :=
  mkRow "Alice" "RB" "TeamX" 1 (Fin 100) (Fin 100) (Fin 1) (Fin 50)
        (Fin (400 # 3)) (Fin 50) (Fin (-500 # 3))
        "Overvalued" "Severely overvalued - SELL".

(** * The rest of the analyzer and its reports *)

(** [TradeAnalyzer.get_team_data] *)
Definition get_team_data (self : TradeAnalyzer) (team : string)
  : result DataFrame :=
  match merged_df self with
  | None => Err (TypeError "'NoneType' object is not subscriptable")
  | Some df =>
      require (columns df) "team_name" ;;;
      Ok (mkDataFrame (columns df)
            (filter (fun r => String.eqb (team_name r) team) (rows df)))
  end.

(** [Series.max] and [Series.min] skip missing cells; of no value at all
    they are [NaN]. *)
Definition num_max (x y : num) : num := if num_lt x y then y else x.
Definition num_min (x y : num) : num := if num_lt y x then y else x.

Definition col_max (col : list num) : num :=
  match filter notna col with
  | [] => NaN
  | v :: vs => fold_left num_max vs v
  end.

Definition col_min (col : list num) : num :=
  match filter notna col with
  | [] => NaN
  | v :: vs => fold_left num_min vs v
  end.

(** The dictionary [get_summary_stats] returns. *)
Record SummaryStats : Type := mkSummaryStats {
  total_players : Z;
  undervalued_count : Z;
  overvalued_count : Z;
  fair_value_count : Z;
  avg_discount_premium : num;
  max_discount : num;
  max_premium : num
}.

Definition count_category (category : string) (l : list Row) : Z :=
  Z.of_nat
    (List.length
       (filter (fun r => String.eqb (value_category r) category) l)).

(** [TradeAnalyzer.get_summary_stats] *)
Definition get_summary_stats (self : TradeAnalyzer) : result SummaryStats :=
  match merged_df self with
  | None => Err (TypeError "object of type 'NoneType' has no len()")
  | Some df =>
      require (columns df) "value_category" ;;;
      require (columns df) "discount_premium" ;;;
      Ok (mkSummaryStats
            (Z.of_nat (List.length (rows df)))
            (count_category "Undervalued" (rows df))
            (count_category "Overvalued" (rows df))
            (count_category "Fair Value" (rows df))
            (mean (map discount_premium (rows df)))
            (col_max (map discount_premium (rows df)))
            (col_min (map discount_premium (rows df))))
  end.

(** Exceptions beyond those of the table operations. *)
Inductive exception : Type :=
| TableError (e : error)
| ZeroDivisionError (message : string)
| ValueError (message : string).

Inductive attempt (A : Type) : Type :=
| Returned (a : A)
| Raised (e : exception).
Arguments Returned {A} a.
Arguments Raised {A} e.

(** [count / total * 100] on two Python integers: the division raises on
    a zero total.  The quotient is the number before it is formatted; the
    text printed, with one decimal, is left out. *)
Definition percentage (count total : Z) : attempt Q :=
  if (total =? 0)%Z then Raised (ZeroDivisionError "division by zero")
  else Returned (Qred (inject_Z count / inject_Z total * 100)).

(** [TradeReporter.print_summary]: the three quotients it forms, in the
    order it prints them, or the exception of the first that raises. *)
Definition print_summary (stats : SummaryStats) : attempt (Q * Q * Q) :=
  match percentage (undervalued_count stats) (total_players stats) with
  | Raised e => Raised e
  | Returned u =>
      match percentage (overvalued_count stats) (total_players stats) with
      | Raised e => Raised e
      | Returned o =>
          match percentage (fair_value_count stats) (total_players stats) with
          | Raised e => Raised e
          | Returned f => Returned (u, o, f)
          end
      end
  end.

(** The rows of a table that are of one team. *)
Definition on_team (team : string) (r : Row) : bool :=
  String.eqb (team_name r) team.

(** The interpretations that go with each category. *)
Definition reads_undervalued (s : string) : bool :=
  String.eqb s "Severely undervalued - BUY"
  || String.eqb s "Undervalued - Good buy target".

Definition reads_overvalued (s : string) : bool :=
  String.eqb s "Overvalued - Good sell candidate"
  || String.eqb s "Severely overvalued - SELL".

(** A method called twice in a row on the same analyzer. *)
Definition twice (method : TradeAnalyzer -> result (DataFrame * TradeAnalyzer))
    (self : TradeAnalyzer) : result (DataFrame * TradeAnalyzer) :=
  '(_, self) <- method self ;;
  method self.



(** The discounts on which the category and the interpretation part ways:
    exactly -10, and missing. *)
Definition boundary_or_missing (x : num) : bool :=
  match x with
  | NaN => true
  | Fin q => Qeq_bool q (-10)
  | PInf | NInf => false
  end.

(** A league on the boundary: Alice is priced 10% above her forecast, Bob
    10% below his. *)
Definition boundary_perceived : Perceived.table :=
  Perceived.mkTable fantasycalc_columns
    [Perceived.mk "Alice" (Fin 110) (Fin 110) (Fin 1);
     Perceived.mk "Bob" (Fin 90) (Fin 90) (Fin 2)].

Definition boundary_forecasted : Forecasted.table :=
  Forecasted.mkTable ["player_name"; "forecasted_value"]%string
    [Forecasted.mk "Alice" NaN (Fin 100); Forecasted.mk "Bob" NaN (Fin 100)].

Definition boundary_league : TradeAnalyzer :=
  init league_roster boundary_perceived boundary_forecasted.

Definition boundary_alice : Row :=
  mkRow "Alice" "RB" "TeamX" 1 (Fin 110) (Fin 110) (Fin 1) (Fin 100)
        (Fin 110) (Fin 100) (Fin (-10))
        "Fair Value" "Overvalued - Good sell candidate".

(** The perceived row and the forecasted row of a player, when there is
    one. *)
Definition perceived_of (self : TradeAnalyzer) (name : string)
  : option Perceived.row :=
  find (fun p => String.eqb name (Perceived.player_name p))
       (Perceived.rows (perceived_df self)).

Definition forecasted_of (self : TradeAnalyzer) (name : string)
  : option Forecasted.row :=
  find (fun f => String.eqb name (Forecasted.player_name f))
       (Forecasted.rows (forecasted_df self)).

(** The merged row of a roster player who has both. *)
Definition merged_row_of (self : TradeAnalyzer) (r : Roster.row)
  : list Row :=
  match perceived_of self (Roster.player_name r),
        forecasted_of self (Roster.player_name r) with
  | Some p, Some f =>
      let v := forecast_of (Forecasted.columns (forecasted_df self)) f in
      if notna (Perceived.perceived_value p) && notna v
      then [mkRow (Roster.player_name r) (Roster.position r)
                  (Roster.team_name r) (Roster.team_id r)
                  (Perceived.perceived_value_adjusted p)
                  (Perceived.perceived_value_adjusted p)
                  (Perceived.overall_rank p) v
                  NaN NaN NaN EmptyString EmptyString]
      else []
  | _, _ => []
  end.

(** A league where a name is twice in the perceived table. *)
Definition doubled_perceived : Perceived.table :=
  Perceived.mkTable fantasycalc_columns
    [Perceived.mk "Alice" (Fin 100) (Fin 100) (Fin 1);
     Perceived.mk "Alice" (Fin 80) (Fin 80) (Fin 7);
     Perceived.mk "Bob" (Fin 50) (Fin 50) (Fin 2)].

Definition doubled_league : TradeAnalyzer :=
  init league_roster doubled_perceived league_forecasted.

(** * The value sources ([value_sources.py]) *)

(** What a request gave is an argument: [None] when the request or the
    decoding failed (the handlers then return an empty table), the decoded
    items otherwise.  A number of the JSON text is a rational; a name is
    taken to be present. *)

(** [dict.get(key, default)] on a dictionary with string keys. *)
Definition dict_get {V : Type} (d : list (string * V)) (key : string)
    (default : V) : V :=
  match find (fun kv => String.eqb key (fst kv)) d with
  | Some kv => snd kv
  | None => default
  end.

(** [fantasy_config.POSITION_SCARCITY_MULTIPLIERS] *)
Definition POSITION_SCARCITY_MULTIPLIERS : list (string * Q) :=
  [("QB", 8 # 10); ("RB", 12 # 10); ("WR", 1); ("TE", 11 # 10);
   ("K", 5 # 10); ("D/ST", 6 # 10)]%string.

(** [fantasy_config.RECENT_GAMES_WEIGHT] *)
Definition RECENT_GAMES_WEIGHT : num := Fin (4 # 10).

Module FantasyCalc.
(** One item of the FantasyCalc answer: the fields [get_redraft_values]
    reads that reach the analyzer.  [None] is a key that is not there; the
    player's name is taken to be there. *)
Record item : Type := mk {
  name : string;
  position : option string;
  value : option Q;
  overallRank : option Z
}.
End FantasyCalc.

Definition scarcity_multiplier (position : option string) : Q :=
  match position with
  | Some p => dict_get POSITION_SCARCITY_MULTIPLIERS p 1
  | None => 1
  end.

Definition redraft_row (item : FantasyCalc.item) : Perceived.row :=
  let perceived_value :=
    Fin (match FantasyCalc.value item with Some v => v | None => 0 end) in
  Perceived.mk
    (FantasyCalc.name item)
    perceived_value
    (num_mul perceived_value
             (Fin (scarcity_multiplier (FantasyCalc.position item))))
    (Fin (inject_Z (match FantasyCalc.overallRank item with
                    | Some k => k
                    | None => 999%Z
                    end))).

Definition no_table : Perceived.table := Perceived.mkTable [] [].

(** [FantasyCalcClient.get_redraft_values].  With no item at all the frame
    has no column to derive the adjusted one from; the assignment raises
    and the handler returns an empty frame. *)
Definition get_redraft_values (response : option (list FantasyCalc.item))
  : Perceived.table :=
  match response with
  | None => no_table
  | Some [] => no_table
  | Some data => Perceived.mkTable fantasycalc_columns (map redraft_row data)
  end.

Module Adp.
(** One player of the ADP answer; the name is taken to be there. *)
Record player : Type := mk {
  name : string;
  adp : option Q
}.
End Adp.

Definition adp_columns : list string :=
  ["player_name"; "position"; "nfl_team"; "adp"; "perceived_value"]%string.

(** [max(1000 - (adp * 5), 0)] *)
Definition adp_value (adp : Q) : Q :=
  let v := 1000 - adp * 5 in
  if Qltb v 0 then 0 else v.

Definition adp_row (player : Adp.player) : Perceived.row :=
  let adp := match Adp.adp player with Some a => a | None => 999 end in
  Perceived.mk (Adp.name player) (Fin (adp_value adp)) NaN NaN.

(** [AlternativeValueSource.get_adp_values] *)
Definition get_adp_values (response : option (list Adp.player))
  : Perceived.table :=
  match response with
  | None => no_table
  | Some [] => no_table
  | Some players => Perceived.mkTable adp_columns (map adp_row players)
  end.

(** [get_perceived_values]: FantasyCalc first, ADP when that is empty. *)
Definition get_perceived_values (fantasycalc : option (list FantasyCalc.item))
    (adp : option (list Adp.player)) : Perceived.table :=
  let df := get_redraft_values fantasycalc in
  if negb (perceived_empty df) then df
  else
    let df := get_adp_values adp in
    if negb (perceived_empty df) then df else no_table.

Definition no_forecast : Forecasted.table := Forecasted.mkTable [] [].

(** [FantasyProsClient.get_rest_of_season_rankings] *)
Definition get_rest_of_season_rankings : Forecasted.table := no_forecast.

(** [get_forecasted_values] *)
Definition get_forecasted_values (espn_projections : option Forecasted.table)
  : Forecasted.table :=
  match espn_projections with
  | Some t =>
      if negb (forecasted_empty t) then t
      else
        let df := get_rest_of_season_rankings in
        if negb (forecasted_empty df) then df else no_forecast
  | None =>
      let df := get_rest_of_season_rankings in
      if negb (forecasted_empty df) then df else no_forecast
  end.

(** The table of recent games ([ESPNClient.get_player_stats_last_4_weeks]). *)
Module Recent.
Record row : Type := mk {
  player_name : string;
  recent_total : num;
  recent_avg : num;
  weeks_played : Z
}.
Record table : Type := mkTable {
  columns : list string;
  rows : list row
}.
End Recent.

Definition recent_empty (t : Recent.table) : bool :=
  match Recent.columns t, Recent.rows t with
  | [], _ | _, [] => true
  | _, _ => false
  end.

(** The projections joined to the recent games: the cells of the
    projection, then those of the recent games, then the combined
    forecast. *)
Module Combined.
Record row : Type := mk {
  projection : Forecasted.row;
  recent_total : num;
  recent_avg : num;
  weeks_played : num;
  forecasted_value_adjusted : num
}.
Record table : Type := mkTable {
  columns : list string;
  rows : list row
}.
End Combined.

(** The part of a combined table the analyzer can select from. *)
Definition as_forecasted (t : Combined.table) : Forecasted.table :=
  Forecasted.mkTable (Combined.columns t)
                     (map Combined.projection (Combined.rows t)).

Definition uncombined (projections : Forecasted.table) : Combined.table :=
  Combined.mkTable (Forecasted.columns projections)
    (map (fun p => Combined.mk p NaN NaN NaN NaN)
         (Forecasted.rows projections)).

(** [fillna(0)] on one cell. *)
Definition fillna0 (x : num) : num :=
  match x with NaN => Fin 0 | _ => x end.

Definition combined_forecast (weight_recent : num) (ros recent_avg : num)
  : num :=
  num_add (num_mul ros (num_sub (Fin 1) weight_recent))
          (num_mul (num_mul recent_avg (Fin 13)) weight_recent).

(** The left join of the projections with the recent games. *)
Definition join_recent (projections : list Forecasted.row)
    (recent : list Recent.row) : list Combined.row :=
  flat_map
    (fun p =>
       match filter (fun s => String.eqb (Forecasted.player_name p)
                                         (Recent.player_name s))
                    recent with
       | [] => [Combined.mk p NaN NaN NaN NaN]
       | matches =>
           map (fun s => Combined.mk p (Recent.recent_total s)
                           (Recent.recent_avg s)
                           (Fin (inject_Z (Recent.weeks_played s))) NaN)
               matches
       end)
    projections.

(** The columns of [left.merge(right, on='player_name', how='left')]: those
    of the left table, then those of the right one but the key; a name
    that is in both is given the suffix [_x] on the left and [_y] on the
    right. *)
Definition joined_columns (left right : list string) : list string :=
  map (fun c => if negb (String.eqb c "player_name") && col_in c right
                then (c ++ "_x")%string else c)
      left
  ++ map (fun c => if col_in c left then (c ++ "_y")%string else c)
         (filter (fun c => negb (String.eqb c "player_name")) right).

(** [combine_recent_performance_with_projections] *)
Definition combine_recent_performance_with_projections
    (projections : Forecasted.table) (recent_stats : Recent.table)
    (weight_recent : num) : result Combined.table :=
  if recent_empty recent_stats then Ok (uncombined projections)
  else
    require (Forecasted.columns projections) "player_name" ;;;
    require (Recent.columns recent_stats) "player_name" ;;;
    let columns :=
      joined_columns (Forecasted.columns projections)
                     (Recent.columns recent_stats) in
    let merged :=
      join_recent (Forecasted.rows projections) (Recent.rows recent_stats) in
    require columns "recent_avg" ;;;
    let merged :=
      map (fun m => Combined.mk (Combined.projection m)
                      (Combined.recent_total m)
                      (fillna0 (Combined.recent_avg m))
                      (Combined.weeks_played m)
                      (Combined.forecasted_value_adjusted m))
          merged in
    require columns "rest_of_season_projection" ;;;
    let merged :=
      map (fun m => Combined.mk (Combined.projection m)
                      (Combined.recent_total m)
                      (Combined.recent_avg m)
                      (Combined.weeks_played m)
                      (combined_forecast weight_recent
                         (Forecasted.rest_of_season_projection
                            (Combined.projection m))
                         (Combined.recent_avg m)))
          merged in
    Ok (Combined.mkTable (add_column "forecasted_value_adjusted" columns)
                         merged).

(** * The ESPN projections ([espn_client.py]) *)

Module Espn.
(** One entry of a player's [stats]; a key that is not there reads 0. *)
Record stat : Type := mkStat {
  statSourceId : Z;
  statSplitTypeId : Z;
  scoringPeriodId : Z;
  appliedTotal : Q
}.
(** The [player] dictionary of one entry of [players]. *)
Record player : Type := mkPlayer {
  fullName : option string;
  stats : list stat
}.
End Espn.

(** [ESPNClient._make_request] returns the JSON answer, and [None] when
    the answer carries an HTTP error status.  When the request cannot be
    made at all, its handler reads [response] before any assignment and
    the call raises; the methods below are given what the call returned,
    so that case is none of theirs.  An empty answer is falsy like [None]
    to every test of the callers, and is [None] here too. *)

(** [ESPNClient.get_current_week]: the answer's [currentMatchupPeriod],
    and 1 when [_make_request] returned [None] or there is no such key. *)
Definition get_current_week (response : option (option Z)) : Z :=
  match response with
  | Some (Some week) => week
  | _ => 1%Z
  end.

(** The last [appliedTotal] among the entries of a source and split type
    (0 when there is none): what the loop over [stats] leaves in
    [total_projection] and in [season_total]. *)
Definition last_total (source split : Z) (stats : list Espn.stat) : Q :=
  fold_left
    (fun acc s =>
       if (Espn.statSourceId s =? source)%Z
          && (Espn.statSplitTypeId s =? split)%Z
       then Espn.appliedTotal s else acc)
    stats 0.

(** The rest-of-season projection of one player. *)
Definition remaining_projection (current_week : Z) (stats : list Espn.stat)
  : Q :=
  let weeks_remaining := (18 - current_week)%Z in
  let total_projection := last_total 1 0 stats in
  let season_total := last_total 0 0 stats in
  if Qltb 0 total_projection then
    let avg_per_week := total_projection / 18 in
    avg_per_week * inject_Z weeks_remaining
  else if (0 <? current_week)%Z then
    let avg_per_week := season_total / inject_Z current_week in
    avg_per_week * inject_Z weeks_remaining
  else 0.

(** Python truth value of a name that may be missing. *)
Definition named (p : Espn.player) : option string :=
  match Espn.fullName p with
  | Some n => if String.eqb n EmptyString then None else Some n
  | None => None
  end.

Definition espn_columns : list string :=
  ["player_id"; "player_name"; "season_projection"; "season_actual";
   "rest_of_season_projection"; "avg_per_week"]%string.

(** [ESPNClient.get_rest_of_season_projections], given what its two
    requests returned: [data] and the current week.  With no named player
    the frame built from the empty list has no column, and the filter on
    [rest_of_season_projection] raises. *)
Definition get_rest_of_season_projections (data : option (list Espn.player))
    (current_week : Z) : result Forecasted.table :=
  match data with
  | None => Ok no_forecast
  | Some players =>
      let projections :=
        flat_map
          (fun p =>
             match named p with
             | None => []
             | Some player_name =>
                 [Forecasted.mk player_name
                    (Fin (remaining_projection current_week (Espn.stats p)))
                    NaN]
             end)
          players in
      match projections with
      | [] => Err (KeyError "rest_of_season_projection")
      | _ =>
          (* Filter out players with no projection *)
          Ok (Forecasted.mkTable espn_columns
                (filter (fun f => num_gt
                                    (Forecasted.rest_of_season_projection f)
                                    (Fin 0))
                        projections))
      end
  end.

Definition recent_columns : list string :=
  ["player_name"; "recent_total"; "recent_avg"; "weeks_played"]%string.

(** The entries [get_player_stats_last_4_weeks] counts for a player. *)
Definition counted (current_week : Z) (stats : list Espn.stat)
  : list Espn.stat :=
  let recent_weeks := Z.max 1 (current_week - 4) in
  filter (fun s => (Espn.statSourceId s =? 0)%Z
                   && (recent_weeks <=? Espn.scoringPeriodId s)%Z
                   && (Espn.scoringPeriodId s <? current_week)%Z)
         stats.

(** The sum the loop over [stats] leaves in [recent_points]. *)
Definition points (games : list Espn.stat) : Q :=
  fold_left (fun acc g => acc + Espn.appliedTotal g) games 0.

(** [ESPNClient.get_player_stats_last_4_weeks], given what its two
    requests returned. *)
Definition get_player_stats_last_4_weeks (data : option (list Espn.player))
    (current_week : Z) : Recent.table :=
  match data with
  | None => Recent.mkTable [] []
  | Some players =>
      let recent_stats :=
        flat_map
          (fun p =>
             match named p with
             | None => []
             | Some player_name =>
                 let games := counted current_week (Espn.stats p) in
                 let recent_points := points games in
                 let weeks_counted := Z.of_nat (List.length games) in
                 if (0 <? weeks_counted)%Z then
                   [Recent.mk player_name (Fin recent_points)
                      (Fin (recent_points / inject_Z weeks_counted))
                      weeks_counted]
                 else []
             end)
          players in
      match recent_stats with
      | [] => Recent.mkTable [] []
      | _ => Recent.mkTable recent_columns recent_stats
      end
  end.

(** * [main], from the answers of the sources *)

(** The forecasted table [main] builds (step 3). *)
Definition main_forecasts (projection_data : option (list Espn.player))
    (projection_week : Z) (recent_data : option (list Espn.player))
    (recent_week : Z) : result Forecasted.table :=
  espn_projections <-
    get_rest_of_season_projections projection_data projection_week ;;
  forecasted_df <-
    (if forecasted_empty espn_projections then Ok no_forecast
     else
       let recent_stats :=
         get_player_stats_last_4_weeks recent_data recent_week in
       if negb (recent_empty recent_stats) then
         combined <- combine_recent_performance_with_projections
                       espn_projections recent_stats RECENT_GAMES_WEIGHT ;;
         Ok (as_forecasted combined)
       else Ok espn_projections) ;;
  if forecasted_empty forecasted_df then Ok (get_forecasted_values None)
  else Ok forecasted_df.

(** Steps 2 to 4 of [main], from what the requests gave. *)
Definition main_steps (cfg : Config) (rosters_df : list Roster.row)
    (fantasycalc : option (list FantasyCalc.item))
    (adp : option (list Adp.player))
    (projection_data : option (list Espn.player)) (projection_week : Z)
    (recent_data : option (list Espn.player)) (recent_week : Z) : outcome :=
  let perceived_df := get_perceived_values fantasycalc adp in
  if perceived_empty perceived_df then
    SysExit 1 "Failed to fetch perceived values"
  else
    match main_forecasts projection_data projection_week
                         recent_data recent_week with
    | Err e => UnexpectedError e
    | Ok forecasted_df =>
        main_analysis cfg rosters_df perceived_df forecasted_df
    end.

(** * [fantasy_config.py] *)

Record Settings : Type := mkSettings {
  LEAGUE_ID : Z;
  SEASON : Z;
  ESPN_S2 : string;
  SWID : string;
  SCORING_FORMAT : string
}.

Definition PPR_MAPPING : list (string * Q) :=
  [("ppr", 1); ("half_ppr", 1 # 2); ("standard", 0)]%string.

Definition has_key {V : Type} (d : list (string * V)) (key : string) : bool :=
  existsb (fun kv => String.eqb key (fst kv)) d.

(** [validate_config] (the warning about the cookies is only printed). *)
Definition validate_config (s : Settings) : attempt bool :=
  if (LEAGUE_ID s =? 0)%Z then
    Raised (ValueError "LEAGUE_ID must be set in .env file")
  else if (SEASON s =? 0)%Z then
    Raised (ValueError "SEASON must be set in .env file")
  else if negb (has_key PPR_MAPPING (SCORING_FORMAT s)) then
    Raised (ValueError "SCORING_FORMAT must be one of: ['ppr', 'half_ppr', 'standard']")
  else Returned true.

(** [get_ppr_value] *)
Definition get_ppr_value (s : Settings) : Q :=
  dict_get PPR_MAPPING (SCORING_FORMAT s) 1.

(** FantasyCalc items for the worked league. *)
Definition league_items : list FantasyCalc.item :=
  [FantasyCalc.mk "Alice" (Some "RB"%string) (Some 100) (Some 1%Z);
   FantasyCalc.mk "Bob" (Some "WR"%string) (Some 50) (Some 2%Z);
   FantasyCalc.mk "Erin" None None None].

Definition league_adp : list Adp.player :=
  [Adp.mk "Alice" (Some (3 # 2)); Adp.mk "Bob" (Some 250);
   Adp.mk "Erin" None].

(** ESPN answers for the worked league, read in week 6. *)
Definition league_espn : list Espn.player :=
  [Espn.mkPlayer (Some "Alice"%string)
     [Espn.mkStat 1 0 0 180; Espn.mkStat 0 0 0 60;
      Espn.mkStat 0 1 4 12; Espn.mkStat 0 1 5 20];
   Espn.mkPlayer (Some "Bob"%string)
     [Espn.mkStat 0 0 0 30; Espn.mkStat 0 1 1 9];
   Espn.mkPlayer None [Espn.mkStat 1 0 0 90]].

(** An answer in which no player carries a name. *)
Definition nameless_espn : list Espn.player :=
  [Espn.mkPlayer None [Espn.mkStat 1 0 0 90];
   Espn.mkPlayer (Some ""%string) []].

(** The projections of the worked league in week 6. *)
Definition league_projections : Forecasted.table :=
  match get_rest_of_season_projections (Some league_espn) 6 with
  | Ok t => t
  | Err _ => no_forecast
  end.



(** [main] on the worked league, from the answers of week 6. *)
Definition league_outcome : outcome :=
  main_steps default_config league_roster (Some league_items) None
             (Some league_espn) 6 (Some league_espn) 6.

Definition outcome_table (o : outcome) : DataFrame :=
  match o with
  | Analysed df _ => df
  | _ => mkDataFrame [] []
  end.

Definition outcome_analyzer (o : outcome) : TradeAnalyzer :=
  match o with
  | Analysed _ analyzer => analyzer
  | _ => league
  end.

(** The recent games of the worked league in week 6, and the projections
    combined with them. *)
Definition league_recent : Recent.table :=
  get_player_stats_last_4_weeks (Some league_espn) 6.

Definition league_combined : Combined.table :=
  match combine_recent_performance_with_projections
          league_projections league_recent RECENT_GAMES_WEIGHT with
  | Ok t => t
  | Err _ => uncombined no_forecast
  end.

(** * The stages in binary64

    The columns hold IEEE doubles, and each addition, subtraction,
    multiplication and division of the code gives its exact result rounded
    to the nearest double, ties to the even one, or an infinity beyond the
    largest double.  This module evaluates the stages that compute with
    that rounding.  A double is a rational number, so the rows and tables
    are those above, and the comparisons, filters, sorts and joins, which
    do not compute, are used as they are.  The sign of a zero is not
    kept. *)
Module Binary64.

(** The exponent of [a / b], for positive [a] and [b]: the [e] with
    [2^e <= a / b < 2^(e+1)]. *)
Definition exponent (a b : Z) : Z :=
  (let e0 := Z.log2 a - Z.log2 b in
   if a * 2 ^ Z.max 0 (- e0) <? b * 2 ^ Z.max 0 e0 then e0 - 1 else e0)%Z.

(** The integer nearest to [n / d], the even one of two. *)
Definition nearest (n d : Z) : Z :=
  (let q := n / d in
   let r := n mod d in
   if 2 * r <? d then q
   else if d <? 2 * r then q + 1
   else if Z.even q then q else q + 1)%Z.

(** [a / b], for positive [a] and [b], to the nearest [n * 2^t] with [n]
    of at most 53 bits and [t] not below -1074, ties to the even [n]. *)
Definition round_ratio (a b : Z) : Z * Z :=
  (let t := Z.max (exponent a b - 52) (-1074) in
   (nearest (a * 2 ^ Z.max 0 (- t)) (b * 2 ^ Z.max 0 t), t))%Z.

(** [n * 2^t] as a number: an infinity from [2^1024] on. *)
Definition scaled (negative : bool) (n t : Z) : num :=
  let sign := fun z : Z => if negative then (- z)%Z else z in
  if (0 <=? t)%Z then
    if (2 ^ 1024 <=? n * 2 ^ t)%Z then (if negative then NInf else PInf)
    else Fin (inject_Z (sign (n * 2 ^ t)%Z))
  else Fin (Qred (Qmake (sign n) (Z.to_pos (2 ^ (- t))))).

Definition round_Q (x : Q) : num :=
  match Qnum x with
  | Z0 => Fin 0
  | Zpos a =>
      let '(n, t) := round_ratio (Zpos a) (Zpos (Qden x)) in
      scaled false n t
  | Zneg a =>
      let '(n, t) := round_ratio (Zpos a) (Zpos (Qden x)) in
      scaled true n t
  end.

Definition round (x : num) : num :=
  match x with
  | Fin q => round_Q q
  | _ => x
  end.

Definition add (x y : num) : num := round (num_add x y).
Definition sub (x y : num) : num := round (num_sub x y).
Definition mul (x y : num) : num := round (num_mul x y).
Definition div (x y : num) : num := round (num_div x y).

(** The order of the additions of a sum.  [Series.mean] leaves the order
    in which the cells of a column are added to the libraries under
    pandas, which add them one after the other or in blocks according to
    their version and to the length of the column.  A [sum_order] is any
    of these orders: a tree of additions whose leaves are the cells, and
    the 0 that a running sum starts from. *)
Inductive sum_order : Type :=
| Start
| Cell (x : num)
| Plus (l r : sum_order).

Fixpoint cells (t : sum_order) : list num :=
  match t with
  | Start => []
  | Cell x => [x]
  | Plus l r => cells l ++ cells r
  end.

(** The longest chain of additions of an order. *)
Fixpoint depth (t : sum_order) : nat :=
  match t with
  | Start | Cell _ => 0
  | Plus l r => S (Nat.max (depth l) (depth r))
  end.

Fixpoint sum_in (t : sum_order) : num :=
  match t with
  | Start => Fin 0
  | Cell x => x
  | Plus l r => add (sum_in l) (sum_in r)
  end.

(** A way of adding a column that adds each cell once, in some order, no
    cell going through more additions than the column has cells. *)
Definition additive (sum : list num -> num) : Prop :=
  forall col : list num,
    exists t : sum_order,
      Permutation (cells t) col
      /\ (depth t <= List.length col)%nat
      /\ sum col = sum_in t.

(** The cells added one after the other from the first. *)
Definition total (l : list num) : num :=
  fold_left add l (Fin 0).

(** [Series.mean], for a way [sum] of adding the cells that are
    present. *)
Definition mean_by (sum : list num -> num) (col : list num) : num :=
  match filter notna col with
  | [] => NaN
  | vs => div (sum vs) (Fin (inject_Z (Z.of_nat (length vs))))
  end.

Definition mean (col : list num) : num := mean_by total col.

(** [TradeAnalyzer.normalize_values], for a way [sum] of adding a
    column. *)
Definition normalize_values_by (sum : list num -> num) (self : TradeAnalyzer)
  : result (DataFrame * TradeAnalyzer) :=
  match merged_df self with
  | None => Err (AttributeError "'NoneType' object has no attribute 'copy'")
  | Some df =>
      require (columns df) "perceived_value" ;;;
      require (columns df) "forecasted_value" ;;;
      let avg_perceived := mean_by sum (map perceived_value (rows df)) in
      let avg_forecasted := mean_by sum (map forecasted_value (rows df)) in
      let df :=
        mkDataFrame
          (add_column "forecasted_normalized"
             (add_column "perceived_normalized" (columns df)))
          (map (fun r =>
                  with_normalized
                    (mul (div (perceived_value r) avg_perceived) (Fin 100))
                    (mul (div (forecasted_value r) avg_forecasted) (Fin 100))
                    r)
               (rows df)) in
      Ok (df, set_merged_df df self)
  end.

(** [TradeAnalyzer.normalize_values], the cells added one after the
    other. *)
Definition normalize_values (self : TradeAnalyzer)
  : result (DataFrame * TradeAnalyzer) :=
  normalize_values_by total self.

(** The Reddit formula of [calculate_discount_premium], on one row. *)
Definition discount_of (r : Row) : num :=
  mul (div (sub (forecasted_normalized r) (perceived_normalized r))
           (forecasted_normalized r))
      (Fin 100).

(** [TradeAnalyzer.calculate_discount_premium] *)
Definition calculate_discount_premium (cfg : Config) (self : TradeAnalyzer)
  : result (DataFrame * TradeAnalyzer) :=
  match merged_df self with
  | None => Err (AttributeError "'NoneType' object has no attribute 'copy'")
  | Some df =>
      require (columns df) "forecasted_normalized" ;;;
      require (columns df) "perceived_normalized" ;;;
      let df :=
        mkDataFrame
          (add_column "interpretation"
             (add_column "value_category"
                (add_column "discount_premium" (columns df))))
          (map (fun r =>
                  let x := discount_of r in
                  with_classification x (categorize cfg x)
                    (_interpret_discount x) r)
               (rows df)) in
      Ok (df, set_merged_df df self)
  end.

(** The band test of [suggest_trade_pairs]. *)
Definition similar_perceived (tolerance your_perceived : num) (t : Row)
  : bool :=
  num_ge (perceived_normalized t)
         (mul your_perceived (sub (Fin 1) tolerance))
  && num_le (perceived_normalized t)
            (mul your_perceived (add (Fin 1) tolerance)).

(** The body of the inner loop: one target against one of your players. *)
Definition consider (cols : list string) (your_player target : Row)
  : result (list Suggestion) :=
  require cols "forecasted_normalized" ;;;
  let value_gain :=
    sub (forecasted_normalized target) (forecasted_normalized your_player) in
  (* Only suggest if we gain value *)
  if num_gt value_gain (Fin 5) then
    require cols "player_name" ;;;
    require cols "position" ;;;
    Ok [mkSuggestion
          (player_name your_player) (position your_player)
          (perceived_normalized your_player)
          (forecasted_normalized your_player)
          (discount_premium your_player)
          (player_name target) (position target) (team_name target)
          (perceived_normalized target) (forecasted_normalized target)
          (discount_premium target)
          value_gain
          (if num_gt (forecasted_normalized your_player) (Fin 0)
           then mul (div value_gain (forecasted_normalized your_player))
                    (Fin 100)
           else Fin 0)]
  else Ok [].

(** [TradeAnalyzer.suggest_trade_pairs] *)
Definition suggest_trade_pairs (cfg : Config)
    (self : TradeAnalyzer) (your_team : string) (max_suggestions : Z)
  : result (list Suggestion) :=
  '(your_overvalued, _) <- analyze_team cfg self your_team ;;
  trade_targets <- find_trade_targets cfg self your_team None ;;
  if empty your_overvalued || empty trade_targets then Ok []
  else
    suggestions <-
      for_each
        (fun your_player =>
           require (columns your_overvalued) "perceived_normalized" ;;;
           let your_perceived := perceived_normalized your_player in
           (* Find players with similar perceived value *)
           tolerance <- read_tolerance cfg ;;
           let similar :=
             filter (similar_perceived tolerance your_perceived)
                    (rows trade_targets) in
           for_each (consider (columns trade_targets) your_player)
                    (head 3 similar))
        (rows your_overvalued) ;;
    match suggestions with
    | [] => Ok []
    | _ => Ok (head max_suggestions (sort_values value_gain false suggestions))
    end.

(** The three stages in a row, for a way [sum] of adding a column. *)
Definition run_pipeline_by (sum : list num -> num) (cfg : Config)
    (self : TradeAnalyzer) : result (DataFrame * TradeAnalyzer) :=
  '(_, self) <- merge_data_sources self ;;
  '(_, self) <- normalize_values_by sum self ;;
  calculate_discount_premium cfg self.

(** The three stages in a row, the cells added one after the other. *)
Definition run_pipeline (cfg : Config) (self : TradeAnalyzer)
  : result (DataFrame * TradeAnalyzer) :=
  run_pipeline_by total cfg self.

(** What [suggest_trade_pairs] returns when it returns: the suggestions as
    a function of the classified table. *)
Definition gain (your_player target : Row) : num :=
  sub (forecasted_normalized target) (forecasted_normalized your_player).

Definition suggestion_of (your_player target : Row) : Suggestion :=
  mkSuggestion
    (player_name your_player) (position your_player)
    (perceived_normalized your_player) (forecasted_normalized your_player)
    (discount_premium your_player)
    (player_name target) (position target) (team_name target)
    (perceived_normalized target) (forecasted_normalized target)
    (discount_premium target)
    (gain your_player target)
    (if num_gt (forecasted_normalized your_player) (Fin 0)
     then mul (div (gain your_player target)
                   (forecasted_normalized your_player))
              (Fin 100)
     else Fin 0).

(** What one pass of the outer loop appends for [your_player]. *)
Definition pairs_for (tolerance : num) (targets : list Row)
    (your_player : Row) : list Suggestion :=
  flat_map
    (fun target =>
       if num_gt (gain your_player target) (Fin 5)
       then [suggestion_of your_player target] else [])
    (head 3 (filter (similar_perceived tolerance
                       (perceived_normalized your_player))
                    targets)).

Definition suggestions_table (cfg : Config) (tolerance : num)
    (df : DataFrame) (your_team : string) (max_suggestions : Z)
  : list Suggestion :=
  head max_suggestions
    (sort_values value_gain false
       (flat_map
          (pairs_for tolerance
             (sort_values discount_premium false
                (filter (is_target cfg your_team None) (rows df))))
          (sort_values discount_premium true
             (filter (is_overvalued_on cfg your_team) (rows df))))).

End Binary64.

(** ** A league whose perceived values are a quarter apart

    Alice (20) and Bob (25) normalise to 800/9 and 1000/9, neither of
    which is a double: Bob is at the upper end of Alice's band for a
    tolerance of 0.25. *)

Definition quarter_roster : list Roster.row :=
  [Roster.mk "Alice" "RB" "TeamX" 1; Roster.mk "Bob" "WR" "TeamY" 2].

Definition quarter_perceived : Perceived.table :=
  Perceived.mkTable fantasycalc_columns
    [Perceived.mk "Alice" (Fin 20) (Fin 20) (Fin 1);
     Perceived.mk "Bob" (Fin 25) (Fin 25) (Fin 2)].

Definition quarter_forecasted : Forecasted.table :=
  Forecasted.mkTable ["player_name"; "rest_of_season_projection"]%string
    [Forecasted.mk "Alice" (Fin 30) NaN; Forecasted.mk "Bob" (Fin 70) NaN].

Definition quarter_league : TradeAnalyzer :=
  init quarter_roster quarter_perceived quarter_forecasted.

(** The module with [VALUE_MATCH_TOLERANCE = 0.25]. *)
Definition quarter_config : Config :=
  with_tolerance (Fin (1 # 4)) default_config.

(** The league after the three stages, in binary64. *)
Definition quarter_classified : TradeAnalyzer :=
  state_after (Binary64.run_pipeline quarter_config quarter_league)
              quarter_league.

(** ** The vocabulary of the rounding analysis *)

(** The unit roundoff of binary64: half the distance from 1 to the next
    double. *)
Definition unit_roundoff : Q := 2 ^ (-53).

(** [near a y x]: [y] is [x] up to the relative error [a]. *)
Definition near (a y x : Q) : Prop := x * (1 - a) <= y /\ y <= x * (1 + a).

(** Zero, or not too small. *)
Definition low (x : Q) : Prop := x == 0 \/ 2 ^ (-1000) <= x.

(** The exact results whose rounding is of relative error
    [unit_roundoff]: zero, or far from the smallest and the largest
    double. *)
Definition safe (x : Q) : Prop :=
  x == 0 \/ (2 ^ (-1000) <= x /\ x <= 2 ^ 1000).

(** The values of a column that the analysis covers: zero, or from
    [2^-200] to [2^200]. *)
Definition vlo : Q := 1 # 2 ^ 200.
Definition vhi : Q := inject_Z (2 ^ 200).

Definition ordinary_value (x : num) : bool :=
  match x with
  | Fin v => Qeq_bool v 0 || (Qleb vlo v && Qleb v vhi)
  | _ => false
  end.

(** A column of at most [2^20] cells, all of them ordinary values and
    one of them not zero. *)
Definition ordinary (col : list num) : bool :=
  (Z.of_nat (List.length col) <=? 2 ^ 20)%Z
  && forallb ordinary_value col
  && existsb nonzero_finite col.

(** One millionth. *)
Definition millionth : num := Fin (1 # 1000000).

(** ** A league whose perceived values add up to infinity

    Two players of perceived value [2^1023], the largest power of two
    among the doubles: their sum is beyond the doubles. *)

Definition huge_perceived : Perceived.table :=
  Perceived.mkTable fantasycalc_columns
    [Perceived.mk "Alice" (Fin (inject_Z (2 ^ 1023)))
                  (Fin (inject_Z (2 ^ 1023))) (Fin 1);
     Perceived.mk "Bob" (Fin (inject_Z (2 ^ 1023)))
                  (Fin (inject_Z (2 ^ 1023))) (Fin 2)].

Definition huge_league : TradeAnalyzer :=
  init quarter_roster huge_perceived quarter_forecasted.
(** * Properties *)

(** ** Order and arithmetic on extended rationals *)

Lemma Qltb_lt (a b : Q) : Qltb a b = true <-> a < b.
Proof.
  unfold Qltb. rewrite Qlt_alt. destruct (a ?= b); split; congruence.
Qed.

Lemma Qleb_le (a b : Q) : Qleb a b = true <-> a <= b.
Proof.
  unfold Qleb. rewrite Qle_alt. destruct (a ?= b); intuition congruence.
Qed.

Lemma Qltb_ge (a b : Q) : Qltb a b = false <-> b <= a.
Proof.
  split; intro H.
  - apply Qnot_lt_le. intro L. apply Qltb_lt in L. congruence.
  - destruct (Qltb a b) eqn:E; [|reflexivity].
    apply Qltb_lt in E. exfalso. apply (Qlt_not_le _ _ E H).
Qed.

Lemma Qleb_gt (a b : Q) : Qleb a b = false <-> b < a.
Proof.
  split; intro H.
  - apply Qnot_le_lt. intro L. apply Qleb_le in L. congruence.
  - destruct (Qleb a b) eqn:E; [|reflexivity].
    apply Qleb_le in E. exfalso. apply (Qlt_not_le _ _ H E).
Qed.

(** Turns the boolean comparisons of the context into propositions. *)
Ltac q_props :=
  repeat match goal with
    | H : Qltb _ _ = true |- _ => apply Qltb_lt in H
    | H : Qltb _ _ = false |- _ => apply Qltb_ge in H
    | H : Qleb _ _ = true |- _ => apply Qleb_le in H
    | H : Qleb _ _ = false |- _ => apply Qleb_gt in H
    | |- Qltb _ _ = true => apply Qltb_lt
    | |- Qltb _ _ = false => apply Qltb_ge
    | |- Qleb _ _ = true => apply Qleb_le
    | |- Qleb _ _ = false => apply Qleb_gt
    end.


Lemma num_lt_le_contra (x p d : num) :
  num_lt x p = true -> num_lt d x = true -> num_le p d = true -> False.
Proof.
  destruct x, p, d; simpl; intros; try discriminate.
  q_props. lra.
Qed.

(** ** Inversion of the error monad *)

Lemma bind_ok {A B : Type} (m : result A) (k : A -> result B) (b : B) :
  bind m k = Ok b -> exists a, m = Ok a /\ k a = Ok b.
Proof.
  destruct m as [a|e]; simpl; intro H; [eauto | discriminate].
Qed.

Lemma require_ok (cols : list string) (c : string) (u : unit) :
  require cols c = Ok u -> col_in c cols = true.
Proof.
  unfold require. destruct (col_in c cols); [reflexivity | discriminate].
Qed.

(** Peels the binds and column checks off a successful call. *)
Ltac ok_inv H :=
  repeat match type of H with
    | bind (require _ _) _ = Ok _ =>
        let u := fresh "u" in let Hc := fresh "Hcol" in
        apply bind_ok in H; destruct H as (u & Hc & H);
        apply require_ok in Hc
    | bind _ _ = Ok _ =>
        let a := fresh "a" in let Ha := fresh "Hstep" in
        apply bind_ok in H; destruct H as (a & Ha & H)
    end.

(** ** What each stage returns *)

Lemma calculate_discount_premium_ok cfg self df self' :
  calculate_discount_premium cfg self = Ok (df, self') ->
  exists df0,
    merged_df self = Some df0 /\
    col_in "forecasted_normalized" (columns df0) = true /\
    col_in "perceived_normalized" (columns df0) = true /\
    rows df = map (classify_row cfg) (rows df0) /\
    self' = set_merged_df df self.
Proof.
  unfold calculate_discount_premium. intro H.
  destruct (merged_df self) as [df0|]; [|discriminate].
  ok_inv H. inversion H; subst. exists df0. auto.
Qed.

(** ** Classification *)

Lemma categorize_cases (cfg : Config) (x : num) :
  categorize cfg x = "Undervalued"%string
  \/ categorize cfg x = "Overvalued"%string
  \/ categorize cfg x = "Fair Value"%string.
Proof.
  unfold categorize.
  destruct (num_gt x (MIN_DISCOUNT_THRESHOLD cfg)); auto.
  destruct (num_lt x (MIN_PREMIUM_THRESHOLD cfg)); auto.
Qed.

Lemma categorize_undervalued (cfg : Config) (x : num) :
  categorize cfg x = "Undervalued"%string
  <-> num_gt x (MIN_DISCOUNT_THRESHOLD cfg) = true.
Proof.
  unfold categorize.
  destruct (num_gt x (MIN_DISCOUNT_THRESHOLD cfg));
    [|destruct (num_lt x (MIN_PREMIUM_THRESHOLD cfg))];
    split; intro H; try reflexivity; discriminate.
Qed.

Lemma classified_row_in cfg self df self' r :
  calculate_discount_premium cfg self = Ok (df, self') ->
  In r (rows df) ->
  exists df0 r0,
    merged_df self = Some df0 /\ In r0 (rows df0) /\ r = classify_row cfg r0.
Proof.
  intros H Hin.
  destruct (calculate_discount_premium_ok _ _ _ _ H)
    as (df0 & Hm & _ & _ & Hrows & _).
  rewrite Hrows in Hin. apply in_map_iff in Hin.
  destruct Hin as (r0 & Hr & Hin). exists df0, r0. auto.
Qed.

(** C3.  Every row of the table [calculate_discount_premium] returns carries
    one of the three categories, and which one is decided by its
    [discount_premium] and the two thresholds: Undervalued exactly when the
    discount is above [MIN_DISCOUNT_THRESHOLD], Overvalued exactly when it
    is below [MIN_PREMIUM_THRESHOLD], Fair Value exactly when it is
    neither.  The thresholds are any pair with
    [MIN_PREMIUM_THRESHOLD <= MIN_DISCOUNT_THRESHOLD], as the configured
    -10 and 10. *)
Theorem classification_partition cfg self df self' r :
  num_le (MIN_PREMIUM_THRESHOLD cfg) (MIN_DISCOUNT_THRESHOLD cfg) = true ->
  calculate_discount_premium cfg self = Ok (df, self') ->
  In r (rows df) ->
  (value_category r = "Undervalued"%string
   \/ value_category r = "Overvalued"%string
   \/ value_category r = "Fair Value"%string)
  /\ (value_category r = "Undervalued"%string
      <-> num_gt (discount_premium r) (MIN_DISCOUNT_THRESHOLD cfg) = true)
  /\ (value_category r = "Overvalued"%string
      <-> num_lt (discount_premium r) (MIN_PREMIUM_THRESHOLD cfg) = true)
  /\ (value_category r = "Fair Value"%string
      <-> num_gt (discount_premium r) (MIN_DISCOUNT_THRESHOLD cfg) = false
          /\ num_lt (discount_premium r) (MIN_PREMIUM_THRESHOLD cfg) = false).
Proof.
  intros Hcfg H Hin.
  destruct (classified_row_in _ _ _ _ _ H Hin) as (df0 & r0 & _ & _ & ->).
  simpl. generalize (discount_of r0). intro x.
  split; [apply categorize_cases|].
  split; [apply categorize_undervalued|].
  unfold categorize.
  destruct (num_gt x (MIN_DISCOUNT_THRESHOLD cfg)) eqn:Hgt;
    destruct (num_lt x (MIN_PREMIUM_THRESHOLD cfg)) eqn:Hlt;
    repeat split; intros; try discriminate; try reflexivity;
    try (exfalso; exact (num_lt_le_contra _ _ _ Hlt Hgt Hcfg));
    intuition discriminate.
Qed.

Lemma classification_partition_witness :
  (value_category league_alice = "Undervalued"%string
   \/ value_category league_alice = "Overvalued"%string
   \/ value_category league_alice = "Fair Value"%string)
  /\ (value_category league_alice = "Undervalued"%string
      <-> num_gt (discount_premium league_alice) (Fin 10) = true)
  /\ (value_category league_alice = "Overvalued"%string
      <-> num_lt (discount_premium league_alice) (Fin (-10)) = true)
  /\ (value_category league_alice = "Fair Value"%string
      <-> num_gt (discount_premium league_alice) (Fin 10) = false
          /\ num_lt (discount_premium league_alice) (Fin (-10)) = false).
Proof.
  apply (classification_partition default_config league_normalized
           (classified_table default_config league) league_classified
           league_alice).
  - reflexivity.
  - vm_compute. reflexivity.
  - vm_compute. left. reflexivity.
Defined.

(** ** The merge *)

Lemma merge_data_sources_eq (self : TradeAnalyzer) :
  merge_inputs_ok self = true ->
  merge_data_sources self
  = Ok (merged_table self, set_merged_df (merged_table self) self).
Proof.
  unfold merge_inputs_ok, merge_data_sources, merged_table, joined_rows,
    forecast_of, perceived_subset.
  cbn [forallb require_all]. unfold require.
  intro H. rewrite !andb_true_iff in H.
  destruct H as [[(Hn & Hv & Ha & Hr & _) Hf] Hp].
  rewrite Hn, Hv, Ha, Hr, Hp. cbn [bind].
  destruct (col_in "rest_of_season_projection"
              (Forecasted.columns (forecasted_df self))) eqn:Hros.
  - reflexivity.
  - simpl in Hf. rewrite Hf. reflexivity.
Qed.

Lemma merge_data_sources_inv (self : TradeAnalyzer) df self' :
  merge_data_sources self = Ok (df, self') ->
  merge_inputs_ok self = true
  /\ df = merged_table self /\ self' = set_merged_df df self.
Proof.
  intro H.
  destruct (merge_inputs_ok self) eqn:Hok.
  - rewrite (merge_data_sources_eq _ Hok) in H. inversion H; subst. auto.
  - exfalso. revert H Hok.
    unfold merge_inputs_ok, merge_data_sources, perceived_subset.
    cbn [forallb require_all]. unfold require.
    repeat match goal with
           | |- context [col_in ?c ?cols] =>
               let E := fresh "E" in
               destruct (col_in c cols) eqn:E; cbn [bind andb orb];
               try discriminate
           end.
Qed.

(** ** The pipeline *)

Lemma run_pipeline_eq (cfg : Config) (self : TradeAnalyzer) :
  merge_inputs_ok self = true ->
  run_pipeline cfg self
  = Ok (classified_table cfg self,
        set_merged_df (classified_table cfg self) self).
Proof.
  intro Hok. unfold run_pipeline.
  rewrite (merge_data_sources_eq _ Hok). reflexivity.
Qed.

Lemma run_pipeline_err (cfg : Config) (self : TradeAnalyzer) :
  merge_inputs_ok self = false ->
  exists e, merge_data_sources self = Err e /\ run_pipeline cfg self = Err e.
Proof.
  intro Hok. unfold run_pipeline.
  destruct (merge_data_sources self) as [[df s]|e] eqn:Hm.
  - apply merge_data_sources_inv in Hm. destruct Hm as (Hm & _). congruence.
  - exists e. split; reflexivity.
Qed.

Lemma run_pipeline_inv (cfg : Config) (self : TradeAnalyzer) df self' :
  run_pipeline cfg self = Ok (df, self') ->
  merge_inputs_ok self = true
  /\ df = classified_table cfg self /\ self' = set_merged_df df self.
Proof.
  intro H. destruct (merge_inputs_ok self) eqn:Hok.
  - rewrite (run_pipeline_eq _ _ Hok) in H. inversion H; subst. auto.
  - destruct (run_pipeline_err cfg _ Hok) as (e & _ & He). congruence.
Qed.

(** The worked league through the three stages: Alice is at 133.3 and 50
    of the averages, 166.7% over her forecast; Bob at 66.7 and 150, 55.6%
    under his. *)
Example league_pipeline :
  exists df self,
    run_pipeline default_config league = Ok (df, self)
    /\ map player_name (rows df) = ["Alice"; "Bob"]%string
    /\ map perceived_normalized (rows df) = [Fin (400 # 3); Fin (200 # 3)]
    /\ map forecasted_normalized (rows df) = [Fin 50; Fin 150]
    /\ map discount_premium (rows df) = [Fin (-500 # 3); Fin (500 # 9)]
    /\ map value_category (rows df) = ["Overvalued"; "Undervalued"]%string.
Proof.
  do 2 eexists. split; [vm_compute; reflexivity|]. repeat split.
Qed.

(** C9.  The three stages compute a function of the three input tables and
    the configuration alone: two analyzers that hold the same tables give
    the same result whatever working table either holds, and running the
    stages again on the analyzer a run leaves behind reproduces the same
    table (or the same error). *)
Theorem pipeline_deterministic (cfg : Config) (roster : list Roster.row)
    (perceived : Perceived.table) (forecasted : Forecasted.table)
    (working working' : option DataFrame) :
  run_pipeline cfg (mkTradeAnalyzer roster perceived forecasted working)
  = run_pipeline cfg (mkTradeAnalyzer roster perceived forecasted working')
  /\ run_twice cfg (mkTradeAnalyzer roster perceived forecasted working)
     = run_pipeline cfg (mkTradeAnalyzer roster perceived forecasted working)
  /\ run_pipeline cfg (mkTradeAnalyzer roster perceived forecasted working)
     = run_pipeline cfg (init roster perceived forecasted).
Proof.
  assert (Hany : forall w w',
    run_pipeline cfg (mkTradeAnalyzer roster perceived forecasted w)
    = run_pipeline cfg (mkTradeAnalyzer roster perceived forecasted w')).
  { intros w w'.
    destruct (merge_inputs_ok
                (mkTradeAnalyzer roster perceived forecasted w)) eqn:Hok.
    - rewrite (run_pipeline_eq cfg _ Hok).
      rewrite (run_pipeline_eq cfg
                 (mkTradeAnalyzer roster perceived forecasted w') Hok).
      reflexivity.
    - destruct (run_pipeline_err cfg _ Hok) as (e & He & ->).
      destruct (run_pipeline_err cfg
                  (mkTradeAnalyzer roster perceived forecasted w') Hok)
        as (e' & He' & ->).
      rewrite <- He, <- He'. reflexivity. }
  split; [apply Hany|]. split; [|apply Hany].
  unfold run_twice.
  destruct (run_pipeline cfg
              (mkTradeAnalyzer roster perceived forecasted working))
    as [[df s]|e] eqn:Hrun; [|reflexivity].
  cbn [bind]. apply run_pipeline_inv in Hrun.
  destruct Hrun as (Hok & Hdf & ->).
  unfold set_merged_df; simpl.
  rewrite (Hany (Some df) working).
  rewrite (run_pipeline_eq cfg _ Hok). subst df. reflexivity.
Qed.

(** ** Sorting *)

Section SortFacts.
Context {A : Type}.
Variable key : A -> num.
Variable ascending : bool.

Lemma insert_row_perm (x : A) (l : list A) :
  Permutation (insert_row key ascending x l) (x :: l).
Proof.
  induction l as [|y l IH]; simpl.
  - apply Permutation_refl.
  - destruct (strictly_before key ascending y x).
    + apply perm_trans with (y :: x :: l).
      * apply perm_skip. exact IH.
      * apply perm_swap.
    + apply Permutation_refl.
Qed.

Lemma insertion_sort_perm (l : list A) :
  Permutation (insertion_sort key ascending l) l.
Proof.
  induction l as [|x l IH]; simpl.
  - apply perm_nil.
  - apply perm_trans with (x :: insertion_sort key ascending l).
    + apply insert_row_perm.
    + apply perm_skip. exact IH.
Qed.

Lemma filter_split_perm (f g : A -> bool) (l : list A) :
  (forall x, g x = negb (f x)) ->
  Permutation (filter f l ++ filter g l) l.
Proof.
  intro Hfg. induction l as [|x l IH]; simpl.
  - apply perm_nil.
  - rewrite Hfg. destruct (f x); simpl.
    + apply perm_skip. exact IH.
    + apply Permutation_sym, Permutation_cons_app, Permutation_sym.
      exact IH.
Qed.

Lemma sort_values_perm (l : list A) :
  Permutation (sort_values key ascending l) l.
Proof.
  unfold sort_values.
  apply perm_trans
    with (filter (fun r => notna (key r)) l
            ++ filter (fun r => isna (key r)) l).
  - apply Permutation_app_tail. apply insertion_sort_perm.
  - apply filter_split_perm. intro x. destruct (key x); reflexivity.
Qed.

Lemma sort_values_in (l : list A) (x : A) :
  In x (sort_values key ascending l) <-> In x l.
Proof.
  split; apply Permutation_in.
  - apply sort_values_perm.
  - apply Permutation_sym, sort_values_perm.
Qed.






End SortFacts.

Lemma firstn_in {A : Type} (n : nat) (l : list A) (x : A) :
  In x (firstn n l) -> In x l.
Proof.
  intro H. rewrite <- (firstn_skipn n l). apply in_or_app. left. exact H.
Qed.

Lemma head_in {A : Type} (n : Z) (l : list A) (x : A) :
  In x (head n l) -> In x l.
Proof.
  unfold head. destruct (n <? 0)%Z; apply firstn_in.
Qed.

Lemma filter_andb {A : Type} (f g : A -> bool) (l : list A) :
  filter g (filter f l) = filter (fun x => f x && g x) l.
Proof.
  induction l as [|x l IH]; simpl; [reflexivity|].
  destruct (f x); simpl; [destruct (g x)|]; rewrite IH; reflexivity.
Qed.

(** ** Trade targets *)

Lemma isin_nil (s : string) : isin [] s = false.
Proof. reflexivity. Qed.

Lemma find_trade_targets_eq cfg self your_team position_filter df :
  merged_df self = Some df ->
  col_in "team_name" (columns df) = true ->
  col_in "discount_premium" (columns df) = true ->
  col_in "position" (columns df) = true ->
  col_in "player_name" (columns df) = true ->
  find_trade_targets cfg self your_team position_filter
  = Ok (mkDataFrame (columns df)
          (sort_values discount_premium false
             (filter (is_target cfg your_team position_filter) (rows df)))).
Proof.
  intros Hm Ht Hd Hp Hn. unfold find_trade_targets, require.
  rewrite Hm, Ht, Hd, Hp, Hn. cbn [bind].
  assert (Hext : forall f g : Row -> bool,
            (forall r, f r = g r) ->
            Ok (mkDataFrame (columns df)
                  (sort_values discount_premium false (filter f (rows df))))
            = Ok (mkDataFrame (columns df)
                    (sort_values discount_premium false
                       (filter g (rows df))))).
  { intros f g Hfg. rewrite (filter_ext _ _ Hfg). reflexivity. }
  unfold is_target.
  destruct (truthy position_filter) eqn:Htruthy;
    destruct (UNTOUCHABLE_PLAYERS cfg) as [|u us] eqn:Hu;
    cbn [bind]; rewrite !filter_andb; apply Hext; intro r;
    rewrite ?isin_nil; simpl negb;
    rewrite ?andb_true_r, ?andb_assoc; reflexivity.
Qed.



(** ** Trade suggestions *)

Lemma for_each_total {A B : Type} (body : A -> result (list B))
    (f : A -> list B) (l : list A) :
  (forall x, In x l -> body x = Ok (f x)) ->
  for_each body l = Ok (flat_map f l).
Proof.
  induction l as [|x l IH]; simpl; intro H; [reflexivity|].
  rewrite (H x (or_introl eq_refl)). cbn [bind].
  rewrite IH by (intros y Hy; apply H; right; exact Hy).
  reflexivity.
Qed.


Lemma analyze_team_eq cfg self team df :
  merged_df self = Some df ->
  col_in "team_name" (columns df) = true ->
  col_in "discount_premium" (columns df) = true ->
  exists undervalued,
    analyze_team cfg self team
    = Ok (mkDataFrame (columns df)
            (sort_values discount_premium true
               (filter (is_overvalued_on cfg team) (rows df))),
          undervalued).
Proof.
  intros Hm Ht Hd. unfold analyze_team, require. rewrite Hm, Ht, Hd.
  cbn [bind]. rewrite filter_andb. eexists. reflexivity.
Qed.

Lemma empty_rows (cols : list string) (l : list Row) (c : string) :
  col_in c cols = true ->
  empty (mkDataFrame cols l) = match l with [] => true | _ => false end.
Proof.
  unfold empty. simpl. destruct cols; [discriminate|]. reflexivity.
Qed.

Lemma sort_values_nil {A : Type} (key : A -> num) (ascending : bool) :
  sort_values key ascending [] = [].
Proof. reflexivity. Qed.

Lemma head_nil {A : Type} (n : Z) : head n (@nil A) = [].
Proof. unfold head. destruct (n <? 0)%Z; apply firstn_nil. Qed.





Lemma for_each_raises {A B : Type} (body : A -> result (list B)) (e : error)
    (x : A) (l : list A) :
  body x = Err e -> for_each body (x :: l) = Err e.
Proof. intro H. cbn [for_each]. rewrite H. reflexivity. Qed.

Lemma sorted_filter_empty (l : list Row) (f : Row -> bool) (asc : bool) :
  match sort_values discount_premium asc (filter f l) with
  | [] => true
  | _ => false
  end = negb (existsb f l).
Proof.
  destruct (existsb f l) eqn:E.
  - apply existsb_exists in E. destruct E as (r & Hr & Hf).
    assert (Hin : In r (sort_values discount_premium asc (filter f l))).
    { apply sort_values_in. apply filter_In. auto. }
    destruct (sort_values discount_premium asc (filter f l));
      [destruct Hin|reflexivity].
  - destruct (sort_values discount_premium asc (filter f l))
      as [|r rest] eqn:Es; [reflexivity|].
    assert (Hin : In r (filter f l)).
    { apply (sort_values_in discount_premium asc). rewrite Es.
      left. reflexivity. }
    apply filter_In in Hin. destruct Hin as (Hin & Hf).
    assert (existsb f l = true)
      by (apply existsb_exists; eauto).
    congruence.
Qed.



(** ** Sums and means *)

Lemma Fin_inj (a b : Q) : Fin a = Fin b -> a = b.
Proof. congruence. Qed.

Lemma num_add_fin (x y : num) (s : Q) :
  num_add x y = Fin s ->
  exists a b, x = Fin a /\ y = Fin b /\ s = Qred (a + b).
Proof.
  destruct x as [a| | |], y as [b| | |]; simpl; intro H; try discriminate.
  inversion H. eauto.
Qed.

Lemma Qsum_cons (q : Q) (qs : list Q) : Qsum (q :: qs) = q + Qsum qs.
Proof. reflexivity. Qed.

(** A finite total is a total of finite numbers. *)
Lemma total_fin (l : list num) (s : Q) :
  total l = Fin s ->
  exists qs, l = map Fin qs /\ s == Qsum qs.
Proof.
  revert s. induction l as [|x l IH]; simpl; intros s H.
  - inversion H. exists []. split; reflexivity.
  - apply num_add_fin in H. destruct H as (a & b & -> & Hl & ->).
    destruct (IH b Hl) as (qs & -> & Hb).
    exists (a :: qs). split; [reflexivity|].
    rewrite Qsum_cons, Qred_correct, Hb. reflexivity.
Qed.

Lemma total_map_fin (qs : list Q) :
  exists s, total (map Fin qs) = Fin s /\ s == Qsum qs.
Proof.
  induction qs as [|q qs (s & Hs & Es)]; cbn [map total fold_right].
  - exists 0. split; reflexivity.
  - fold (total (map Fin qs)). rewrite Hs. cbn [num_add].
    eexists. split; [reflexivity|].
    rewrite Qsum_cons, Qred_correct, Es. reflexivity.
Qed.

Lemma rows_count_pos {A : Type} (x : A) (l : list A) :
  0 < inject_Z (Z.of_nat (List.length (x :: l))).
Proof.
  unfold Qlt. simpl. lia.
Qed.

Lemma num_div_count (s : Q) {A : Type} (x : A) (l : list A) :
  num_div (Fin s) (Fin (inject_Z (Z.of_nat (List.length (x :: l)))))
  = Fin (Qred (s / inject_Z (Z.of_nat (List.length (x :: l))))).
Proof.
  unfold num_div.
  pose proof (rows_count_pos x l) as Hpos.
  apply Qgt_alt in Hpos. rewrite Hpos. reflexivity.
Qed.

(** A finite mean is the mean of the present cells, all of them finite. *)
Lemma mean_fin (col : list num) (a : Q) :
  mean col = Fin a ->
  exists q qs,
    filter notna col = map Fin (q :: qs)
    /\ a == Qsum (q :: qs)
            / inject_Z (Z.of_nat (List.length (q :: qs))).
Proof.
  unfold mean. destruct (filter notna col) as [|v vs] eqn:Hf;
    [discriminate|].
  intro H.
  destruct (total (v :: vs)) as [s| | |] eqn:Ht.
  - destruct (total_fin _ _ Ht) as (qs & Hqs & Hs).
    destruct qs as [|q qs]; [discriminate|].
    exists q, qs. split; [exact Hqs|].
    rewrite num_div_count in H. apply Fin_inj in H. subst a.
    rewrite Qred_correct, Hs.
    assert (Hlen : List.length (v :: vs) = List.length (q :: qs)).
    { rewrite Hqs. apply length_map. }
    rewrite Hlen. reflexivity.
  - simpl in H.
    destruct (inject_Z (Z.of_nat (List.length (v :: vs))) ?= 0);
      discriminate.
  - simpl in H.
    destruct (inject_Z (Z.of_nat (List.length (v :: vs))) ?= 0);
      discriminate.
  - discriminate.
Qed.

Lemma mean_of_fin (q : Q) (qs : list Q) (col : list num) :
  filter notna col = map Fin (q :: qs) ->
  exists a,
    mean col = Fin (Qred a)
    /\ a == Qsum (q :: qs) / inject_Z (Z.of_nat (List.length (q :: qs))).
Proof.
  intro Hf. unfold mean. rewrite Hf.
  destruct (total_map_fin (q :: qs)) as (s & Hs & Es).
  cbn [map] in *. rewrite Hs.
  pose proof (num_div_count s (Fin q) (map Fin qs)) as Hd.
  rewrite Hd. eexists. split; [reflexivity|].
  rewrite Es. cbn [List.length]. rewrite length_map.
  reflexivity.
Qed.

Lemma filter_notna_map (f : num -> num) (col : list num) :
  (forall x, In x col -> notna (f x) = notna x) ->
  filter notna (map f col) = map f (filter notna col).
Proof.
  induction col as [|x col IH]; simpl; intro H; [reflexivity|].
  rewrite (H x (or_introl eq_refl)).
  rewrite IH by (intros y Hy; apply H; right; exact Hy).
  destruct (notna x); reflexivity.
Qed.

Lemma filter_notna_fin (col : list num) (qs : list Q) (x : num) :
  filter notna col = map Fin qs -> In x col ->
  x = NaN \/ exists q, x = Fin q /\ In q qs.
Proof.
  intros Hf Hin. destruct x as [q| | |]; auto.
  - right. exists q. split; [reflexivity|].
    assert (H : In (Fin q) (filter notna col))
      by (apply filter_In; split; [exact Hin | reflexivity]).
    rewrite Hf in H. apply in_map_iff in H.
    destruct H as (q' & Hq & Hin'). inversion Hq; subst. exact Hin'.
  - exfalso.
    assert (H : In PInf (filter notna col))
      by (apply filter_In; split; [exact Hin | reflexivity]).
    rewrite Hf in H. apply in_map_iff in H.
    destruct H as (q' & Hq & _). discriminate.
  - exfalso.
    assert (H : In NInf (filter notna col))
      by (apply filter_In; split; [exact Hin | reflexivity]).
    rewrite Hf in H. apply in_map_iff in H.
    destruct H as (q' & Hq & _). discriminate.
Qed.

Lemma percent_of_fin (a q : Q) :
  ~ a == 0 ->
  percent_of (Fin a) (Fin q) = Fin (Qred (Qred (q / a) * 100)).
Proof.
  intro Ha. unfold percent_of, num_div.
  destruct (a ?= 0) eqn:E; try reflexivity.
  apply Qeq_alt in E. contradiction.
Qed.

Lemma Qsum_scaled (qs : list Q) (a : Q) :
  ~ a == 0 ->
  Qsum (map (fun q => Qred (Qred (q / a) * 100)) qs)
  == Qsum qs * (100 / a).
Proof.
  intro Ha. induction qs as [|q qs IH].
  - cbn [map]. unfold Qsum at 1 2. cbn [fold_right]. field. exact Ha.
  - cbn [map]. rewrite !Qsum_cons, IH, !Qred_correct. field. exact Ha.
Qed.

(** Over exact rationals, without the rounding of the doubles: dividing
    a column by its mean, when that mean is finite and not zero, gives a
    column of mean 100. *)
Lemma mean_percent_of (col : list num) :
  nonzero_finite (mean col) = true ->
  mean (map (percent_of (mean col)) col) = Fin 100.
Proof.
  destruct (mean col) as [a| | |] eqn:Hm; try discriminate.
  simpl. intro Hnz.
  assert (Ha : ~ a == 0).
  { intro E. apply Qeq_bool_iff in E. rewrite E in Hnz. discriminate. }
  destruct (mean_fin _ _ Hm) as (q & qs & Hf & Ea).
  assert (Hcells : forall x, In x col ->
            notna (percent_of (Fin a) x) = notna x).
  { intros x Hx. destruct (filter_notna_fin _ _ _ Hf Hx) as [->|(y & -> & _)].
    - reflexivity.
    - rewrite (percent_of_fin _ _ Ha). reflexivity. }
  assert (Hf' : filter notna (map (percent_of (Fin a)) col)
                = map Fin (map (fun q => Qred (Qred (q / a) * 100))
                               (q :: qs))).
  { rewrite (filter_notna_map _ _ Hcells), Hf, map_map, map_map.
    apply map_ext. intro y. apply (percent_of_fin _ _ Ha). }
  cbn [map] in Hf'.
  destruct (mean_of_fin _ _ _ Hf') as (m & Hmean & Em).
  rewrite Hmean. f_equal.
  assert (E100 : m == 100).
  { rewrite Em.
    change (Qred (Qred (q / a) * 100)
              :: map (fun q0 => Qred (Qred (q0 / a) * 100)) qs)
      with (map (fun q0 => Qred (Qred (q0 / a) * 100)) (q :: qs)).
    rewrite (Qsum_scaled _ _ Ha), length_map.
    set (n := inject_Z (Z.of_nat (List.length (q :: qs)))) in *.
    assert (Hn : ~ n == 0).
    { pose proof (rows_count_pos q qs) as Hpos. fold n in Hpos.
      intro E. rewrite E in Hpos. apply (Qlt_irrefl 0 Hpos). }
    assert (Hs : ~ Qsum (q :: qs) == 0).
    { intro E. apply Ha. rewrite Ea, E. field. exact Hn. }
    rewrite Ea. field. repeat split; assumption. }
  rewrite (Qred_complete _ _ E100). reflexivity.
Qed.

(** ** Normalisation *)

Lemma normalize_values_eq (self : TradeAnalyzer) (df : DataFrame) :
  merged_df self = Some df ->
  col_in "perceived_value" (columns df) = true ->
  col_in "forecasted_value" (columns df) = true ->
  exists df',
    normalize_values self = Ok (df', set_merged_df df' self)
    /\ map perceived_normalized (rows df')
       = map (percent_of (mean (map perceived_value (rows df))))
             (map perceived_value (rows df))
    /\ map forecasted_normalized (rows df')
       = map (percent_of (mean (map forecasted_value (rows df))))
             (map forecasted_value (rows df)).
Proof.
  intros Hm Hp Hf. unfold normalize_values, require. rewrite Hm, Hp, Hf.
  cbn [bind]. eexists. split; [reflexivity|].
  cbn [rows]. rewrite !map_map. split; reflexivity.
Qed.

(** ** The rows of the join *)

Lemma merge_left_in {R : Type} (name : R -> string) (fill : R -> Row -> Row)
    (left : list Row) (right : list R) (r : Row) :
  In r (merge_left name fill left right) ->
  exists l, In l left
    /\ (r = l
        /\ (forall x, In x right ->
              String.eqb (player_name l) (name x) = false)
        \/ exists x, In x right
             /\ String.eqb (player_name l) (name x) = true
             /\ r = fill x l).
Proof.
  unfold merge_left. intro H. apply in_flat_map in H.
  destruct H as (l & Hl & H). exists l. split; [exact Hl|].
  destruct (filter (fun x => String.eqb (player_name l) (name x)) right)
    as [|m ms] eqn:Hf.
  - left. destruct H as [H|[]]. split; [auto|].
    intros x Hx.
    destruct (String.eqb (player_name l) (name x)) eqn:E; [|reflexivity].
    assert (Hin : In x (filter (fun x => String.eqb (player_name l) (name x))
                               right))
      by (apply filter_In; auto).
    rewrite Hf in Hin. destruct Hin.
  - right. apply in_map_iff in H. destruct H as (x & Hx & Hin).
    rewrite <- Hf in Hin. apply filter_In in Hin.
    exists x. intuition.
Qed.

Lemma joined_rows_in (self : TradeAnalyzer) (r : Row) :
  In r (joined_rows self) ->
  exists r0, In r0 (roster_df self)
    /\ player_name r = Roster.player_name r0
    /\ (perceived_value r = NaN /\ perceived_value_adjusted r = NaN
        \/ exists p, In p (Perceived.rows (perceived_df self))
             /\ Perceived.player_name p = player_name r
             /\ perceived_value r = Perceived.perceived_value p
             /\ perceived_value_adjusted r
                = Perceived.perceived_value_adjusted p)
    /\ (forecasted_value r = NaN
        \/ exists f, In f (Forecasted.rows (forecasted_df self))
             /\ Forecasted.player_name f = player_name r
             /\ forecasted_value r
                = forecast_of (Forecasted.columns (forecasted_df self)) f).
Proof.
  unfold joined_rows. intro H.
  apply merge_left_in in H. destruct H as (r1 & H1 & Hr).
  apply merge_left_in in H1. destruct H1 as (l & Hl & Hr1).
  apply in_map_iff in Hl. destruct Hl as (r0 & <- & Hr0).
  exists r0. split; [exact Hr0|].
  assert (H1 : player_name r1 = Roster.player_name r0
               /\ forecasted_value r1 = NaN
               /\ (perceived_value r1 = NaN
                   /\ perceived_value_adjusted r1 = NaN
                   \/ exists p, In p (Perceived.rows (perceived_df self))
                        /\ Perceived.player_name p = player_name r1
                        /\ perceived_value r1 = Perceived.perceived_value p
                        /\ perceived_value_adjusted r1
                           = Perceived.perceived_value_adjusted p)).
  { destruct Hr1 as [(-> & _)|(p & Hp & Hname & ->)].
    - simpl. auto.
    - simpl. split; [reflexivity|]. split; [reflexivity|].
      right. exists p. apply String.eqb_eq in Hname. simpl in Hname. auto. }
  destruct H1 as (Hname1 & Hf1 & Hp1).
  destruct Hr as [(-> & _)|(f & Hf & Hname & ->)].
  - split; [exact Hname1|]. split; [exact Hp1|]. left. exact Hf1.
  - simpl. split; [exact Hname1|]. split; [exact Hp1|].
    right. exists f. apply String.eqb_eq in Hname. auto.
Qed.

Lemma merged_rows_in (self : TradeAnalyzer) (r : Row) :
  In r (rows (merged_table self)) ->
  exists r0 p f,
    In r0 (roster_df self)
    /\ In p (Perceived.rows (perceived_df self))
    /\ In f (Forecasted.rows (forecasted_df self))
    /\ Perceived.player_name p = Roster.player_name r0
    /\ Forecasted.player_name f = Roster.player_name r0
    /\ player_name r = Roster.player_name r0
    /\ notna (Perceived.perceived_value p) = true
    /\ perceived_value r = Perceived.perceived_value_adjusted p
    /\ perceived_value_adjusted r = Perceived.perceived_value_adjusted p
    /\ forecasted_value r
       = forecast_of (Forecasted.columns (forecasted_df self)) f
    /\ notna (forecasted_value r) = true.
Proof.
  unfold merged_table. cbn [rows]. intro H.
  apply in_map_iff in H. destruct H as (j & <- & Hj).
  unfold dropna in Hj. apply filter_In in Hj. destruct Hj as (Hj & Hna).
  apply andb_prop in Hna. destruct Hna as (Hpna & Hfna).
  apply joined_rows_in in Hj.
  destruct Hj as (r0 & Hr0 & Hname & Hp & Hf).
  destruct Hp as [(Hp & _)|(p & Hp & Hpn & Hpv & Hpa)];
    [rewrite Hp in Hpna; discriminate|].
  destruct Hf as [Hf|(f & Hf & Hfn & Hfv)];
    [rewrite Hf in Hfna; discriminate|].
  exists r0, p, f. simpl.
  rewrite <- Hname, <- Hpv. repeat split; auto; congruence.
Qed.

(** ** Completeness of the merged rows *)

(** Every merged row has a forecasted value, and a raw perceived value in
    the perceived table. *)
Lemma merged_rows_forecast_defined (self : TradeAnalyzer) df self' r :
  merge_data_sources self = Ok (df, self') ->
  In r (rows df) ->
  notna (forecasted_value r) = true.
Proof.
  intros H Hin. apply merge_data_sources_inv in H.
  destruct H as (_ & -> & _).
  destruct (merged_rows_in _ _ Hin)
    as (r0 & p & f & _ & _ & _ & _ & _ & _ & _ & _ & _ & _ & Hna).
  exact Hna.
Qed.

(** When the perceived table has an adjusted value wherever it has a raw
    one, every merged row has a perceived value too. *)
Lemma merged_rows_perceived_defined (self : TradeAnalyzer) df self' r :
  (forall p, In p (Perceived.rows (perceived_df self)) ->
     notna (Perceived.perceived_value p) = true ->
     notna (Perceived.perceived_value_adjusted p) = true) ->
  merge_data_sources self = Ok (df, self') ->
  In r (rows df) ->
  notna (perceived_value r) = true.
Proof.
  intros Hadj H Hin. apply merge_data_sources_inv in H.
  destruct H as (_ & -> & _).
  destruct (merged_rows_in _ _ Hin)
    as (r0 & p & f & _ & Hp & _ & _ & _ & _ & Hraw & Hpv & _).
  rewrite Hpv. apply Hadj; assumption.
Qed.

(** C4, at the failing input: Alice has a raw perceived value of 100, no
    adjusted value, and a forecast.  Her row passes the filter on the raw
    value, is then given the (missing) adjusted value, and leaves the merge
    with no perceived value. *)
Lemma merged_row_without_perceived_value :
  exists df self',
    merge_data_sources partial_league = Ok (df, self')
    /\ exists r, In r (rows df)
         /\ player_name r = "Alice"%string
         /\ perceived_value r = NaN
         /\ forecasted_value r = Fin 50.
Proof.
  eexists. eexists. split; [vm_compute; reflexivity|].
  eexists. split; [left; reflexivity|].
  repeat split.
Qed.

(** The row goes on through the later stages: it is classified, with every
    derived number missing. *)
Lemma partial_row_is_classified :
  exists df self',
    run_pipeline default_config partial_league = Ok (df, self')
    /\ exists r, In r (rows df)
         /\ player_name r = "Alice"%string
         /\ perceived_value r = NaN
         /\ perceived_normalized r = NaN
         /\ discount_premium r = NaN
         /\ value_category r = "Fair Value"%string.
Proof.
  eexists. eexists. split; [vm_compute; reflexivity|].
  eexists. split; [left; reflexivity|].
  repeat split.
Qed.

(** ** The adjusted value *)

(** C5.  When the merge succeeds (the perceived table then has a
    [perceived_value_adjusted] column next to [perceived_value]), every
    merged row carries as [perceived_value] the adjusted value of a
    perceived row of the same player, not its raw value, and the next
    stage normalises with it: [perceived_normalized] is the adjusted value
    as a percentage of the mean adjusted value. *)
Theorem adjusted_supersedes (self : TradeAnalyzer) df self' :
  merge_data_sources self = Ok (df, self') ->
  col_in "perceived_value_adjusted" (Perceived.columns (perceived_df self))
  = true
  /\ (forall r, In r (rows df) ->
        perceived_value r = perceived_value_adjusted r
        /\ exists p, In p (Perceived.rows (perceived_df self))
             /\ Perceived.player_name p = player_name r
             /\ perceived_value r = Perceived.perceived_value_adjusted p)
  /\ exists df1 self1,
       normalize_values self' = Ok (df1, self1)
       /\ map perceived_normalized (rows df1)
          = map (percent_of (mean (map perceived_value_adjusted (rows df))))
                (map perceived_value_adjusted (rows df)).
Proof.
  intro H. apply merge_data_sources_inv in H.
  destruct H as (Hok & Hdf & ->).
  split.
  { unfold merge_inputs_ok, perceived_subset in Hok.
    cbn [forallb] in Hok. rewrite !andb_true_iff in Hok. tauto. }
  assert (Hrows : forall r, In r (rows df) ->
                    perceived_value r = perceived_value_adjusted r).
  { intros r Hin. subst df. cbn [rows merged_table] in Hin.
    apply in_map_iff in Hin. destruct Hin as (j & <- & _). reflexivity. }
  split.
  - intros r Hin. split; [apply Hrows; exact Hin|].
    subst df.
    destruct (merged_rows_in _ _ Hin)
      as (r0 & p & f & _ & Hp & _ & Hpn & _ & Hn & _ & Hpv & _).
    exists p. split; [exact Hp|]. split; [congruence | exact Hpv].
  - destruct (normalize_values_eq (set_merged_df df self) df)
      as (df1 & Hnorm & Hpn & _);
      try (subst df; reflexivity).
    exists df1, (set_merged_df df1 (set_merged_df df self)).
    split; [exact Hnorm|].
    rewrite Hpn.
    rewrite (map_ext_in perceived_value perceived_value_adjusted _ Hrows).
    reflexivity.
Qed.

Lemma adjusted_supersedes_witness :
  col_in "perceived_value_adjusted" (Perceived.columns scarcity_perceived)
  = true
  /\ (forall r, In r (rows (merged_table scarcity_league)) ->
        perceived_value r = perceived_value_adjusted r
        /\ exists p, In p (Perceived.rows scarcity_perceived)
             /\ Perceived.player_name p = player_name r
             /\ perceived_value r = Perceived.perceived_value_adjusted p)
  /\ exists df1 self1,
       normalize_values
         (set_merged_df (merged_table scarcity_league) scarcity_league)
       = Ok (df1, self1)
       /\ map perceived_normalized (rows df1)
          = map (percent_of
                   (mean (map perceived_value_adjusted
                              (rows (merged_table scarcity_league)))))
                (map perceived_value_adjusted
                     (rows (merged_table scarcity_league))).
Proof.
  apply (adjusted_supersedes scarcity_league (merged_table scarcity_league)
           (set_merged_df (merged_table scarcity_league) scarcity_league)).
  vm_compute. reflexivity.
Defined.

(** In that league Alice's raw value is 100 and her merged value 120. *)
Example scarcity_alice :
  map perceived_value (rows (merged_table scarcity_league))
  = [Fin 120; Fin 50].
Proof. vm_compute. reflexivity. Qed.

(** ** No complete data *)

Lemma no_coverage_no_rows (self : TradeAnalyzer) :
  forallb (fun r => negb (has_coverage self r)) (roster_df self) = true ->
  rows (merged_table self) = [].
Proof.
  intro Hnone.
  destruct (rows (merged_table self)) as [|r rs] eqn:Hrows; [reflexivity|].
  exfalso.
  assert (Hin : In r (rows (merged_table self)))
    by (rewrite Hrows; left; reflexivity).
  destruct (merged_rows_in _ _ Hin)
    as (r0 & p & f & Hr0 & Hp & Hf & Hpn & Hfn & _ & Hraw & _ & _ & Hfv
        & Hfna).
  rewrite forallb_forall in Hnone. specialize (Hnone r0 Hr0).
  apply negb_true_iff in Hnone.
  assert (Hcov : has_coverage self r0 = true).
  { unfold has_coverage. apply andb_true_intro. split.
    - apply existsb_exists. exists p. split; [exact Hp|].
      rewrite Hraw, andb_true_r. apply String.eqb_eq. auto.
    - apply existsb_exists. exists f. split; [exact Hf|].
      rewrite <- Hfv, Hfna, andb_true_r. apply String.eqb_eq. auto. }
  congruence.
Qed.

(** C8.  When both value tables are there, with the columns the merge
    selects, and no roster player has complete coverage,
    [merge_data_sources] returns an empty table in the ordinary way, and
    [main] tests the table it receives and ends the run with exit status 1
    and its message for this case, before normalisation. *)
Theorem no_complete_data_exits (cfg : Config) (roster : list Roster.row)
    (perceived : Perceived.table) (forecasted : Forecasted.table) :
  let analyzer := init roster perceived forecasted in
  perceived_empty perceived = false ->
  forecasted_empty forecasted = false ->
  merge_inputs_ok analyzer = true ->
  forallb (fun r => negb (has_coverage analyzer r)) roster = true ->
  merge_data_sources analyzer
  = Ok (mkDataFrame merged_columns [],
        set_merged_df (mkDataFrame merged_columns []) analyzer)
  /\ main_analysis cfg roster perceived forecasted
     = SysExit 1 "No players with complete data".
Proof.
  intros analyzer Hp Hf Hok Hnone.
  assert (Hmerge : merge_data_sources analyzer
                   = Ok (mkDataFrame merged_columns [],
                         set_merged_df (mkDataFrame merged_columns [])
                                       analyzer)).
  { rewrite (merge_data_sources_eq _ Hok).
    assert (Ht : merged_table analyzer = mkDataFrame merged_columns []).
    { pose proof (no_coverage_no_rows analyzer Hnone) as Hrows.
      unfold merged_table in *. cbn [rows] in Hrows. rewrite Hrows.
      reflexivity. }
    rewrite Ht. reflexivity. }
  split; [exact Hmerge|].
  unfold main_analysis. rewrite Hp, Hf. fold analyzer. rewrite Hmerge.
  reflexivity.
Qed.

Lemma no_complete_data_exits_witness :
  merge_data_sources carol_league
  = Ok (mkDataFrame merged_columns [],
        set_merged_df (mkDataFrame merged_columns []) carol_league)
  /\ main_analysis default_config carol_roster league_perceived
       league_forecasted
     = SysExit 1 "No players with complete data".
Proof.
  apply (no_complete_data_exits default_config carol_roster league_perceived
           league_forecasted); reflexivity.
Defined.

(** C8 as stated fails: for Carol's league [merge_data_sources] raises
    nothing and returns an empty table as it returns any other, and the
    next two stages accept that table and return an empty table too (the
    path of a caller that does not test the result). *)
Lemma no_complete_data_counterexample :
  exists df self1 df1 self2 df2 self3,
    merge_data_sources carol_league = Ok (df, self1)
    /\ rows df = []
    /\ merged_df self1 = Some df
    /\ normalize_values self1 = Ok (df1, self2)
    /\ calculate_discount_premium default_config self2 = Ok (df2, self3)
    /\ rows df2 = [].
Proof.
  do 6 eexists.
  split; [vm_compute; reflexivity|].
  split; [reflexivity|]. split; [reflexivity|].
  split; [vm_compute; reflexivity|].
  split; [vm_compute; reflexivity|].
  reflexivity.
Qed.

(** ** The discount when the forecast is zero *)





(** The benched league, classified. *)
Example benched_classified :
  map discount_premium (rows (classified_table default_config benched_league))
  = [NInf; Fin (200 # 3)]
  /\ map value_category
         (rows (classified_table default_config benched_league))
     = ["Overvalued"; "Undervalued"]%string.
Proof. split; vm_compute; reflexivity. Qed.


(** ** The perceived-value band *)

(** Over the exact rationals the band test is the bound
    [|g - y| <= tolerance * y]; with rounded products it is not (see the
    league whose perceived values are a quarter apart). *)
Lemma band_bound (tolerance y g : num) :
  is_finite tolerance = true ->
  not_inf y = true ->
  num_ge g (num_mul y (num_sub (Fin 1) tolerance))
  && num_le g (num_mul y (num_add (Fin 1) tolerance)) = true ->
  num_le (num_abs (num_sub g y)) (num_mul tolerance y) = true.
Proof.
  intros Ht Hy H. apply andb_prop in H. destruct H as (Hlo & Hhi).
  unfold num_ge in Hlo.
  destruct tolerance as [t| | |]; try discriminate.
  destruct y as [a| | |]; try discriminate.
  destruct g as [b| | |]; try discriminate.
  cbn [num_sub num_add num_mul num_abs num_le] in *.
  q_props.
  rewrite !Qred_correct in *.
  apply Qabs_Qle_condition. split; lra.
Qed.

(** The one suggestion of that league: give Alice, get Dave. *)
Example trade_league_suggestion :
  exists s,
    suggest_trade_pairs tuned_config
      (classified tuned_config trade_league) "TeamX" 10 = Ok [s]
    /\ give_player s = "Alice"%string /\ get_player s = "Dave"%string
    /\ give_perceived s = Fin (4000 # 41) /\ get_perceived s = Fin (4200 # 41)
    /\ value_gain s = Fin (400 # 7).
Proof.
  eexists. split; [vm_compute; reflexivity|]. repeat split.
Qed.


(** Bob is the one target of TeamX in the worked league. *)
Example league_targets :
  exists targets,
    find_trade_targets default_config (classified default_config league)
      "TeamX" None = Ok targets
    /\ map player_name (rows targets) = ["Bob"%string].
Proof.
  eexists. split; [vm_compute; reflexivity|]. reflexivity.
Qed.


(** With Alice projected at zero and a tolerance of 100%, the suggestion
    to give her for Bob has a gain of 200 and a percentage of 0. *)
Example benched_suggestion :
  exists s,
    suggest_trade_pairs (with_tolerance (Fin 1) default_config)
      (classified (with_tolerance (Fin 1) default_config) benched_league)
      "TeamX" 10 = Ok [s]
    /\ give_player s = "Alice"%string
    /\ give_forecasted s = Fin 0
    /\ value_gain s = Fin 200
    /\ value_gain_pct s = Fin 0.
Proof.
  eexists. split; [vm_compute; reflexivity|]. repeat split.
Qed.

(** With the module as it is, the same call raises. *)
Example shipped_config_raises :
  suggest_trade_pairs default_config
    (classified default_config trade_league) "TeamX" 10
  = Err no_tolerance.
Proof. vm_compute. reflexivity. Qed.

(** * Further properties of the analyzer *)

(** ** When the merge raises *)

(** X1.  [merge_data_sources] returns exactly when the perceived table has
    the four columns it selects and the forecasted table has [player_name]
    and one of [rest_of_season_projection] and [forecasted_value]; it then
    returns the closed-form table and stores it.  In every other case it
    raises [KeyError], and nothing else. *)
Theorem merge_data_sources_outcome (self : TradeAnalyzer) :
  match merge_data_sources self with
  | Ok (df, self') =>
      merge_inputs_ok self = true
      /\ df = merged_table self
      /\ self' = set_merged_df df self
  | Err e =>
      merge_inputs_ok self = false /\ exists key, e = KeyError key
  end.
Proof.
  destruct (merge_inputs_ok self) eqn:Hok.
  - rewrite (merge_data_sources_eq _ Hok). auto.
  - revert Hok.
    unfold merge_inputs_ok, merge_data_sources, perceived_subset.
    cbn [forallb require_all]. unfold require.
    repeat match goal with
           | |- context [col_in ?c ?cols] =>
               let E := fresh "E" in
               destruct (col_in c cols) eqn:E; cbn [bind andb orb];
               try discriminate; try (intros _; split; [reflexivity|eauto])
           end.
Qed.

(** ** The stages out of order *)

(** X2.  The stages depend on one another through the columns they add.
    Right after a merge, [get_team_data] works, but
    [calculate_discount_premium] raises [KeyError] for
    [forecasted_normalized], and [analyze_team], [find_trade_targets],
    [suggest_trade_pairs] and [get_summary_stats] raise [KeyError] for the
    classification columns.  After [normalize_values] the classification
    is possible, and the trade functions still raise until it is done. *)
Theorem stages_out_of_order cfg (self : TradeAnalyzer) df self1
    team position_filter max_suggestions :
  merge_data_sources self = Ok (df, self1) ->
  get_team_data self1 team
  = Ok (mkDataFrame (columns df) (filter (on_team team) (rows df)))
  /\ calculate_discount_premium cfg self1
     = Err (KeyError "forecasted_normalized")
  /\ analyze_team cfg self1 team = Err (KeyError "discount_premium")
  /\ find_trade_targets cfg self1 team position_filter
     = Err (KeyError "discount_premium")
  /\ suggest_trade_pairs cfg self1 team max_suggestions
     = Err (KeyError "discount_premium")
  /\ get_summary_stats self1 = Err (KeyError "value_category")
  /\ exists df2 self2,
       normalize_values self1 = Ok (df2, self2)
       /\ find_trade_targets cfg self2 team position_filter
          = Err (KeyError "discount_premium")
       /\ analyze_team cfg self2 team = Err (KeyError "discount_premium")
       /\ exists df3 self3,
            calculate_discount_premium cfg self2 = Ok (df3, self3).
Proof.
  intro H. apply merge_data_sources_inv in H. destruct H as (_ & -> & ->).
  repeat split.
  do 2 eexists. split; [reflexivity|]. repeat split.
  do 2 eexists. reflexivity.
Qed.

Lemma stages_out_of_order_witness :
  calculate_discount_premium default_config league_merged
  = Err (KeyError "forecasted_normalized")
  /\ find_trade_targets default_config league_merged "TeamX" None
     = Err (KeyError "discount_premium").
Proof.
  destruct (stages_out_of_order default_config league
              (merged_table league) league_merged "TeamX" None 10)
    as (_ & Hc & _ & Hf & _).
  - vm_compute. reflexivity.
  - split; assumption.
Defined.

(** A method called on an analyzer that has merged nothing yet fails on
    the missing table. *)
Lemma unmerged_analyzer cfg roster perceived forecasted team :
  let self := init roster perceived forecasted in
  normalize_values self
  = Err (AttributeError "'NoneType' object has no attribute 'copy'")
  /\ calculate_discount_premium cfg self
     = Err (AttributeError "'NoneType' object has no attribute 'copy'")
  /\ analyze_team cfg self team
     = Err (TypeError "'NoneType' object is not subscriptable")
  /\ get_summary_stats self
     = Err (TypeError "object of type 'NoneType' has no len()").
Proof. repeat split. Qed.

(** ** Running a stage twice *)

Lemma add_column_idem (c : string) (cols : list string) :
  add_column c (add_column c cols) = add_column c cols.
Proof.
  unfold add_column. destruct (col_in c cols) eqn:E.
  - rewrite E. reflexivity.
  - assert (H : col_in c (cols ++ [c]) = true).
    { unfold col_in. rewrite existsb_app. simpl.
      rewrite String.eqb_refl. apply orb_true_r. }
    rewrite H. reflexivity.
Qed.

Lemma col_in_add_column (c c' : string) (cols : list string) :
  col_in c cols = true -> col_in c (add_column c' cols) = true.
Proof.
  intro H. unfold add_column. destruct (col_in c' cols); [exact H|].
  unfold col_in in *. rewrite existsb_app, H. reflexivity.
Qed.

Lemma col_in_add_column_same (c : string) (cols : list string) :
  col_in c (add_column c cols) = true.
Proof.
  unfold add_column. destruct (col_in c cols) eqn:E; [exact E|].
  unfold col_in. rewrite existsb_app. simpl.
  rewrite String.eqb_refl. apply orb_true_r.
Qed.

Lemma add_column_present (c : string) (cols : list string) :
  col_in c cols = true -> add_column c cols = cols.
Proof. intro H. unfold add_column. rewrite H. reflexivity. Qed.

Lemma stages_idempotent_ok cfg (self : TradeAnalyzer) :
  (forall df self1,
     normalize_values self = Ok (df, self1) ->
     normalize_values self1 = Ok (df, self1))
  /\ (forall df self1,
        calculate_discount_premium cfg self = Ok (df, self1) ->
        calculate_discount_premium cfg self1 = Ok (df, self1)).
Proof.
  split; intros df self1 H.
  - unfold normalize_values in H.
    destruct (merged_df self) as [df0|] eqn:Hm; [|discriminate].
    unfold require in H.
    destruct (col_in "perceived_value" (columns df0)) eqn:Hp;
      [|discriminate].
    destruct (col_in "forecasted_value" (columns df0)) eqn:Hf;
      [|discriminate].
    cbn [bind] in H. inversion H; subst df self1; clear H.
    unfold normalize_values, require. cbn [merged_df set_merged_df columns].
    rewrite (col_in_add_column _ _ _ (col_in_add_column _ _ _ Hp)).
    rewrite (col_in_add_column _ _ _ (col_in_add_column _ _ _ Hf)).
    cbn [bind rows].
    rewrite (add_column_present "perceived_normalized")
      by (apply col_in_add_column, col_in_add_column_same).
    rewrite (add_column_present "forecasted_normalized")
      by apply col_in_add_column_same.
    rewrite !map_map. reflexivity.
  - unfold calculate_discount_premium in H.
    destruct (merged_df self) as [df0|] eqn:Hm; [|discriminate].
    unfold require in H.
    destruct (col_in "forecasted_normalized" (columns df0)) eqn:Hf;
      [|discriminate].
    destruct (col_in "perceived_normalized" (columns df0)) eqn:Hp;
      [|discriminate].
    cbn [bind] in H. inversion H; subst df self1; clear H.
    unfold calculate_discount_premium, require.
    cbn [merged_df set_merged_df columns].
    rewrite (col_in_add_column _ _ _
               (col_in_add_column _ _ _ (col_in_add_column _ _ _ Hf))).
    rewrite (col_in_add_column _ _ _
               (col_in_add_column _ _ _ (col_in_add_column _ _ _ Hp))).
    cbn [bind rows].
    rewrite (add_column_present "discount_premium")
      by (do 2 apply col_in_add_column; apply col_in_add_column_same).
    rewrite (add_column_present "value_category")
      by (apply col_in_add_column, col_in_add_column_same).
    rewrite (add_column_present "interpretation")
      by apply col_in_add_column_same.
    rewrite !map_map. reflexivity.
Qed.

(** X3.  [normalize_values] and [calculate_discount_premium] read only
    columns they do not write: calling either twice in a row gives what
    calling it once gives, the table returned and the analyzer left behind
    (or the error). *)
Theorem stages_idempotent cfg (self : TradeAnalyzer) :
  twice normalize_values self = normalize_values self
  /\ twice (calculate_discount_premium cfg) self
     = calculate_discount_premium cfg self.
Proof.
  destruct (stages_idempotent_ok cfg self) as (Hn & Hc).
  unfold twice. split.
  - destruct (normalize_values self) as [[df s]|e] eqn:H; [|reflexivity].
    cbn [bind]. apply Hn. reflexivity.
  - destruct (calculate_discount_premium cfg self) as [[df s]|e] eqn:H;
      [|reflexivity].
    cbn [bind]. apply Hc. reflexivity.
Qed.

(** ** The team views *)


Lemma categorize_fair (cfg : Config) (x : num) :
  categorize cfg x = "Fair Value"%string
  <-> num_gt x (MIN_DISCOUNT_THRESHOLD cfg) = false
      /\ num_lt x (MIN_PREMIUM_THRESHOLD cfg) = false.
Proof.
  unfold categorize.
  destruct (num_gt x (MIN_DISCOUNT_THRESHOLD cfg));
    destruct (num_lt x (MIN_PREMIUM_THRESHOLD cfg));
    split; intro H; try discriminate; try reflexivity; auto;
    destruct H; discriminate.
Qed.


Lemma classified_rows_category cfg (self0 : TradeAnalyzer) (r : Row) :
  In r (rows (classified_table cfg self0)) ->
  value_category r = categorize cfg (discount_premium r).
Proof.
  unfold classified_table. cbn [rows]. intro H.
  apply in_map_iff in H. destruct H as (r0 & <- & _). reflexivity.
Qed.




Lemma filter_three_way {A : Type} (p1 p2 p3 : A -> bool) (l : list A) :
  (forall x, In x l ->
     (p1 x = true /\ p2 x = false /\ p3 x = false)
     \/ (p1 x = false /\ p2 x = true /\ p3 x = false)
     \/ (p1 x = false /\ p2 x = false /\ p3 x = true)) ->
  List.length l
  = (List.length (filter p1 l) + List.length (filter p2 l)
     + List.length (filter p3 l))%nat.
Proof.
  induction l as [|x l IH]; intro H; [reflexivity|].
  cbn [filter].
  specialize (IH (fun y Hy => H y (or_intror Hy))).
  destruct (H x (or_introl eq_refl))
    as [(-> & -> & ->)|[(-> & -> & ->)|(-> & -> & ->)]];
    cbn [List.length]; lia.
Qed.

Lemma category_three_way cfg (x : num) :
  let c := categorize cfg x in
  ((c =? "Undervalued")%string = true /\ (c =? "Overvalued")%string = false
   /\ (c =? "Fair Value")%string = false)
  \/ ((c =? "Undervalued")%string = false
      /\ (c =? "Overvalued")%string = true
      /\ (c =? "Fair Value")%string = false)
  \/ ((c =? "Undervalued")%string = false
      /\ (c =? "Overvalued")%string = false
      /\ (c =? "Fair Value")%string = true).
Proof.
  intro c. subst c.
  destruct (categorize_cases cfg x) as [->|[->| ->]]; vm_compute; auto.
Qed.




(** ** The summary *)

Lemma num_le_refl (x : num) : notna x = true -> num_le x x = true.
Proof.
  destruct x; simpl; intro H; try discriminate; try reflexivity.
  q_props. lra.
Qed.

Lemma num_le_trans (x y z : num) :
  num_le x y = true -> num_le y z = true -> num_le x z = true.
Proof.
  destruct x, y, z; simpl; intros; try discriminate; try reflexivity.
  q_props. lra.
Qed.

Lemma num_max_spec (x y : num) :
  notna x = true -> notna y = true ->
  notna (num_max x y) = true
  /\ num_le x (num_max x y) = true /\ num_le y (num_max x y) = true.
Proof.
  unfold num_max.
  destruct x, y; simpl; intros; try discriminate; auto.
  - destruct (Qltb q q0) eqn:E; simpl; repeat split; q_props; lra.
  - repeat split. q_props. lra.
  - repeat split. q_props. lra.
Qed.

Lemma num_min_spec (x y : num) :
  notna x = true -> notna y = true ->
  notna (num_min x y) = true
  /\ num_le (num_min x y) x = true /\ num_le (num_min x y) y = true.
Proof.
  unfold num_min.
  destruct x, y; simpl; intros; try discriminate; auto.
  - destruct (Qltb q0 q) eqn:E; simpl; repeat split; q_props; lra.
  - repeat split. q_props. lra.
  - repeat split. q_props. lra.
Qed.

Lemma fold_max_spec (vs : list num) :
  forall v, notna v = true ->
  Forall (fun x => notna x = true) vs ->
  notna (fold_left num_max vs v) = true
  /\ num_le v (fold_left num_max vs v) = true
  /\ Forall (fun x => num_le x (fold_left num_max vs v) = true) vs.
Proof.
  induction vs as [|x vs IH]; intros v Hv Hvs; cbn [fold_left].
  - split; [exact Hv|]. split; [apply num_le_refl; exact Hv | constructor].
  - inversion Hvs as [|? ? Hx Hvs']; subst.
    destruct (num_max_spec v x Hv Hx) as (Hm & Hvm & Hxm).
    destruct (IH _ Hm Hvs') as (Hn & Hle & Hall).
    split; [exact Hn|].
    split; [exact (num_le_trans _ _ _ Hvm Hle)|].
    constructor; [exact (num_le_trans _ _ _ Hxm Hle) | exact Hall].
Qed.

Lemma fold_min_spec (vs : list num) :
  forall v, notna v = true ->
  Forall (fun x => notna x = true) vs ->
  notna (fold_left num_min vs v) = true
  /\ num_le (fold_left num_min vs v) v = true
  /\ Forall (fun x => num_le (fold_left num_min vs v) x = true) vs.
Proof.
  induction vs as [|x vs IH]; intros v Hv Hvs; cbn [fold_left].
  - split; [exact Hv|]. split; [apply num_le_refl; exact Hv | constructor].
  - inversion Hvs as [|? ? Hx Hvs']; subst.
    destruct (num_min_spec v x Hv Hx) as (Hm & Hvm & Hxm).
    destruct (IH _ Hm Hvs') as (Hn & Hle & Hall).
    split; [exact Hn|].
    split; [exact (num_le_trans _ _ _ Hle Hvm)|].
    constructor; [exact (num_le_trans _ _ _ Hle Hxm) | exact Hall].
Qed.

Lemma filter_notna_all (col : list num) :
  Forall (fun x => notna x = true) (filter notna col).
Proof.
  apply Forall_forall. intros x Hx. apply filter_In in Hx. apply Hx.
Qed.

Lemma col_max_bound (col : list num) (x : num) :
  In x col -> notna x = true -> num_le x (col_max col) = true.
Proof.
  intros Hin Hx. unfold col_max.
  assert (Hf : In x (filter notna col)) by (apply filter_In; auto).
  pose proof (filter_notna_all col) as Hall.
  destruct (filter notna col) as [|v vs]; [destruct Hf|].
  inversion Hall as [|? ? Hv Hvs]; subst.
  destruct (fold_max_spec vs v Hv Hvs) as (_ & Hle & Hrest).
  destruct Hf as [<-|Hf]; [exact Hle|].
  rewrite Forall_forall in Hrest. apply Hrest. exact Hf.
Qed.

Lemma col_min_bound (col : list num) (x : num) :
  In x col -> notna x = true -> num_le (col_min col) x = true.
Proof.
  intros Hin Hx. unfold col_min.
  assert (Hf : In x (filter notna col)) by (apply filter_In; auto).
  pose proof (filter_notna_all col) as Hall.
  destruct (filter notna col) as [|v vs]; [destruct Hf|].
  inversion Hall as [|? ? Hv Hvs]; subst.
  destruct (fold_min_spec vs v Hv Hvs) as (_ & Hle & Hrest).
  destruct Hf as [<-|Hf]; [exact Hle|].
  rewrite Forall_forall in Hrest. apply Hrest. exact Hf.
Qed.

Lemma category_counts cfg (self0 : TradeAnalyzer) :
  let l := rows (classified_table cfg self0) in
  Z.of_nat (List.length l)
  = (count_category "Undervalued" l + count_category "Overvalued" l
     + count_category "Fair Value" l)%Z.
Proof.
  intro l. unfold count_category.
  rewrite (filter_three_way
             (fun r => String.eqb (value_category r) "Undervalued")
             (fun r => String.eqb (value_category r) "Overvalued")
             (fun r => String.eqb (value_category r) "Fair Value") l).
  - lia.
  - intros r Hin. subst l. rewrite (classified_rows_category _ _ _ Hin).
    apply category_three_way.
Qed.

Lemma summary_on_pipeline cfg (self0 : TradeAnalyzer) df self :
  run_pipeline cfg self0 = Ok (df, self) ->
  exists stats,
    get_summary_stats self = Ok stats
    /\ total_players stats = Z.of_nat (List.length (rows df))
    /\ total_players stats
       = (undervalued_count stats + overvalued_count stats
          + fair_value_count stats)%Z
    /\ avg_discount_premium stats = mean (map discount_premium (rows df))
    /\ forall r, In r (rows df) -> notna (discount_premium r) = true ->
         num_le (max_premium stats) (discount_premium r) = true
         /\ num_le (discount_premium r) (max_discount stats) = true.
Proof.
  intro Hrun. apply run_pipeline_inv in Hrun.
  destruct Hrun as (_ & Hdf & ->).
  eexists. split.
  { unfold get_summary_stats, require. cbn [merged_df set_merged_df].
    subst df. reflexivity. }
  cbn [total_players undervalued_count overvalued_count fair_value_count
       avg_discount_premium max_discount max_premium].
  split; [subst df; reflexivity|].
  split; [apply category_counts|].
  split; [subst df; reflexivity|].
  intros r Hin Hna. subst df. split.
  - apply col_min_bound; [apply in_map; exact Hin | exact Hna].
  - apply col_max_bound; [apply in_map; exact Hin | exact Hna].
Qed.



(** The summary of the worked league. *)
Example league_summary :
  get_summary_stats (classified default_config league)
  = Ok (mkSummaryStats 2 1 1 0 (Fin (-500 # 9)) (Fin (500 # 9))
                       (Fin (-500 # 3))).
Proof. vm_compute. reflexivity. Qed.

(** ** The printed percentages *)

Lemma main_analysis_analysed cfg roster perceived forecasted df analyzer :
  main_analysis cfg roster perceived forecasted = Analysed df analyzer ->
  run_pipeline cfg (init roster perceived forecasted) = Ok (df, analyzer)
  /\ perceived_empty perceived = false
  /\ forecasted_empty forecasted = false
  /\ rows df <> [].
Proof.
  unfold main_analysis.
  destruct (perceived_empty perceived); [discriminate|].
  destruct (forecasted_empty forecasted); [discriminate|].
  destruct (merge_inputs_ok (init roster perceived forecasted)) eqn:Hok.
  - rewrite (merge_data_sources_eq _ Hok).
    rewrite (run_pipeline_eq cfg _ Hok).
    destruct (empty (merged_table (init roster perceived forecasted)))
      eqn:He; [discriminate|].
    intro H.
    change (Analysed
              (classified_table cfg (init roster perceived forecasted))
              (set_merged_df
                 (classified_table cfg (init roster perceived forecasted))
                 (init roster perceived forecasted))
            = Analysed df analyzer) in H.
    inversion H; subst. repeat split.
    unfold classified_table, normalized_table. cbn [rows].
    unfold empty in He. cbn [columns merged_table] in He.
    destruct (rows (merged_table (init roster perceived forecasted)))
      as [|r l] eqn:Hr; [discriminate|].
    cbn [map]. discriminate.
  - destruct (run_pipeline_err cfg _ Hok) as (e & -> & _). discriminate.
Qed.

Lemma percentage_returns (count total : Z) :
  total <> 0%Z ->
  percentage count total
  = Returned (Qred (inject_Z count / inject_Z total * 100)).
Proof.
  intro H. unfold percentage.
  destruct (total =? 0)%Z eqn:E; [|reflexivity].
  apply Z.eqb_eq in E. contradiction.
Qed.

(** X7.  The classified table [main] builds has at least one row, so its
    summary counts at least one player and [print_summary], when [main]
    reaches it, divides by a [total_players] that is not zero: it does not
    raise. *)
Theorem main_summary_prints cfg roster perceived forecasted df analyzer :
  main_analysis cfg roster perceived forecasted = Analysed df analyzer ->
  exists stats,
    get_summary_stats analyzer = Ok stats
    /\ total_players stats = Z.of_nat (List.length (rows df))
    /\ (0 < total_players stats)%Z
    /\ exists printed, print_summary stats = Returned printed.
Proof.
  intro H. apply main_analysis_analysed in H.
  destruct H as (Hrun & _ & _ & Hrows).
  destruct (summary_on_pipeline _ _ _ _ Hrun)
    as (stats & Hstats & Htotal & Hsum & _).
  assert (Hpos : (0 < total_players stats)%Z).
  { rewrite Htotal. destruct (rows df); [contradiction|].
    cbn [List.length]. lia. }
  assert (Hnz : total_players stats <> 0%Z) by lia.
  exists stats.
  split; [exact Hstats|]. split; [exact Htotal|]. split; [exact Hpos|].
  unfold print_summary. rewrite !(percentage_returns _ _ Hnz).
  eexists. reflexivity.
Qed.

Lemma main_summary_prints_witness :
  exists stats,
    get_summary_stats (classified default_config league) = Ok stats
    /\ total_players stats
       = Z.of_nat (List.length
                     (rows (classified_table default_config league)))
    /\ (0 < total_players stats)%Z
    /\ exists printed, print_summary stats = Returned printed.
Proof.
  apply (main_summary_prints default_config league_roster league_perceived
           league_forecasted (classified_table default_config league)).
  vm_compute. reflexivity.
Defined.

(** X8.  When the three stages produce an empty table (a caller that does
    not stop after an empty merge), [get_summary_stats] still returns:
    every count is 0 and the three statistics are [NaN].  [print_summary]
    then raises [ZeroDivisionError] on its first percentage. *)
Theorem empty_summary_raises cfg (self0 : TradeAnalyzer) df self :
  run_pipeline cfg self0 = Ok (df, self) ->
  rows df = [] ->
  get_summary_stats self = Ok (mkSummaryStats 0 0 0 0 NaN NaN NaN)
  /\ print_summary (mkSummaryStats 0 0 0 0 NaN NaN NaN)
     = Raised (ZeroDivisionError "division by zero").
Proof.
  intros Hrun Hrows. apply run_pipeline_inv in Hrun.
  destruct Hrun as (_ & Hdf & ->).
  split; [|reflexivity].
  unfold get_summary_stats, require. cbn [merged_df set_merged_df].
  assert (Hc : columns df = classified_columns) by (subst df; reflexivity).
  rewrite Hc, Hrows. reflexivity.
Qed.

Lemma empty_summary_raises_witness :
  get_summary_stats (classified default_config carol_league)
  = Ok (mkSummaryStats 0 0 0 0 NaN NaN NaN)
  /\ print_summary (mkSummaryStats 0 0 0 0 NaN NaN NaN)
     = Raised (ZeroDivisionError "division by zero").
Proof.
  apply (empty_summary_raises default_config carol_league
           (classified_table default_config carol_league)
           (classified default_config carol_league)).
  - vm_compute. reflexivity.
  - vm_compute. reflexivity.
Defined.

(** ** Category and interpretation *)

Lemma category_interpretation (x : num) :
  let c := categorize default_config x in
  let i := _interpret_discount x in
  (c = "Undervalued"%string <-> reads_undervalued i = true)
  /\ (c = "Overvalued"%string -> reads_overvalued i = true)
  /\ (i = "Fair value"%string -> c = "Fair Value"%string)
  /\ (c = "Fair Value"%string ->
      (i = "Fair value"%string <-> boundary_or_missing x = false))
  /\ (boundary_or_missing x = true ->
      c = "Fair Value"%string /\ reads_overvalued i = true).
Proof.
  unfold categorize, _interpret_discount, boundary_or_missing, num_gt.
  cbn [default_config MIN_DISCOUNT_THRESHOLD MIN_PREMIUM_THRESHOLD].
  destruct x as [q| | |]; cbn [num_lt].
  - destruct (Qltb 30 q) eqn:H30; destruct (Qltb 10 q) eqn:H10;
      destruct (Qltb (-10) q) eqn:Hm10; destruct (Qltb (-30) q) eqn:Hm30;
      destruct (Qltb q (-10)) eqn:Hlt;
      (match goal with
       | |- context [Qeq_bool ?a ?b] =>
           destruct (Qeq_bool a b) eqn:Heq;
           [apply Qeq_bool_iff in Heq | apply Qeq_bool_neq in Heq]
       end);
      q_props; try (exfalso; lra);
      cbv; intuition (try discriminate; try reflexivity).
  - cbv. intuition (try discriminate; try reflexivity).
  - cbv. intuition (try discriminate; try reflexivity).
  - cbv. intuition (try discriminate; try reflexivity).
Qed.

(** X9.  With the configured thresholds, the interpretation written next
    to a category agrees with it, save on the boundary: a row is
    Undervalued exactly when its interpretation is one of the two
    undervalued ones, an Overvalued row has one of the two overvalued
    ones, and a Fair Value row reads "Fair value" unless its discount is
    exactly -10 or missing, in which cases it reads as overvalued. *)
Theorem interpretation_matches_category (self : TradeAnalyzer) df self' r :
  calculate_discount_premium default_config self = Ok (df, self') ->
  In r (rows df) ->
  (value_category r = "Undervalued"%string
   <-> reads_undervalued (interpretation r) = true)
  /\ (value_category r = "Overvalued"%string ->
      reads_overvalued (interpretation r) = true)
  /\ (interpretation r = "Fair value"%string ->
      value_category r = "Fair Value"%string)
  /\ (value_category r = "Fair Value"%string ->
      (interpretation r = "Fair value"%string
       <-> boundary_or_missing (discount_premium r) = false))
  /\ (boundary_or_missing (discount_premium r) = true ->
      value_category r = "Fair Value"%string
      /\ reads_overvalued (interpretation r) = true).
Proof.
  intros H Hin.
  destruct (classified_row_in _ _ _ _ _ H Hin) as (df0 & r0 & _ & _ & ->).
  cbn [classify_row with_classification value_category interpretation
       discount_premium].
  apply category_interpretation.
Qed.

Lemma interpretation_matches_category_witness :
  (value_category boundary_alice = "Undervalued"%string
   <-> reads_undervalued (interpretation boundary_alice) = true)
  /\ (value_category boundary_alice = "Overvalued"%string ->
      reads_overvalued (interpretation boundary_alice) = true)
  /\ (interpretation boundary_alice = "Fair value"%string ->
      value_category boundary_alice = "Fair Value"%string)
  /\ (value_category boundary_alice = "Fair Value"%string ->
      (interpretation boundary_alice = "Fair value"%string
       <-> boundary_or_missing (discount_premium boundary_alice) = false))
  /\ (boundary_or_missing (discount_premium boundary_alice) = true ->
      value_category boundary_alice = "Fair Value"%string
      /\ reads_overvalued (interpretation boundary_alice) = true).
Proof.
  apply (interpretation_matches_category
           (set_merged_df (normalized_table boundary_league) boundary_league)
           (classified_table default_config boundary_league)
           (classified default_config boundary_league)
           boundary_alice).
  - vm_compute. reflexivity.
  - vm_compute. left. reflexivity.
Defined.

(** ** How many suggestions, and in what order *)





Lemma flat_map_length_le {A B : Type} (f : A -> list B) (k : nat)
    (l : list A) :
  (forall x, (List.length (f x) <= k)%nat) ->
  (List.length (flat_map f l) <= k * List.length l)%nat.
Proof.
  intro Hf. induction l as [|x l IH]; cbn [flat_map List.length]; [lia|].
  rewrite length_app. specialize (Hf x). lia.
Qed.





(** ** Who is given and who is got *)



(** ** The module as it is *)



(** ** One row for each player *)

Lemma filter_unique {R : Type} (name : R -> string) (s : string)
    (l : list R) :
  NoDup (map name l) ->
  filter (fun x => String.eqb s (name x)) l
  = match find (fun x => String.eqb s (name x)) l with
    | Some x => [x]
    | None => []
    end.
Proof.
  induction l as [|x l IH]; intro Hnd; [reflexivity|].
  cbn [map] in Hnd. inversion Hnd as [|? ? Hnotin Hnd']; subst.
  cbn [filter find].
  destruct (String.eqb s (name x)) eqn:E.
  - apply String.eqb_eq in E. f_equal.
    assert (Hnone : forall y, In y l -> String.eqb s (name y) = false).
    { intros y Hy. apply String.eqb_neq. intro Hs. apply Hnotin.
      rewrite <- E, Hs. apply in_map. exact Hy. }
    clear -Hnone. induction l as [|y l IH]; [reflexivity|].
    cbn [filter]. rewrite (Hnone y (or_introl eq_refl)).
    apply IH. intros z Hz. apply Hnone. right. exact Hz.
  - apply IH. exact Hnd'.
Qed.

Lemma merge_left_unique {R : Type} (name : R -> string)
    (fill : R -> Row -> Row) (left : list Row) (right : list R) :
  NoDup (map name right) ->
  merge_left name fill left right
  = map (fun l => match find (fun x => String.eqb (player_name l) (name x))
                             right with
                  | Some x => fill x l
                  | None => l
                  end)
        left.
Proof.
  intro Hnd. unfold merge_left.
  induction left as [|l left IH]; [reflexivity|].
  cbn [flat_map map].
  rewrite (filter_unique name (player_name l) right Hnd).
  destruct (find (fun x => String.eqb (player_name l) (name x)) right);
    cbn [map app]; f_equal; exact IH.
Qed.

Lemma filter_map_flat {A B : Type} (keep : B -> bool) (g : A -> B)
    (h : B -> B) (l : list A) :
  map h (filter keep (map g l))
  = flat_map (fun x => if keep (g x) then [h (g x)] else []) l.
Proof.
  induction l as [|x l IH]; [reflexivity|].
  cbn [map filter flat_map]. destruct (keep (g x)); cbn [map app];
    rewrite IH; reflexivity.
Qed.

(** X14.  When no name is twice in the perceived table nor in the
    forecasted table, a merge that succeeds returns one row for each roster
    player who has a perceived row with a raw value and a forecasted row
    with a value, in the order of the roster, and no other row: the
    player's roster cells, the adjusted value (as [perceived_value] too),
    the rank and the forecast. *)
Theorem merge_one_row_each (self : TradeAnalyzer) df self' :
  NoDup (map Perceived.player_name (Perceived.rows (perceived_df self))) ->
  NoDup (map Forecasted.player_name (Forecasted.rows (forecasted_df self))) ->
  merge_data_sources self = Ok (df, self') ->
  rows df = flat_map (merged_row_of self) (roster_df self)
  /\ (List.length (rows df) <= List.length (roster_df self))%nat.
Proof.
  intros Hp Hf Hm. apply merge_data_sources_inv in Hm.
  destruct Hm as (_ & -> & _).
  assert (Hrows : rows (merged_table self)
                  = flat_map (merged_row_of self) (roster_df self)).
  { unfold merged_table, joined_rows. cbn [rows].
    rewrite (merge_left_unique Perceived.player_name _ _ _ Hp).
    rewrite (merge_left_unique Forecasted.player_name _ _ _ Hf).
    rewrite !map_map. unfold dropna. rewrite filter_map_flat.
    apply flat_map_ext. intro r.
    unfold merged_row_of, perceived_of, forecasted_of, supersede,
      with_perceived_value.
    cbn [from_roster player_name].
    match goal with
    | |- context [find ?g (Perceived.rows (perceived_df self))] =>
        destruct (find g (Perceived.rows (perceived_df self))) as [p|]
    end;
      cbn [with_perceived from_roster player_name];
      match goal with
      | |- context [find ?g (Forecasted.rows (forecasted_df self))] =>
          destruct (find g (Forecasted.rows (forecasted_df self))) as [f|]
      end;
      cbn [with_forecasted_value with_perceived from_roster perceived_value
           forecasted_value perceived_value_adjusted overall_rank
           player_name position team_name team_id perceived_normalized
           forecasted_normalized discount_premium value_category
           interpretation notna andb];
      rewrite ?andb_false_r;
      try match goal with
          | |- context [if ?b then _ else _] => destruct b
          end;
      reflexivity. }
  split; [exact Hrows|]. rewrite Hrows.
  assert (H1 : (List.length (flat_map (merged_row_of self) (roster_df self))
                <= 1 * List.length (roster_df self))%nat).
  { apply flat_map_length_le. intro r. unfold merged_row_of.
    destruct (perceived_of self (Roster.player_name r));
      destruct (forecasted_of self (Roster.player_name r));
      cbn [List.length]; try lia.
    match goal with |- context [if ?b then _ else _] => destruct b end;
      cbn [List.length]; lia. }
  lia.
Qed.

Lemma merge_one_row_each_witness :
  rows (merged_table league) = flat_map (merged_row_of league) league_roster
  /\ (List.length (rows (merged_table league))
      <= List.length league_roster)%nat.
Proof.
  apply (merge_one_row_each league (merged_table league)
           (set_merged_df (merged_table league) league)).
  - repeat constructor; simpl; intuition discriminate.
  - repeat constructor; simpl; intuition discriminate.
  - vm_compute. reflexivity.
Defined.

(** A name that is twice in the perceived table gives the player two
    merged rows. *)
Example doubled_name_doubles_row :
  map player_name (rows (merged_table doubled_league))
  = ["Alice"; "Alice"; "Bob"]%string
  /\ map perceived_value (rows (merged_table doubled_league))
     = [Fin 100; Fin 80; Fin 50].
Proof. split; vm_compute; reflexivity. Qed.

(** * The value sources *)

(** ** Tables built by [get_redraft_values] *)

Lemma redraft_rows (data : list FantasyCalc.item) (p : Perceived.row) :
  In p (Perceived.rows (get_redraft_values (Some data))) ->
  exists item, In item data /\ p = redraft_row item.
Proof.
  destruct data as [|i data]; [intros []|].
  cbn [get_redraft_values Perceived.rows]. intro H.
  apply in_map_iff in H. destruct H as (item & <- & Hin). eauto.
Qed.

Lemma redraft_row_adjusted (item : FantasyCalc.item) :
  notna (Perceived.perceived_value_adjusted (redraft_row item)) = true.
Proof. reflexivity. Qed.

(** X15.  With a perceived table built by [get_redraft_values], every row
    a merge returns has a perceived value and a forecasted value: its
    perceived value is the value of a FantasyCalc item of that name (0
    when the item has none) times the multiplier of the item's position
    (1 for a position that is not in the table, or missing). *)
Theorem redraft_merge_complete (roster : list Roster.row)
    (data : list FantasyCalc.item) (forecasted : Forecasted.table) df self'
    r :
  merge_data_sources (init roster (get_redraft_values (Some data)) forecasted)
  = Ok (df, self') ->
  In r (rows df) ->
  notna (perceived_value r) = true
  /\ notna (forecasted_value r) = true
  /\ exists item,
       In item data
       /\ FantasyCalc.name item = player_name r
       /\ perceived_value r
          = num_mul
              (Fin (match FantasyCalc.value item with
                    | Some v => v
                    | None => 0
                    end))
              (Fin (scarcity_multiplier (FantasyCalc.position item))).
Proof.
  intros Hm Hin. apply merge_data_sources_inv in Hm.
  destruct Hm as (_ & -> & _).
  destruct (merged_rows_in _ _ Hin)
    as (r0 & p & f & _ & Hp & _ & Hpn & _ & Hn & _ & Hpv & _ & _ & Hfna).
  cbn [init perceived_df] in Hp.
  destruct (redraft_rows data p Hp) as (item & Hitem & ->).
  rewrite Hpv. split; [reflexivity|]. split; [exact Hfna|].
  exists item. split; [exact Hitem|].
  split; [cbn [redraft_row Perceived.player_name] in Hpn; congruence|].
  reflexivity.
Qed.

Lemma redraft_merge_complete_witness :
  let r := mkRow "Alice" "RB" "TeamX" 1 (Fin 120) (Fin 120) (Fin 1) (Fin 50)
                 NaN NaN NaN "" "" in
  notna (perceived_value r) = true
  /\ notna (forecasted_value r) = true
  /\ exists item,
       In item league_items
       /\ FantasyCalc.name item = player_name r
       /\ perceived_value r
          = num_mul
              (Fin (match FantasyCalc.value item with
                    | Some v => v
                    | None => 0
                    end))
              (Fin (scarcity_multiplier (FantasyCalc.position item))).
Proof.
  intro r.
  apply (redraft_merge_complete league_roster league_items league_forecasted
           (merged_table (init league_roster
                               (get_redraft_values (Some league_items))
                               league_forecasted))
           (set_merged_df
              (merged_table (init league_roster
                                  (get_redraft_values (Some league_items))
                                  league_forecasted))
              (init league_roster (get_redraft_values (Some league_items))
                    league_forecasted))
           r).
  - vm_compute. reflexivity.
  - vm_compute. left. reflexivity.
Defined.

(** ** Values from draft positions *)

(** X16.  The value [get_adp_values] gives a draft position is never
    negative, never rises when the position gets later, is 1000 minus five
    times the position up to position 200 and 0 from there on; a player
    with no [adp] is given 0. *)
Theorem adp_value_range (a b : Q) :
  0 <= adp_value a
  /\ (a <= b -> adp_value b <= adp_value a)
  /\ (a <= 200 -> adp_value a == 1000 - a * 5)
  /\ (200 <= a -> adp_value a == 0)
  /\ (forall name,
        Perceived.perceived_value (adp_row (Adp.mk name None)) = Fin 0).
Proof.
  unfold adp_value.
  destruct (Qltb (1000 - a * 5) 0) eqn:Ea;
    destruct (Qltb (1000 - b * 5) 0) eqn:Eb; q_props;
    repeat split; intros; try reflexivity; try lra.
Qed.

Lemma merge_data_sources_err (self : TradeAnalyzer) :
  merge_inputs_ok self = false ->
  exists key, merge_data_sources self = Err (KeyError key).
Proof.
  unfold merge_inputs_ok, merge_data_sources, perceived_subset.
  cbn [forallb require_all]. unfold require.
  repeat match goal with
         | |- context [col_in ?c ?cols] =>
             let E := fresh "E" in
             destruct (col_in c cols) eqn:E; cbn [bind andb orb];
             try discriminate; try (intros _; eexists; reflexivity)
         end.
Qed.

(** ** The fallback to draft positions *)

(** X17.  When FantasyCalc gives nothing and the ADP source gives at least
    one player, [get_perceived_values] returns the ADP table.  That table
    has no [perceived_value_adjusted] and no [overall_rank] column, so
    [merge_data_sources] raises [KeyError] on it whatever the roster and
    the forecasts, and [main] ends in its handler for unexpected errors
    (when the forecasts are not empty). *)
Theorem adp_fallback_fails (cfg : Config) (roster : list Roster.row)
    (fantasycalc : option (list FantasyCalc.item)) (p : Adp.player)
    (players : list Adp.player) (forecasted : Forecasted.table) :
  perceived_empty (get_redraft_values fantasycalc) = true ->
  let perceived := get_perceived_values fantasycalc (Some (p :: players)) in
  perceived = get_adp_values (Some (p :: players))
  /\ perceived_empty perceived = false
  /\ (exists key,
        merge_data_sources (init roster perceived forecasted)
        = Err (KeyError key))
  /\ (forecasted_empty forecasted = false ->
      exists key,
        main_analysis cfg roster perceived forecasted
        = UnexpectedError (KeyError key)).
Proof.
  intros He perceived.
  assert (Hp : perceived = get_adp_values (Some (p :: players))).
  { unfold perceived, get_perceived_values. rewrite He. reflexivity. }
  assert (Hm : exists key,
             merge_data_sources (init roster perceived forecasted)
             = Err (KeyError key)).
  { apply merge_data_sources_err. rewrite Hp. reflexivity. }
  split; [exact Hp|]. split; [rewrite Hp; reflexivity|].
  split; [exact Hm|].
  intro Hf. destruct Hm as (key & Hm). exists key.
  unfold main_analysis. rewrite Hf, Hm.
  rewrite Hp. reflexivity.
Qed.

Lemma adp_fallback_fails_witness :
  let perceived := get_perceived_values None (Some league_adp) in
  perceived = get_adp_values (Some league_adp)
  /\ perceived_empty perceived = false
  /\ (exists key,
        merge_data_sources (init league_roster perceived league_forecasted)
        = Err (KeyError key))
  /\ (forecasted_empty league_forecasted = false ->
      exists key,
        main_analysis default_config league_roster perceived
                      league_forecasted
        = UnexpectedError (KeyError key)).
Proof.
  exact (adp_fallback_fails default_config league_roster None
           (Adp.mk "Alice" (Some (3 # 2)))
           [Adp.mk "Bob" (Some 250); Adp.mk "Erin" None]
           league_forecasted eq_refl).
Defined.

(** * The ESPN projections *)

Lemma Ok_inj {A : Type} (a b : A) : @Ok A a = Ok b -> a = b.
Proof. intro H. injection H as H. exact H. Qed.

Lemma named_some (p : Espn.player) (n : string) :
  named p = Some n -> Espn.fullName p = Some n /\ n <> EmptyString.
Proof.
  unfold named. destruct (Espn.fullName p) as [m|]; [|discriminate].
  destruct (String.eqb m EmptyString) eqn:E; [discriminate|].
  intro H. injection H as <-. split; [reflexivity|].
  intros ->. discriminate.
Qed.

Lemma projections_in (players : list Espn.player) (week : Z)
    (f : Forecasted.row) :
  In f (flat_map
          (fun p =>
             match named p with
             | None => []
             | Some player_name =>
                 [Forecasted.mk player_name
                    (Fin (remaining_projection week (Espn.stats p))) NaN]
             end)
          players) ->
  exists p,
    In p players
    /\ named p = Some (Forecasted.player_name f)
    /\ Forecasted.rest_of_season_projection f
       = Fin (remaining_projection week (Espn.stats p)).
Proof.
  intro H. apply in_flat_map in H. destruct H as (p & Hp & Hin).
  exists p. split; [exact Hp|].
  destruct (named p) as [n|]; [|destruct Hin].
  destruct Hin as [<-|[]]. split; reflexivity.
Qed.

Lemma espn_rows (data : option (list Espn.player)) (week : Z)
    (t : Forecasted.table) (f : Forecasted.row) :
  get_rest_of_season_projections data week = Ok t ->
  In f (Forecasted.rows t) ->
  exists players p,
    data = Some players
    /\ In p players
    /\ named p = Some (Forecasted.player_name f)
    /\ Forecasted.rest_of_season_projection f
       = Fin (remaining_projection week (Espn.stats p))
    /\ 0 < remaining_projection week (Espn.stats p).
Proof.
  unfold get_rest_of_season_projections.
  destruct data as [players|].
  - match goal with
    | |- context [match ?l with [] => _ | _ => _ end] =>
        destruct l as [|x rest] eqn:El
    end; [discriminate|].
    rewrite <- El. intro H. apply Ok_inj in H. subst t.
    cbn [Forecasted.rows]. intro Hin.
    apply filter_In in Hin. destruct Hin as (Hin & Hpos).
    apply projections_in in Hin.
    destruct Hin as (p & Hp & Hn & Hv).
    exists players, p. repeat split; try assumption.
    rewrite Hv in Hpos. cbn [num_gt num_lt] in Hpos.
    unfold num_gt in Hpos. cbn [num_lt] in Hpos. q_props. exact Hpos.
  - intro H. injection H as <-. intros [].
Qed.

(** X18.  Every row [get_rest_of_season_projections] returns belongs to a
    player of the answer with a non-empty name, and its projection is that
    player's remaining projection, a finite number above 0: players whose
    projection is 0 or negative are left out. *)
Theorem espn_projections_positive (data : option (list Espn.player))
    (week : Z) (t : Forecasted.table) (f : Forecasted.row) :
  get_rest_of_season_projections data week = Ok t ->
  In f (Forecasted.rows t) ->
  Forecasted.player_name f <> EmptyString
  /\ exists players p,
       data = Some players
       /\ In p players
       /\ Espn.fullName p = Some (Forecasted.player_name f)
       /\ Forecasted.rest_of_season_projection f
          = Fin (remaining_projection week (Espn.stats p))
       /\ 0 < remaining_projection week (Espn.stats p).
Proof.
  intros Ht Hin.
  destruct (espn_rows _ _ _ _ Ht Hin) as (players & p & -> & Hp & Hn & Hv & Hq).
  destruct (named_some _ _ Hn) as (Hfull & Hne).
  split; [exact Hne|]. exists players, p. auto.
Qed.

Lemma espn_projections_positive_witness :
  let f := nth 0 (Forecasted.rows league_projections)
               (Forecasted.mk "" NaN NaN) in
  Forecasted.player_name f <> EmptyString
  /\ exists players p,
       Some league_espn = Some players
       /\ In p players
       /\ Espn.fullName p = Some (Forecasted.player_name f)
       /\ Forecasted.rest_of_season_projection f
          = Fin (remaining_projection 6 (Espn.stats p))
       /\ 0 < remaining_projection 6 (Espn.stats p).
Proof.
  intro f.
  apply (espn_projections_positive (Some league_espn) 6 league_projections f).
  - vm_compute. reflexivity.
  - vm_compute. left. reflexivity.
Defined.

Lemma no_named_player (players : list Espn.player) (week : Z) :
  (forall p, In p players -> named p = None) ->
  get_rest_of_season_projections (Some players) week
  = Err (KeyError "rest_of_season_projection").
Proof.
  intro H. unfold get_rest_of_season_projections.
  replace (flat_map _ players) with (@nil Forecasted.row); [reflexivity|].
  induction players as [|p players IH]; [reflexivity|].
  cbn [flat_map]. rewrite (H p (or_introl eq_refl)).
  cbn [app]. apply IH. intros q Hq. apply H. right. exact Hq.
Qed.

(** X19.  When the ESPN answer has no player with a non-empty name (an
    empty [players] list included), [get_rest_of_season_projections]
    raises [KeyError] for [rest_of_season_projection] instead of returning
    an empty table, and [main], once it has perceived values, ends in its
    handler for unexpected errors, not at the exit for missing
    forecasts. *)
Theorem nameless_projections_raise (cfg : Config)
    (roster : list Roster.row)
    (fantasycalc : option (list FantasyCalc.item))
    (adp : option (list Adp.player)) (players : list Espn.player)
    (week : Z) (recent_data : option (list Espn.player)) (recent_week : Z) :
  (forall p, In p players -> named p = None) ->
  get_rest_of_season_projections (Some players) week
  = Err (KeyError "rest_of_season_projection")
  /\ (perceived_empty (get_perceived_values fantasycalc adp) = false ->
      main_steps cfg roster fantasycalc adp (Some players) week
                 recent_data recent_week
      = UnexpectedError (KeyError "rest_of_season_projection")).
Proof.
  intro H. pose proof (no_named_player players week H) as E.
  split; [exact E|]. intro Hp.
  unfold main_steps, main_forecasts. rewrite Hp, E. reflexivity.
Qed.

Lemma nameless_projections_raise_witness :
  get_rest_of_season_projections (Some nameless_espn) 6
  = Err (KeyError "rest_of_season_projection")
  /\ (perceived_empty (get_perceived_values (Some league_items) None)
      = false ->
      main_steps default_config league_roster (Some league_items) None
                 (Some nameless_espn) 6 (Some league_espn) 6
      = UnexpectedError (KeyError "rest_of_season_projection")).
Proof.
  apply (nameless_projections_raise default_config league_roster
           (Some league_items) None nameless_espn 6 (Some league_espn) 6).
  intros p [<-|[<-|[]]]; reflexivity.
Defined.

Lemma remaining_projection_over (stats : list Espn.stat) :
  remaining_projection 18 stats == 0.
Proof.
  unfold remaining_projection.
  change (inject_Z (18 - 18)) with 0.
  destruct (Qltb 0 (last_total 1 0 stats)); cbn [Z.ltb Z.compare]; ring.
Qed.

Lemma filter_none {A : Type} (f : A -> bool) (l : list A) :
  (forall x, In x l -> f x = false) -> filter f l = [].
Proof.
  induction l as [|x l IH]; [reflexivity|]. intro H. cbn [filter].
  rewrite (H x (or_introl eq_refl)). apply IH.
  intros y Hy. apply H. right. exact Hy.
Qed.

Lemma season_over_no_rows (players : list Espn.player) t :
  get_rest_of_season_projections (Some players) 18 = Ok t ->
  Forecasted.rows t = [].
Proof.
  unfold get_rest_of_season_projections.
  match goal with
  | |- context [match ?l with [] => _ | _ => _ end] =>
      destruct l as [|x rest] eqn:El
  end; [discriminate|].
  rewrite <- El. intro H. apply Ok_inj in H. subst t.
  cbn [Forecasted.rows]. apply filter_none.
  intros f Hf. apply projections_in in Hf.
  destruct Hf as (p & _ & _ & ->).
  unfold num_gt. cbn [num_lt].
  pose proof (remaining_projection_over (Espn.stats p)) as E.
  q_props. lra.
Qed.

(** X20.  [main] stops with [Failed to fetch forecasted values] whenever
    the ESPN projections come back empty, since the FantasyPros source it
    then asks always gives an empty table: when [_make_request] returned
    [None] for the projections (the answer carried an HTTP error status),
    and in week 18, when every remaining projection is 0 and the filter
    leaves no row (the answer naming at least one player). *)
Theorem no_projections_exits (cfg : Config) (roster : list Roster.row)
    (fantasycalc : option (list FantasyCalc.item))
    (adp : option (list Adp.player))
    (projection_data : option (list Espn.player)) (week : Z)
    (recent_data : option (list Espn.player)) (recent_week : Z) :
  perceived_empty (get_perceived_values fantasycalc adp) = false ->
  projection_data = None
  \/ (week = 18%Z
      /\ exists players p,
           projection_data = Some players /\ In p players
           /\ named p <> None) ->
  (exists t,
     get_rest_of_season_projections projection_data week = Ok t
     /\ Forecasted.rows t = [])
  /\ main_steps cfg roster fantasycalc adp projection_data week
                recent_data recent_week
     = SysExit 1 "Failed to fetch forecasted values".
Proof.
  intros Hp Hcase.
  assert (Ht : exists t,
             get_rest_of_season_projections projection_data week = Ok t
             /\ Forecasted.rows t = []).
  { destruct Hcase as [->|(-> & players & p & -> & Hin & Hn)].
    - exists no_forecast. split; reflexivity.
    - destruct (get_rest_of_season_projections (Some players) 18)
        as [t|e] eqn:E.
      + exists t. split; [reflexivity|].
        exact (season_over_no_rows _ _ E).
      + exfalso. unfold get_rest_of_season_projections in E.
        match type of E with
        | context [match ?l with [] => _ | _ => _ end] =>
            destruct l as [|x rest] eqn:El
        end; [|discriminate].
        assert (Hx : In p players -> False); [|auto].
        intro Hin'. apply Hn.
        destruct (named p) as [n|] eqn:En; [|reflexivity].
        assert (Hf : In (Forecasted.mk n
                           (Fin (remaining_projection 18 (Espn.stats p)))
                           NaN) []); [|destruct Hf].
        rewrite <- El. apply in_flat_map. exists p.
        split; [exact Hin'|]. rewrite En. left. reflexivity. }
  split; [exact Ht|]. destruct Ht as (t & Et & Hrows).
  unfold main_steps, main_forecasts. rewrite Hp, Et.
  assert (Hemp : forecasted_empty t = true).
  { unfold forecasted_empty. rewrite Hrows.
    destruct (Forecasted.columns t); reflexivity. }
  cbn [bind]. rewrite Hemp. cbn [bind]. 
  unfold main_analysis. rewrite Hp. reflexivity.
Qed.

Lemma no_projections_exits_witness :
  (exists t,
     get_rest_of_season_projections (Some league_espn) 18 = Ok t
     /\ Forecasted.rows t = [])
  /\ main_steps default_config league_roster (Some league_items) None
                (Some league_espn) 18 (Some league_espn) 18
     = SysExit 1 "Failed to fetch forecasted values".
Proof.
  apply (no_projections_exits default_config league_roster
           (Some league_items) None (Some league_espn) 18
           (Some league_espn) 18).
  - reflexivity.
  - right. split; [reflexivity|].
    exists league_espn, (Espn.mkPlayer (Some "Alice"%string)
                           [Espn.mkStat 1 0 0 180; Espn.mkStat 0 0 0 60;
                            Espn.mkStat 0 1 4 12; Espn.mkStat 0 1 5 20]).
    split; [reflexivity|]. split; [left; reflexivity|discriminate].
Defined.

(** * From the ESPN answers to the classification *)

Lemma join_recent_projection (projections : list Forecasted.row)
    (recent : list Recent.row) (m : Combined.row) :
  In m (join_recent projections recent) ->
  In (Combined.projection m) projections.
Proof.
  unfold join_recent. intro H. apply in_flat_map in H.
  destruct H as (p & Hp & Hin).
  destruct (filter _ recent) as [|s ss].
  - destruct Hin as [<-|[]]. exact Hp.
  - apply in_map_iff in Hin. destruct Hin as (s' & <- & _). exact Hp.
Qed.

Lemma espn_table (data : option (list Espn.player)) (week : Z)
    (t : Forecasted.table) :
  get_rest_of_season_projections data week = Ok t ->
  forecasted_empty t = false ->
  Forecasted.columns t = espn_columns.
Proof.
  unfold get_rest_of_season_projections. destruct data as [players|].
  - match goal with
    | |- context [match ?l with [] => _ | _ => _ end] =>
        destruct l as [|x rest] eqn:El
    end; [discriminate|].
    rewrite <- El. intro H. apply Ok_inj in H. subst t. reflexivity.
  - intro H. apply Ok_inj in H. subst t. discriminate.
Qed.

Lemma recent_table (data : option (list Espn.player)) (week : Z) :
  recent_empty (get_player_stats_last_4_weeks data week) = false ->
  Recent.columns (get_player_stats_last_4_weeks data week) = recent_columns.
Proof.
  unfold get_player_stats_last_4_weeks. destruct data as [players|].
  - match goal with
    | |- context [match ?l with [] => _ | _ => _ end] =>
        destruct l as [|x rest]
    end; [discriminate|reflexivity].
  - discriminate.
Qed.

Lemma main_forecasts_rows projection_data projection_week recent_data
    recent_week (forecasted_df : Forecasted.table) :
  main_forecasts projection_data projection_week recent_data recent_week
  = Ok forecasted_df ->
  forecasted_empty forecasted_df = false ->
  col_in "rest_of_season_projection" (Forecasted.columns forecasted_df)
  = true
  /\ exists t,
       get_rest_of_season_projections projection_data projection_week
       = Ok t
       /\ forall f, In f (Forecasted.rows forecasted_df) ->
                    In f (Forecasted.rows t).
Proof.
  unfold main_forecasts.
  destruct (get_rest_of_season_projections projection_data projection_week)
    as [t|e] eqn:Et; [|discriminate].
  cbn [bind].
  destruct (forecasted_empty t) eqn:Hemp.
  - cbn [bind]. intro H. apply Ok_inj in H. subst forecasted_df.
    discriminate.
  - pose proof (espn_table _ _ _ Et Hemp) as Hcols.
    destruct (recent_empty
                (get_player_stats_last_4_weeks recent_data recent_week))
      eqn:Hrec; cbn [negb bind].
    + rewrite Hemp. intro H. apply Ok_inj in H. subst forecasted_df.
      intros _. split; [rewrite Hcols; reflexivity|].
      exists t. auto.
    + pose proof (recent_table _ _ Hrec) as Hrcols.
      unfold combine_recent_performance_with_projections.
      rewrite Hrec, Hcols, Hrcols.
      change (require espn_columns "player_name") with (@Ok unit tt).
      change (require recent_columns "player_name") with (@Ok unit tt).
      change (require (joined_columns espn_columns recent_columns)
                      "recent_avg") with (@Ok unit tt).
      change (require (joined_columns espn_columns recent_columns)
                      "rest_of_season_projection") with (@Ok unit tt).
      cbn [bind].
      match goal with
      | |- context [forecasted_empty ?c] =>
          destruct (forecasted_empty c) eqn:Hc
      end; intro H; apply Ok_inj in H; subst forecasted_df;
        [discriminate|].
      intros _. split; [reflexivity|]. exists t. split; [reflexivity|].
      intros f Hf. cbn [as_forecasted Forecasted.rows Combined.rows] in Hf.
      rewrite !map_map in Hf. cbn [Combined.projection] in Hf.
      apply in_map_iff in Hf. destruct Hf as (m & <- & Hm).
      exact (join_recent_projection _ _ _ Hm).
Qed.

(** X21.  When [main] reaches the analysis with the ESPN answers, the
    forecast of every classified row is the remaining projection of a
    named player of the answer for the projections, and it is above 0: no
    row with a missing, zero or negative forecast is classified. *)
Theorem main_forecast_positive (cfg : Config) (roster : list Roster.row)
    (fantasycalc : option (list FantasyCalc.item))
    (adp : option (list Adp.player))
    (projection_data : option (list Espn.player)) (projection_week : Z)
    (recent_data : option (list Espn.player)) (recent_week : Z)
    (df : DataFrame) (analyzer : TradeAnalyzer) (r : Row) :
  main_steps cfg roster fantasycalc adp projection_data projection_week
             recent_data recent_week
  = Analysed df analyzer ->
  In r (rows df) ->
  num_gt (forecasted_value r) (Fin 0) = true
  /\ exists players p,
       projection_data = Some players
       /\ In p players
       /\ Espn.fullName p = Some (player_name r)
       /\ forecasted_value r
          = Fin (remaining_projection projection_week (Espn.stats p)).
Proof.
  unfold main_steps.
  destruct (perceived_empty (get_perceived_values fantasycalc adp));
    [discriminate|].
  destruct (main_forecasts projection_data projection_week recent_data
                           recent_week) as [forecasted|e] eqn:Ef;
    [|discriminate].
  intros Hmain Hin.
  apply main_analysis_analysed in Hmain.
  destruct Hmain as (Hrun & _ & Hfe & _).
  destruct (main_forecasts_rows _ _ _ _ _ Ef Hfe) as (Hcol & t & Et & Hrows).
  apply run_pipeline_inv in Hrun. destruct Hrun as (_ & -> & _).
  unfold classified_table, normalized_table in Hin. cbn [rows] in Hin.
  apply in_map_iff in Hin. destruct Hin as (r1 & <- & Hin).
  apply in_map_iff in Hin. destruct Hin as (r0 & <- & Hin).
  cbn [classify_row normalize_row with_classification with_normalized
       forecasted_value player_name].
  destruct (merged_rows_in _ _ Hin)
    as (r2 & q & f & _ & _ & Hf & _ & Hfn & Hn & _ & _ & _ & Hfv & _).
  cbn [init forecasted_df] in Hf, Hfv.
  destruct (espn_rows _ _ _ _ Et (Hrows f Hf))
    as (players & p & -> & Hp & Hnamed & Hv & Hq).
  destruct (named_some _ _ Hnamed) as (Hfull & _).
  rewrite Hfv. unfold forecast_of. rewrite Hcol, Hv.
  split.
  - unfold num_gt. cbn [num_lt]. q_props. exact Hq.
  - exists players, p. repeat split; try assumption.
    rewrite Hfull, Hn, Hfn. reflexivity.
Qed.

Lemma main_forecast_positive_witness :
  let r := nth 0 (rows (outcome_table league_outcome)) league_alice in
  num_gt (forecasted_value r) (Fin 0) = true
  /\ exists players p,
       Some league_espn = Some players
       /\ In p players
       /\ Espn.fullName p = Some (player_name r)
       /\ forecasted_value r = Fin (remaining_projection 6 (Espn.stats p)).
Proof.
  intro r.
  apply (main_forecast_positive default_config league_roster
           (Some league_items) None (Some league_espn) 6
           (Some league_espn) 6
           (outcome_table league_outcome) (outcome_analyzer league_outcome)
           r).
  - vm_compute. reflexivity.
  - vm_compute. left. reflexivity.
Defined.

(** * The recent games *)

Lemma joined_key (left right : list string) :
  col_in "player_name" left = true ->
  col_in "player_name" (joined_columns left right) = true.
Proof.
  intro H. unfold joined_columns, col_in. rewrite existsb_app.
  apply orb_true_iff. left. unfold col_in in H.
  induction left as [|c left IH]; [discriminate|].
  cbn [existsb map] in *. apply orb_true_iff in H.
  apply orb_true_iff. destruct H as [H|H]; [left|right; auto].
  apply String.eqb_eq in H. subst c.
  rewrite String.eqb_refl. reflexivity.
Qed.

Lemma join_recent_unique (projections : list Forecasted.row)
    (recent : list Recent.row) :
  NoDup (map Recent.player_name recent) ->
  map Combined.projection (join_recent projections recent) = projections.
Proof.
  intro Hnd. unfold join_recent.
  induction projections as [|p ps IH]; [reflexivity|].
  cbn [flat_map]. rewrite map_app, IH.
  rewrite (filter_unique Recent.player_name (Forecasted.player_name p)
             recent Hnd).
  destruct (find _ recent); reflexivity.
Qed.

Lemma combined_projections (projections : Forecasted.table)
    (recent : Recent.table) (w : num) (combined : Combined.table) :
  combine_recent_performance_with_projections projections recent w
  = Ok combined ->
  col_in "rest_of_season_projection" (Forecasted.columns projections)
  = true ->
  col_in "player_name" (Forecasted.columns projections) = true ->
  col_in "rest_of_season_projection" (Combined.columns combined) = true
  /\ col_in "player_name" (Combined.columns combined) = true
  /\ map Combined.projection (Combined.rows combined)
     = (if recent_empty recent then Forecasted.rows projections
        else map Combined.projection
               (join_recent (Forecasted.rows projections)
                            (Recent.rows recent))).
Proof.
  unfold combine_recent_performance_with_projections.
  destruct (recent_empty recent); intros H Hros Hkey.
  - apply Ok_inj in H. subst combined.
    cbn [uncombined Combined.columns Combined.rows].
    rewrite map_map. cbn [Combined.projection]. rewrite map_id. auto.
  - ok_inv H. apply Ok_inj in H. subst combined.
    cbn [Combined.columns Combined.rows].
    split; [apply col_in_add_column; assumption|].
    split; [apply col_in_add_column, joined_key; assumption|].
    rewrite !map_map. reflexivity.
Qed.

(** X22.  The recent games do not reach the analysis.  The table
    [combine_recent_performance_with_projections] returns keeps the
    column [rest_of_season_projection], which is the one the merge reads:
    for each of its rows the analyzer sees the unadjusted projection of a
    projection row, whatever the weight and the recent averages.  When no
    two rows of the recent games share a name, the analysis of the
    combined table gives the same classified table as the analysis of the
    projections alone. *)
Theorem recent_form_unread (cfg : Config) (roster : list Roster.row)
    (perceived : Perceived.table) (projections : Forecasted.table)
    (recent : Recent.table) (w : num) (combined : Combined.table) :
  combine_recent_performance_with_projections projections recent w
  = Ok combined ->
  col_in "rest_of_season_projection" (Forecasted.columns projections)
  = true ->
  col_in "player_name" (Forecasted.columns projections) = true ->
  (forall f, In f (Forecasted.rows (as_forecasted combined)) ->
             In f (Forecasted.rows projections)
             /\ forecast_of (Forecasted.columns (as_forecasted combined)) f
                = Forecasted.rest_of_season_projection f)
  /\ (NoDup (map Recent.player_name (Recent.rows recent)) ->
      forall df,
        (exists s, run_pipeline cfg
                     (init roster perceived (as_forecasted combined))
                   = Ok (df, s))
        <-> (exists s, run_pipeline cfg (init roster perceived projections)
                       = Ok (df, s))).
Proof.
  intros Hc Hros Hkey.
  destruct (combined_projections _ _ _ _ Hc Hros Hkey)
    as (Hros' & Hkey' & Hrows).
  split.
  - intros f Hf. cbn [as_forecasted Forecasted.rows Forecasted.columns] in *.
    unfold forecast_of. rewrite Hros'. split; [|reflexivity].
    rewrite Hrows in Hf. destruct (recent_empty recent); [exact Hf|].
    apply in_map_iff in Hf. destruct Hf as (m & <- & Hm).
    exact (join_recent_projection _ _ _ Hm).
  - intro Hnd.
    assert (Hsame : Forecasted.rows (as_forecasted combined)
                    = Forecasted.rows projections).
    { cbn [as_forecasted Forecasted.rows]. rewrite Hrows.
      destruct (recent_empty recent); [reflexivity|].
      apply join_recent_unique. exact Hnd. }
    set (A := init roster perceived (as_forecasted combined)).
    set (B := init roster perceived projections).
    assert (Hok : merge_inputs_ok A = merge_inputs_ok B).
    { unfold merge_inputs_ok, A, B.
      cbn [init perceived_df forecasted_df as_forecasted Forecasted.columns].
      rewrite Hros, Hkey, Hros', Hkey'. reflexivity. }
    assert (Hm : merged_table A = merged_table B).
    { unfold merged_table, joined_rows, forecast_of, A, B.
      cbn [init perceived_df forecasted_df roster_df].
      rewrite Hsame.
      cbn [as_forecasted Forecasted.columns]. rewrite Hros, Hros'.
      reflexivity. }
    assert (Hcl : classified_table cfg A = classified_table cfg B).
    { unfold classified_table, normalized_table. rewrite Hm. reflexivity. }
    intro df. split; intros (s & H); apply run_pipeline_inv in H;
      destruct H as (H & -> & _).
    + rewrite Hok in H. rewrite Hcl. eexists.
      apply (run_pipeline_eq cfg B H).
    + rewrite <- Hok in H. rewrite <- Hcl. eexists.
      apply (run_pipeline_eq cfg A H).
Qed.

Lemma recent_form_unread_witness :
  (forall f, In f (Forecasted.rows (as_forecasted league_combined)) ->
             In f (Forecasted.rows league_projections)
             /\ forecast_of
                  (Forecasted.columns (as_forecasted league_combined)) f
                = Forecasted.rest_of_season_projection f)
  /\ (NoDup (map Recent.player_name (Recent.rows league_recent)) ->
      forall df,
        (exists s, run_pipeline default_config
                     (init league_roster league_perceived
                           (as_forecasted league_combined))
                   = Ok (df, s))
        <-> (exists s, run_pipeline default_config
                         (init league_roster league_perceived
                               league_projections)
                       = Ok (df, s))).
Proof.
  apply (recent_form_unread default_config league_roster league_perceived
           league_projections league_recent RECENT_GAMES_WEIGHT
           league_combined).
  - vm_compute. reflexivity.
  - reflexivity.
  - reflexivity.
Defined.

Lemma recent_rows_in (players : list Espn.player) (week : Z)
    (s : Recent.row) :
  In s (Recent.rows (get_player_stats_last_4_weeks (Some players) week)) ->
  exists p,
    In p players
    /\ named p = Some (Recent.player_name s)
    /\ counted week (Espn.stats p) <> []
    /\ s = Recent.mk (Recent.player_name s)
             (Fin (points (counted week (Espn.stats p))))
             (Fin (points (counted week (Espn.stats p))
                   / inject_Z (Z.of_nat (List.length
                                           (counted week (Espn.stats p))))))
             (Z.of_nat (List.length (counted week (Espn.stats p)))).
Proof.
  unfold get_player_stats_last_4_weeks.
  match goal with
  | |- context [match ?l with [] => _ | _ => _ end] =>
      destruct l as [|x rest] eqn:El
  end; [intros []|].
  rewrite <- El. cbn [Recent.rows]. intro H.
  apply in_flat_map in H. destruct H as (p & Hp & Hin).
  exists p. split; [exact Hp|].
  destruct (named p) as [n|]; [|destruct Hin].
  destruct (counted week (Espn.stats p)) as [|g games] eqn:Eg;
    [destruct Hin|].
  cbn [List.length] in Hin.
  destruct (0 <? Z.of_nat (S (List.length games)))%Z; [|destruct Hin].
  destruct Hin as [<-|[]]. cbn [Recent.player_name].
  split; [reflexivity|]. split; [discriminate|]. reflexivity.
Qed.

Lemma counted_in (week : Z) (stats : list Espn.stat) (g : Espn.stat) :
  In g (counted week stats) ->
  In g stats
  /\ Espn.statSourceId g = 0%Z
  /\ (Z.max 1 (week - 4) <= Espn.scoringPeriodId g < week)%Z.
Proof.
  unfold counted. intro H. apply filter_In in H. destruct H as (Hin & H).
  apply andb_true_iff in H. destruct H as (H & H3).
  apply andb_true_iff in H. destruct H as (H1 & H2).
  apply Z.eqb_eq in H1. apply Z.leb_le in H2. apply Z.ltb_lt in H3.
  auto.
Qed.

(** X23.  [get_player_stats_last_4_weeks] lists a player only when at
    least one actual entry of the player falls in the four scoring periods
    before the current week (from period 1 on): the row's [weeks_played]
    is the number of those entries and is at least 1, its [recent_total]
    is their points added in the order of the answer, and [recent_avg] is
    [recent_total / weeks_played].  In week 1 or earlier, and when
    [_make_request] returned [None] (an HTTP error status), the table is
    empty. *)
Theorem recent_stats_rows (data : option (list Espn.player)) (week : Z) :
  (data = None \/ (week <= 1)%Z ->
   recent_empty (get_player_stats_last_4_weeks data week) = true)
  /\ forall s,
       In s (Recent.rows (get_player_stats_last_4_weeks data week)) ->
       Recent.player_name s <> EmptyString
       /\ (1 <= Recent.weeks_played s)%Z
       /\ exists players p,
            data = Some players /\ In p players
            /\ Espn.fullName p = Some (Recent.player_name s)
            /\ (forall g, In g (counted week (Espn.stats p)) <->
                          In g (Espn.stats p)
                          /\ Espn.statSourceId g = 0%Z
                          /\ (Z.max 1 (week - 4)
                              <= Espn.scoringPeriodId g < week)%Z)
            /\ Recent.weeks_played s
               = Z.of_nat (List.length (counted week (Espn.stats p)))
            /\ Recent.recent_total s
               = Fin (points (counted week (Espn.stats p)))
            /\ Recent.recent_avg s
               = Fin (points (counted week (Espn.stats p))
                      / inject_Z (Recent.weeks_played s)).
Proof.
  assert (Hrows : forall s,
            In s (Recent.rows (get_player_stats_last_4_weeks data week)) ->
            exists players p,
              data = Some players /\ In p players
              /\ named p = Some (Recent.player_name s)
              /\ counted week (Espn.stats p) <> []
              /\ s = Recent.mk (Recent.player_name s)
                       (Fin (points (counted week (Espn.stats p))))
                       (Fin (points (counted week (Espn.stats p))
                             / inject_Z
                                 (Z.of_nat
                                    (List.length
                                       (counted week (Espn.stats p))))))
                       (Z.of_nat (List.length
                                    (counted week (Espn.stats p))))).
  { intros s Hs. destruct data as [players|]; [|destruct Hs].
    destruct (recent_rows_in _ _ _ Hs) as (p & H). exists players, p.
    split; [reflexivity|exact H]. }
  split.
  - intros Hcase.
    destruct (Recent.rows (get_player_stats_last_4_weeks data week))
      as [|s l] eqn:El.
    + unfold recent_empty. rewrite El.
      destruct (Recent.columns _); reflexivity.
    + exfalso.
      destruct (Hrows s (or_introl eq_refl))
        as (players & p & Hd & _ & _ & Hne & _).
      destruct Hcase as [Hn|Hw]; [congruence|].
      destruct (counted week (Espn.stats p)) as [|g games] eqn:Eg;
        [now apply Hne|].
      assert (Hg : In g (counted week (Espn.stats p)))
        by (rewrite Eg; left; reflexivity).
      apply counted_in in Hg. lia.
  - intros s Hs.
    destruct (Hrows s Hs) as (players & p & Hd & Hp & Hn & Hne & Es).
    destruct (named_some _ _ Hn) as (Hfull & Hname).
    assert (Hlen : (1 <= Z.of_nat (List.length
                                     (counted week (Espn.stats p))))%Z).
    { destruct (counted week (Espn.stats p)); [now destruct Hne|].
      cbn [List.length]. lia. }
    split; [exact Hname|]. split; [rewrite Es; exact Hlen|].
    exists players, p.
    split; [exact Hd|]. split; [exact Hp|]. split; [exact Hfull|].
    split.
    { intro g. split; [apply counted_in|].
      intros (Hin & Hsrc & Hlo & Hhi). unfold counted.
      apply filter_In. split; [exact Hin|].
      rewrite Hsrc. cbn [Z.eqb andb].
      apply andb_true_iff. split; [apply Z.leb_le|apply Z.ltb_lt];
        assumption. }
    rewrite Es. cbn [Recent.weeks_played Recent.recent_total
                     Recent.recent_avg].
    repeat split.
Qed.

(** * The configuration *)

Lemma known_format (format : string) :
  has_key PPR_MAPPING format = true
  <-> format = "ppr"%string \/ format = "half_ppr"%string
      \/ format = "standard"%string.
Proof.
  unfold has_key, PPR_MAPPING. cbn [existsb fst].
  rewrite !orb_true_iff, !String.eqb_eq. intuition discriminate.
Qed.

(** X24.  [validate_config] returns (and then returns [True]) exactly when
    the league id and the season are not 0 and the scoring format is one
    of [ppr], [half_ppr] and [standard]; otherwise it raises [ValueError].
    For an accepted configuration [get_ppr_value] is 1, 1/2 or 0 in that
    order of formats; for a format that is not in the mapping it is 1. *)
Theorem validate_config_spec (s : Settings) :
  (validate_config s = Returned true
   <-> LEAGUE_ID s <> 0%Z /\ SEASON s <> 0%Z
       /\ (SCORING_FORMAT s = "ppr"%string
           \/ SCORING_FORMAT s = "half_ppr"%string
           \/ SCORING_FORMAT s = "standard"%string))
  /\ (validate_config s = Returned true
      \/ exists message, validate_config s = Raised (ValueError message))
  /\ (SCORING_FORMAT s = "ppr"%string -> get_ppr_value s = 1)
  /\ (SCORING_FORMAT s = "half_ppr"%string -> get_ppr_value s = 1 # 2)
  /\ (SCORING_FORMAT s = "standard"%string -> get_ppr_value s = 0)
  /\ (has_key PPR_MAPPING (SCORING_FORMAT s) = false ->
      get_ppr_value s = 1).
Proof.
  pose proof (known_format (SCORING_FORMAT s)) as Hk.
  split; [|split].
  - unfold validate_config.
    destruct (Z.eqb_spec (LEAGUE_ID s) 0) as [El|El];
      destruct (Z.eqb_spec (SEASON s) 0) as [Es|Es];
      destruct (has_key PPR_MAPPING (SCORING_FORMAT s)) eqn:Ef;
      cbn [negb]; (split; [try discriminate|]).
    all: try (intros (H1 & H2 & H3); try contradiction;
              try reflexivity; apply (proj2 Hk) in H3; discriminate).
    intros _. split; [exact El|]. split; [exact Es|].
    apply Hk. reflexivity.
  - unfold validate_config.
    destruct (LEAGUE_ID s =? 0)%Z; [right; eexists; reflexivity|].
    destruct (SEASON s =? 0)%Z; [right; eexists; reflexivity|].
    destruct (has_key PPR_MAPPING (SCORING_FORMAT s));
      [left; reflexivity|right; eexists; reflexivity].
  - unfold get_ppr_value.
    repeat split; try (intros ->; reflexivity).
    unfold has_key, dict_get, PPR_MAPPING.
    cbn [existsb find fst snd].
    repeat match goal with
           | |- context [String.eqb ?a ?b] =>
               destruct (String.eqb a b); try discriminate
           end.
    reflexivity.
Qed.

(** * The combined forecast *)

Lemma combined_rows (projections : Forecasted.table)
    (recent : Recent.table) (w : num) (combined : Combined.table) :
  combine_recent_performance_with_projections projections recent w
  = Ok combined ->
  recent_empty recent = false ->
  Combined.rows combined
  = map (fun m => Combined.mk (Combined.projection m)
                    (Combined.recent_total m)
                    (fillna0 (Combined.recent_avg m))
                    (Combined.weeks_played m)
                    (combined_forecast w
                       (Forecasted.rest_of_season_projection
                          (Combined.projection m))
                       (fillna0 (Combined.recent_avg m))))
        (join_recent (Forecasted.rows projections) (Recent.rows recent)).
Proof.
  unfold combine_recent_performance_with_projections. intros H He.
  rewrite He in H. ok_inv H. apply Ok_inj in H. subst combined.
  cbn [Combined.rows]. rewrite map_map. reflexivity.
Qed.

Lemma join_recent_in (projections : list Forecasted.row)
    (recent : list Recent.row) (p : Forecasted.row) :
  In p projections ->
  (forall s, In s recent ->
             Recent.player_name s = Forecasted.player_name p ->
             In (Combined.mk p (Recent.recent_total s) (Recent.recent_avg s)
                   (Fin (inject_Z (Recent.weeks_played s))) NaN)
                (join_recent projections recent))
  /\ ((forall s, In s recent ->
                 Recent.player_name s <> Forecasted.player_name p) ->
      In (Combined.mk p NaN NaN NaN NaN) (join_recent projections recent)).
Proof.
  intro Hp. unfold join_recent. split.
  - intros s Hs Hn. apply in_flat_map. exists p. split; [exact Hp|].
    assert (Hf : In s (filter (fun s0 => String.eqb
                                           (Forecasted.player_name p)
                                           (Recent.player_name s0))
                              recent)).
    { apply filter_In. split; [exact Hs|]. rewrite Hn.
      apply String.eqb_refl. }
    destruct (filter _ recent) as [|s0 ss]; [destruct Hf|].
    apply (in_map (fun s1 => Combined.mk p (Recent.recent_total s1)
                               (Recent.recent_avg s1)
                               (Fin (inject_Z (Recent.weeks_played s1)))
                               NaN)) in Hf.
    exact Hf.
  - intro Hno. apply in_flat_map. exists p. split; [exact Hp|].
    rewrite filter_none; [left; reflexivity|].
    intros s Hs. apply String.eqb_neq. intro E.
    exact (Hno s Hs (eq_sym E)).
Qed.

(** X25.  What [combine_recent_performance_with_projections] computes when
    there are recent games, for a finite weight [w] and a projection [r]:
    a player with a recent row of average [a] gets the combined forecast
    [r * (1 - w) + a * 13 * w]; a player with no recent row is counted
    with a recent average of 0, so the forecast falls to [r * (1 - w)]. *)
Theorem combined_forecast_spec (projections : Forecasted.table)
    (recent : Recent.table) (w r : Q) (p : Forecasted.row)
    (combined : Combined.table) :
  combine_recent_performance_with_projections projections recent (Fin w)
  = Ok combined ->
  recent_empty recent = false ->
  In p (Forecasted.rows projections) ->
  Forecasted.rest_of_season_projection p = Fin r ->
  (forall s a,
     In s (Recent.rows recent) ->
     Recent.player_name s = Forecasted.player_name p ->
     Recent.recent_avg s = Fin a ->
     exists m v,
       In m (Combined.rows combined)
       /\ Combined.projection m = p
       /\ Combined.recent_avg m = Fin a
       /\ Combined.forecasted_value_adjusted m = Fin v
       /\ v == r * (1 - w) + a * 13 * w)
  /\ ((forall s, In s (Recent.rows recent) ->
                 Recent.player_name s <> Forecasted.player_name p) ->
      exists m v,
        In m (Combined.rows combined)
        /\ Combined.projection m = p
        /\ Combined.recent_avg m = Fin 0
        /\ Combined.forecasted_value_adjusted m = Fin v
        /\ v == r * (1 - w)).
Proof.
  intros Hc He Hp Hr.
  rewrite (combined_rows _ _ _ _ Hc He).
  destruct (join_recent_in (Forecasted.rows projections)
              (Recent.rows recent) p Hp) as (Hhit & Hmiss).
  split.
  - intros s a Hs Hn Ha. specialize (Hhit s Hs Hn).
    eexists. eexists. split.
    + apply in_map_iff. eexists. split; [reflexivity|exact Hhit].
    + cbn [Combined.projection Combined.recent_avg
           Combined.forecasted_value_adjusted].
      rewrite Ha, Hr. cbn [fillna0].
      split; [reflexivity|]. split; [reflexivity|].
      split; [reflexivity|].
      rewrite !Qred_correct. ring.
  - intro Hno. specialize (Hmiss Hno).
    eexists. eexists. split.
    + apply in_map_iff. eexists. split; [reflexivity|exact Hmiss].
    + cbn [Combined.projection Combined.recent_avg
           Combined.forecasted_value_adjusted].
      rewrite Hr. cbn [fillna0].
      split; [reflexivity|]. split; [reflexivity|].
      split; [reflexivity|].
      rewrite !Qred_correct. ring.
Qed.

Lemma combined_forecast_spec_witness :
  let p := nth 0 (Forecasted.rows league_projections)
               (Forecasted.mk "" NaN NaN) in
  (forall s a,
     In s (Recent.rows league_recent) ->
     Recent.player_name s = Forecasted.player_name p ->
     Recent.recent_avg s = Fin a ->
     exists m v,
       In m (Combined.rows league_combined)
       /\ Combined.projection m = p
       /\ Combined.recent_avg m = Fin a
       /\ Combined.forecasted_value_adjusted m = Fin v
       /\ v == (2160 # 18) * (1 - (4 # 10)) + a * 13 * (4 # 10))
  /\ ((forall s, In s (Recent.rows league_recent) ->
                 Recent.player_name s <> Forecasted.player_name p) ->
      exists m v,
        In m (Combined.rows league_combined)
        /\ Combined.projection m = p
        /\ Combined.recent_avg m = Fin 0
        /\ Combined.forecasted_value_adjusted m = Fin v
        /\ v == (2160 # 18) * (1 - (4 # 10))).
Proof.
  intro p.
  apply (combined_forecast_spec league_projections league_recent
           (4 # 10) (2160 # 18) p league_combined).
  - vm_compute. reflexivity.
  - reflexivity.
  - left. reflexivity.
  - reflexivity.
Defined.

(** * Rounding: the accuracy of the binary64 operations

    [Binary64.round_Q] gives a positive number that is neither too small
    nor too large up to the relative error [unit_roundoff]. *)

(** ** Powers of two *)

Lemma two_nonzero : ~ 2 == 0.
Proof. intro H. discriminate H. Qed.

Lemma pow2_pos (z : Z) : 0 < 2 ^ z.
Proof. apply Qpower_0_lt. reflexivity. Qed.

Lemma pow2_Z (k : Z) : (0 <= k)%Z -> inject_Z (2 ^ k) == 2 ^ k.
Proof. intro H. apply (Zpower_Qpower 2 k H). Qed.

(** [2^max(0,z) = 2^z * 2^max(0,-z)] *)
Lemma pow2_split (z : Z) :
  inject_Z (2 ^ Z.max 0 z) == 2 ^ z * inject_Z (2 ^ Z.max 0 (- z)).
Proof.
  destruct (Z.le_gt_cases 0 z) as [H|H].
  - rewrite Z.max_r by lia. rewrite (Z.max_l 0 (- z)) by lia.
    rewrite (pow2_Z z) by lia. change (inject_Z (2 ^ 0)) with 1. ring.
  - rewrite Z.max_l by lia. rewrite (Z.max_r 0 (- z)) by lia.
    rewrite (pow2_Z (- z)) by lia. change (inject_Z (2 ^ 0)) with 1.
    rewrite <- Qpower_plus by exact two_nonzero.
    replace (z + - z)%Z with 0%Z by lia. reflexivity.
Qed.

Lemma pow2_max_pos (z : Z) : 0 < inject_Z (2 ^ Z.max 0 z).
Proof.
  rewrite pow2_Z by lia. apply pow2_pos.
Qed.

Lemma log2_bounds (a : Z) :
  (0 < a)%Z ->
  2 ^ Z.log2 a <= inject_Z a /\ inject_Z a < 2 ^ (Z.log2 a + 1).
Proof.
  intro H. destruct (Z.log2_spec a H) as (H1 & H2).
  pose proof (Z.log2_nonneg a) as Hn.
  split.
  - rewrite <- pow2_Z by lia. rewrite <- Zle_Qle. exact H1.
  - rewrite <- pow2_Z by lia. rewrite <- Zlt_Qlt.
    replace (Z.log2 a + 1)%Z with (Z.succ (Z.log2 a)) by lia. exact H2.
Qed.

(** ** The exponent *)

Section Exponent.
Variables a b : Z.
Hypothesis a_pos : (0 < a)%Z.
Hypothesis b_pos : (0 < b)%Z.

Let x : Q := inject_Z a / inject_Z b.

Lemma ratio_B : 0 < inject_Z b.
Proof. change 0 with (inject_Z 0). rewrite <- Zlt_Qlt. exact b_pos. Qed.

Lemma ratio_lt (c : Q) : inject_Z a < c * inject_Z b <-> x < c.
Proof.
  pose proof ratio_B as HB. unfold x. split; intro H.
  - apply Qlt_shift_div_r; assumption.
  - apply (Qmult_lt_r _ _ (inject_Z b)) in H; [|exact HB].
    setoid_replace (inject_Z a / inject_Z b * inject_Z b) with (inject_Z a)
      in H by (field; lra).
    exact H.
Qed.

Lemma ratio_le (c : Q) : c * inject_Z b <= inject_Z a <-> c <= x.
Proof.
  pose proof ratio_B as HB. unfold x. split; intro H.
  - apply Qle_shift_div_l; assumption.
  - apply (Qmult_le_r _ _ (inject_Z b)) in H; [|exact HB].
    setoid_replace (inject_Z a / inject_Z b * inject_Z b) with (inject_Z a)
      in H by (field; lra).
    exact H.
Qed.

(** The comparison of [a / b] with [2^z], on integers. *)
Lemma below_spec (z : Z) :
  (a * 2 ^ Z.max 0 (- z) <? b * 2 ^ Z.max 0 z)%Z = true <-> x < 2 ^ z.
Proof.
  rewrite Z.ltb_lt, Zlt_Qlt, !inject_Z_mult.
  rewrite (pow2_split z). rewrite <- ratio_lt.
  pose proof (pow2_max_pos (- z)) as HM.
  split; intro H.
  - apply (Qmult_lt_r _ _ (inject_Z (2 ^ Z.max 0 (- z)))); [exact HM|].
    lra.
  - apply (Qmult_lt_r _ _ (inject_Z (2 ^ Z.max 0 (- z)))) in H; [|exact HM].
    lra.
Qed.

Lemma exponent_spec :
  2 ^ Binary64.exponent a b <= x /\ x < 2 ^ (Binary64.exponent a b + 1).
Proof.
  unfold Binary64.exponent.
  destruct (log2_bounds a a_pos) as (Ha1 & Ha2).
  destruct (log2_bounds b b_pos) as (Hb1 & Hb2).
  set (la := Z.log2 a) in *. set (lb := Z.log2 b) in *.
  pose proof ratio_B as HB.
  destruct (a * 2 ^ Z.max 0 (- (la - lb)) <? b * 2 ^ Z.max 0 (la - lb))%Z
    eqn:E.
  - apply below_spec in E. split.
    + apply ratio_le.
      assert (H : 2 ^ (la - lb - 1) * 2 ^ (lb + 1) == 2 ^ la).
      { rewrite <- Qpower_plus by exact two_nonzero.
        replace (la - lb - 1 + (lb + 1))%Z with la by lia. reflexivity. }
      pose proof (pow2_pos (la - lb - 1)) as Hp.
      apply Qle_trans with (2 ^ (la - lb - 1) * 2 ^ (lb + 1)).
      * apply Qmult_le_l; [exact Hp|]. apply Qlt_le_weak. exact Hb2.
      * rewrite H. exact Ha1.
    + replace (la - lb - 1 + 1)%Z with (la - lb)%Z by lia. exact E.
  - split.
    + destruct (Qlt_le_dec x (2 ^ (la - lb))) as [H|H]; [|exact H].
      apply below_spec in H. congruence.
    + apply ratio_lt.
      assert (H : 2 ^ (la - lb + 1) * 2 ^ lb == 2 ^ (la + 1)).
      { rewrite <- Qpower_plus by exact two_nonzero.
        replace (la - lb + 1 + lb)%Z with (la + 1)%Z by lia. reflexivity. }
      pose proof (pow2_pos (la - lb + 1)) as Hp.
      apply Qlt_le_trans with (2 ^ (la + 1)); [exact Ha2|].
      rewrite <- H. apply Qmult_le_l; [exact Hp|exact Hb1].
Qed.

End Exponent.

(** ** The nearest integer *)

Lemma nearest_spec (n d : Z) :
  (0 < d)%Z ->
  (- d <= 2 * (Binary64.nearest n d * d - n) <= d)%Z.
Proof.
  intro Hd. unfold Binary64.nearest.
  pose proof (Z.div_mod n d ltac:(lia)) as Hdm.
  pose proof (Z.mod_pos_bound n d Hd) as Hr.
  set (q := (n / d)%Z) in *. set (r := (n mod d)%Z) in *.
  destruct (2 * r <? d)%Z eqn:E1.
  - apply Z.ltb_lt in E1. nia.
  - apply Z.ltb_ge in E1.
    destruct (d <? 2 * r)%Z eqn:E2.
    + apply Z.ltb_lt in E2. nia.
    + apply Z.ltb_ge in E2. destruct (Z.even q); nia.
Qed.

Lemma nearest_Q (n d : Z) :
  (0 < d)%Z ->
  Qabs (inject_Z (Binary64.nearest n d) - inject_Z n / inject_Z d) <= 1 # 2.
Proof.
  intro Hd. pose proof (nearest_spec n d Hd) as (H1 & H2).
  assert (HD : 0 < inject_Z d).
  { change 0 with (inject_Z 0). rewrite <- Zlt_Qlt. exact Hd. }
  rewrite Zle_Qle in H1, H2. unfold Z.sub in H1, H2.
  repeat first [ rewrite inject_Z_mult in H1 | rewrite inject_Z_plus in H1
               | rewrite inject_Z_opp in H1 ].
  repeat first [ rewrite inject_Z_mult in H2 | rewrite inject_Z_plus in H2
               | rewrite inject_Z_opp in H2 ].
  set (q := inject_Z (Binary64.nearest n d)) in *.
  set (N := inject_Z n) in *. set (D := inject_Z d) in *.
  change (inject_Z 2) with 2 in *.
  apply Qabs_Qle_condition.
  assert (E : q - N / D == (q * D - N) / D) by (field; lra).
  rewrite E. split.
  - apply Qle_shift_div_l; [exact HD|]. lra.
  - apply Qle_shift_div_r; [exact HD|]. lra.
Qed.

(** ** The rounding error *)

Lemma pow2_lt (n m : Z) : 2 ^ n < 2 ^ m -> (n < m)%Z.
Proof. intro H. apply (Qpower_lt_compat_l_inv 2); [exact H|reflexivity]. Qed.

Ltac pos_nz :=
  match goal with
  | H : 0 < ?x |- ~ ?x == 0 =>
      let E := fresh in
      intro E; rewrite E in H; exact (Qlt_irrefl 0 H)
  end.

Lemma scaled_ratio (a b t : Z) :
  (0 < b)%Z ->
  inject_Z (a * 2 ^ Z.max 0 (- t)) / inject_Z (b * 2 ^ Z.max 0 t)
  == inject_Z a / inject_Z b / 2 ^ t.
Proof.
  intro Hb. rewrite !inject_Z_mult. rewrite (pow2_split t).
  pose proof (pow2_max_pos (- t)) as HM. pose proof (pow2_pos t) as HP.
  assert (HB : 0 < inject_Z b).
  { change 0 with (inject_Z 0). rewrite <- Zlt_Qlt. exact Hb. }
  field. repeat split; pos_nz.
Qed.

(** Away from the subnormal numbers the significand has 53 bits, and the
    nearest of them is within half a unit of the last one. *)
Lemma round_ratio_near (a b : Z) :
  (0 < a)%Z -> (0 < b)%Z ->
  2 ^ (-1022) <= inject_Z a / inject_Z b ->
  let x := inject_Z a / inject_Z b in
  let t := (Binary64.exponent a b - 52)%Z in
  Binary64.round_ratio a b
  = (Binary64.nearest (a * 2 ^ Z.max 0 (- t)) (b * 2 ^ Z.max 0 t), t)
  /\ Qabs (inject_Z (Binary64.nearest (a * 2 ^ Z.max 0 (- t))
                                       (b * 2 ^ Z.max 0 t)) * 2 ^ t - x)
     <= x * unit_roundoff.
Proof.
  intros Ha Hb Hlo x t.
  destruct (exponent_spec a b Ha Hb) as (He1 & He2). fold x in He1, He2.
  set (e := Binary64.exponent a b) in *.
  assert (Hex : (-1022 <= e)%Z).
  { assert (H : 2 ^ (-1022) < 2 ^ (e + 1))
      by (eapply Qle_lt_trans; [exact Hlo|exact He2]).
    apply pow2_lt in H. lia. }
  split.
  - unfold Binary64.round_ratio. fold e.
    rewrite (Z.max_l (e - 52) (-1074)) by lia. reflexivity.
  - set (n := (a * 2 ^ Z.max 0 (- t))%Z).
    set (d := (b * 2 ^ Z.max 0 t)%Z).
    assert (Hd : (0 < d)%Z).
    { unfold d. apply Z.mul_pos_pos; [exact Hb|].
      apply Z.pow_pos_nonneg; lia. }
    pose proof (nearest_Q n d Hd) as Hq.
    assert (Hnd : inject_Z n / inject_Z d == x / 2 ^ t)
      by (apply scaled_ratio; exact Hb).
    rewrite Hnd in Hq.
    set (q := inject_Z (Binary64.nearest n d)) in *.
    pose proof (pow2_pos t) as HP.
    assert (E : q * 2 ^ t - x == (q - x / 2 ^ t) * 2 ^ t) by (field; pos_nz).
    rewrite E, Qabs_Qmult, (Qabs_pos (2 ^ t)) by lra.
    assert (Hu : 2 ^ e * unit_roundoff == (1 # 2) * 2 ^ t).
    { unfold unit_roundoff, t.
      rewrite <- Qpower_plus by exact two_nonzero.
      replace (e + -53)%Z with (e - 52 + -1)%Z by lia.
      rewrite Qpower_plus by exact two_nonzero.
      change (2 ^ (-1)) with (1 # 2). ring. }
    apply Qle_trans with ((1 # 2) * 2 ^ t).
    + apply Qmult_le_compat_r; [exact Hq|lra].
    + rewrite <- Hu. apply Qmult_le_compat_r; [exact He1|].
      unfold unit_roundoff. apply Qlt_le_weak, pow2_pos.
Qed.

Lemma unit_roundoff_bounds : 0 < unit_roundoff /\ unit_roundoff < 1.
Proof. split; reflexivity. Qed.

Lemma Qabs_near (x y r : Q) :
  Qabs (y - x) <= r <-> x - r <= y /\ y <= x + r.
Proof.
  rewrite Qabs_Qle_condition. split; intros (H1 & H2); split; lra.
Qed.

(** The standard model of the rounding: from [2^-1022] to [2^1022] the
    result is finite and of relative error at most [unit_roundoff]. *)
Lemma round_Q_near (x : Q) :
  2 ^ (-1022) <= x -> x <= 2 ^ 1022 ->
  exists y, Binary64.round_Q x = Fin y
            /\ x - x * unit_roundoff <= y /\ y <= x + x * unit_roundoff.
Proof.
  intros Hlo Hhi.
  assert (Hx : 0 < x).
  { eapply Qlt_le_trans; [|exact Hlo]. reflexivity. }
  destruct x as [n d]. destruct n as [|a|a];
    try (exfalso; unfold Qlt in Hx; simpl in Hx; lia).
  assert (Ex : Z.pos a # d == inject_Z (Z.pos a) / inject_Z (Z.pos d))
    by apply Qmake_Qdiv.
  rewrite Ex in Hlo, Hhi, Hx.
  destruct (round_ratio_near (Z.pos a) (Z.pos d) ltac:(lia) ltac:(lia) Hlo)
    as (Hr & Habs).
  set (X := inject_Z (Z.pos a) / inject_Z (Z.pos d)) in *.
  set (t := (Binary64.exponent (Z.pos a) (Z.pos d) - 52)%Z) in *.
  set (q := Binary64.nearest (Z.pos a * 2 ^ Z.max 0 (- t))
                             (Z.pos d * 2 ^ Z.max 0 t)) in *.
  apply Qabs_near in Habs. destruct Habs as (H1 & H2).
  unfold Binary64.round_Q. cbn [Qnum Qden]. rewrite Hr.
  unfold Binary64.scaled.
  destruct (0 <=? t)%Z eqn:Et.
  - apply Z.leb_le in Et.
    assert (Ey : inject_Z (q * 2 ^ t) == inject_Z q * 2 ^ t).
    { rewrite inject_Z_mult, (pow2_Z t Et). reflexivity. }
    assert (Hov : (2 ^ 1024 <=? q * 2 ^ t)%Z = false).
    { apply Z.leb_gt. rewrite Zlt_Qlt, Ey.
      pose proof unit_roundoff_bounds as (Hu0 & Hu1).
      assert (H : X * unit_roundoff <= X).
      { rewrite <- (Qmult_1_r X) at 2.
        apply Qmult_le_l; [exact Hx|]. apply Qlt_le_weak. exact Hu1. }
      apply Qle_lt_trans with (2 ^ 1022 + 2 ^ 1022); [lra|].
      reflexivity. }
    rewrite Hov. eexists. split; [reflexivity|].
    rewrite Ey, Ex. split; assumption.
  - apply Z.leb_gt in Et.
    eexists. split; [reflexivity|].
    assert (Ey : Qred (q # Z.to_pos (2 ^ (- t))) == inject_Z q * 2 ^ t).
    { rewrite Qred_correct, Qmake_Qdiv.
      rewrite Z2Pos.id by (apply Z.pow_pos_nonneg; lia).
      rewrite (pow2_Z (- t)) by lia.
      rewrite Qpower_opp. unfold Qdiv. rewrite Qinv_involutive.
      reflexivity. }
    rewrite Ey, Ex. split; assumption.
Qed.

Lemma round_Q_zero (x : Q) : x == 0 -> Binary64.round_Q x = Fin 0.
Proof.
  intro H. destruct x as [n d]. unfold Qeq in H. simpl in H.
  assert (n = 0%Z) by lia. subst n. reflexivity.
Qed.

(** * Rounding: the normalised means

    The relative errors of a sum, of a mean and of the cells divided by
    the mean, linearised: each rounding adds at most two unit roundoffs to
    a relative error that stays below one half. *)

Lemma near_weaken (a b y x : Q) :
  0 <= x -> a <= b -> near a y x -> near b y x.
Proof.
  unfold near. intros Hx Hab (H1 & H2). split; nra.
Qed.

Lemma near_exact (x : Q) : near 0 x x.
Proof. unfold near. split; lra. Qed.

Lemma near_zero (a y x : Q) :
  0 <= a -> a < 1 -> near a y x -> x == 0 -> y == 0.
Proof. unfold near. intros Ha Ha1 (H1 & H2) Hx. nra. Qed.

Lemma near_add (a y1 x1 y2 x2 : Q) :
  near a y1 x1 -> near a y2 x2 -> near a (y1 + y2) (x1 + x2).
Proof. unfold near. intros (H1 & H2) (H3 & H4). split; nra. Qed.

Lemma near_scale (a y x c : Q) :
  0 <= c -> near a y x -> near a (y * c) (x * c).
Proof. unfold near. intros Hc (H1 & H2). split; nra. Qed.

(** Rounding a number known up to [a] gives it up to [a + 2u]. *)
Lemma round_step (a z x : Q) :
  0 <= x -> 0 <= a -> a <= 1 # 2 -> near a z x -> safe x ->
  exists y, Binary64.round_Q z = Fin y /\ near (a + 2 * unit_roundoff) y x.
Proof.
  intros Hx Ha Ha2 Hn Hs.
  pose proof unit_roundoff_bounds as (Hu0 & Hu1).
  destruct Hs as [H0|(Hlo & Hhi)].
  - exists 0. split.
    + apply round_Q_zero. apply (near_zero a z x); try assumption. lra.
    + unfold near. split; nra.
  - assert (Hz : 2 ^ (-1022) <= z /\ z <= 2 ^ 1022).
    { destruct Hn as (H1 & H2).
      assert (L1 : 2 ^ (-1022) <= 2 ^ (-1000) * (1 # 2))
        by (vm_compute; discriminate).
      assert (L2 : 2 ^ 1000 * (3 # 2) <= 2 ^ 1022)
        by (vm_compute; discriminate).
      set (lo := 2 ^ (-1000)) in *. set (hi := 2 ^ 1000) in *.
      set (lo' := 2 ^ (-1022)) in *. set (hi' := 2 ^ 1022) in *.
      split; nra. }
    destruct Hz as (Hz1 & Hz2).
    destruct (round_Q_near z Hz1 Hz2) as (y & Hy & Hy1 & Hy2).
    exists y. split; [exact Hy|].
    destruct Hn as (H1 & H2). unfold near.
    assert (Hu2 : unit_roundoff <= 1 # 2) by (vm_compute; discriminate).
    set (v := unit_roundoff) in *. clearbody v.
    split; nra.
Qed.

Lemma low_add (x y : Q) : 0 <= x -> 0 <= y -> low x -> low y -> low (x + y).
Proof.
  unfold low. intros Hx Hy [Hx0|Hx1] [Hy0|Hy1]; [left|right|right|right]; lra.
Qed.

Lemma low_safe (x : Q) : low x -> x <= 2 ^ 1000 -> safe x.
Proof. unfold low, safe. intros [H|H] Hh; [left|right]; auto. Qed.

Lemma add_step (a y1 x1 y2 x2 : Q) :
  0 <= x1 -> 0 <= x2 -> 0 <= a -> a <= 1 # 2 ->
  near a y1 x1 -> near a y2 x2 -> safe (x1 + x2) ->
  exists y, Binary64.add (Fin y1) (Fin y2) = Fin y
            /\ near (a + 2 * unit_roundoff) y (x1 + x2).
Proof.
  intros Hx1 Hx2 Ha Ha2 H1 H2 Hs.
  unfold Binary64.add. cbn [num_add Binary64.round].
  apply round_step; try assumption; [lra|].
  unfold near. rewrite Qred_correct. apply near_add; assumption.
Qed.

Lemma near_eq (a b y x : Q) : a == b -> near a y x -> near b y x.
Proof. unfold near. intros E (H1 & H2). rewrite <- E. auto. Qed.

Lemma near_eq_x (a y x x' : Q) : x == x' -> near a y x -> near a y x'.
Proof. unfold near. intros E (H1 & H2). rewrite <- E. auto. Qed.

Lemma Qsum_app (l1 l2 : list Q) : Qsum (l1 ++ l2) == Qsum l1 + Qsum l2.
Proof.
  induction l1 as [|q l1 IH]; cbn [app].
  - change (Qsum []) with 0. ring.
  - rewrite !Qsum_cons, IH. ring.
Qed.

Lemma Qsum_perm (l1 l2 : list Q) : Permutation l1 l2 -> Qsum l1 == Qsum l2.
Proof.
  induction 1 as [|q l1 l2 _ IH|q1 q2 l|l1 l2 l3 _ IH1 _ IH2].
  - reflexivity.
  - rewrite !Qsum_cons, IH. reflexivity.
  - rewrite !Qsum_cons. ring.
  - rewrite IH1. exact IH2.
Qed.

(** The exact sum of numbers that are each zero or not too small. *)
Lemma Qsum_low (c : Q) (ps : list (Q * Q)) :
  Forall (fun p => 0 <= snd p /\ near c (fst p) (snd p) /\ low (snd p)) ps ->
  0 <= Qsum (map snd ps) /\ low (Qsum (map snd ps)).
Proof.
  induction 1 as [|p ps (Hp & _ & Hl) _ (IH0 & IHl)].
  - change (Qsum (map snd [])) with 0. split; [lra|left; reflexivity].
  - cbn [map]. rewrite Qsum_cons. split; [lra|].
    apply low_add; assumption.
Qed.

Lemma depth_succ (l r : Binary64.sum_order) :
  inject_Z (Z.of_nat (Binary64.depth (Binary64.Plus l r)))
  == inject_Z (Z.of_nat (Nat.max (Binary64.depth l) (Binary64.depth r))) + 1.
Proof.
  cbn [Binary64.depth]. rewrite Nat2Z.inj_succ. unfold Z.succ.
  rewrite inject_Z_plus. reflexivity.
Qed.

Lemma count_le (n m : nat) :
  (n <= m)%nat -> inject_Z (Z.of_nat n) <= inject_Z (Z.of_nat m).
Proof. intro H. rewrite <- Zle_Qle. lia. Qed.

Lemma count_nonneg (n : nat) : 0 <= inject_Z (Z.of_nat n).
Proof. change 0 with (inject_Z 0). rewrite <- Zle_Qle. lia. Qed.

(** Numbers known up to [c], added in the order [t]: every addition on
    the way from a cell to the sum adds two unit roundoffs to the
    relative error. *)
Lemma order_step (c : Q) (t : Binary64.sum_order) :
  0 <= c ->
  forall ps : list (Q * Q),
    Binary64.cells t = map (fun p => Fin (fst p)) ps ->
    Forall (fun p => 0 <= snd p /\ near c (fst p) (snd p) /\ low (snd p))
           ps ->
    c + 2 * inject_Z (Z.of_nat (Binary64.depth t)) * unit_roundoff
    <= 1 # 2 ->
    Qsum (map snd ps) <= 2 ^ 1000 ->
    exists s,
      Binary64.sum_in t = Fin s
      /\ near (c + 2 * inject_Z (Z.of_nat (Binary64.depth t)) * unit_roundoff)
              s (Qsum (map snd ps)).
Proof.
  intro Hc. pose proof unit_roundoff_bounds as (Hu0 & Hu1).
  induction t as [|x|l IHl r IHr]; intros ps Hcells Hall He Hsum.
  - destruct ps; [|discriminate]. exists 0. split; [reflexivity|].
    change (Qsum (map snd [])) with 0. unfold near. split; lra.
  - destruct ps as [|[y v] [|q ps]]; try discriminate.
    cbn [Binary64.cells map fst] in Hcells. inversion Hcells; subst x.
    exists y. split; [reflexivity|].
    inversion Hall as [|p l (_ & Hn & _) _]; subst. cbn [fst snd] in Hn.
    cbn [Binary64.depth map snd]. rewrite Qsum_cons.
    change (Qsum []) with 0. change (inject_Z (Z.of_nat 0)) with 0.
    apply (near_eq c); [ring|].
    apply (near_eq_x c y v); [ring|exact Hn].
  - cbn [Binary64.cells] in Hcells. symmetry in Hcells.
    apply map_eq_app in Hcells.
    destruct Hcells as (pl & pr & -> & Hl & Hr).
    apply Forall_app in Hall. destruct Hall as (Hall_l & Hall_r).
    destruct (Qsum_low c pl Hall_l) as (Hl0 & Hll).
    destruct (Qsum_low c pr Hall_r) as (Hr0 & Hrl).
    assert (Eapp : Qsum (map snd (pl ++ pr))
                   == Qsum (map snd pl) + Qsum (map snd pr))
      by (rewrite map_app; apply Qsum_app).
    rewrite Eapp in Hsum.
    pose proof (depth_succ l r) as Ed.
    pose proof (count_le _ _ (Nat.le_max_l (Binary64.depth l)
                                           (Binary64.depth r))) as Dl.
    pose proof (count_le _ _ (Nat.le_max_r (Binary64.depth l)
                                           (Binary64.depth r))) as Dr.
    pose proof (count_nonneg (Binary64.depth l)) as Dl0.
    pose proof (count_nonneg (Binary64.depth r)) as Dr0.
    set (dl := inject_Z (Z.of_nat (Binary64.depth l))) in *.
    set (dr := inject_Z (Z.of_nat (Binary64.depth r))) in *.
    set (d := inject_Z (Z.of_nat (Nat.max (Binary64.depth l)
                                          (Binary64.depth r)))) in *.
    set (D := inject_Z (Z.of_nat (Binary64.depth (Binary64.Plus l r)))) in *.
    destruct (IHl pl (eq_sym Hl) Hall_l) as (yl & El & Nl); [nra|lra|].
    destruct (IHr pr (eq_sym Hr) Hall_r) as (yr & Er & Nr); [nra|lra|].
    cbn [Binary64.sum_in]. rewrite El, Er.
    destruct (add_step (c + 2 * d * unit_roundoff)
                yl (Qsum (map snd pl)) yr (Qsum (map snd pr)))
      as (y & Ey & Ny); try assumption.
    + nra.
    + nra.
    + apply (near_weaken (c + 2 * dl * unit_roundoff)); [exact Hl0|nra|].
      exact Nl.
    + apply (near_weaken (c + 2 * dr * unit_roundoff)); [exact Hr0|nra|].
      exact Nr.
    + apply low_safe; [apply low_add; assumption|exact Hsum].
    + exists y. split; [exact Ey|].
      apply (near_eq (c + 2 * d * unit_roundoff + 2 * unit_roundoff));
        [rewrite Ed; ring|].
      apply (near_eq_x _ _ _ _ (Qeq_sym _ _ Eapp)). exact Ny.
Qed.

(** The same for a way of adding that is [additive]: whatever the order,
    the relative error grows by at most two unit roundoffs a cell. *)
Lemma sum_step (sum : list num -> num) (c : Q) (ps : list (Q * Q)) :
  Binary64.additive sum ->
  0 <= c ->
  Forall (fun p => 0 <= snd p /\ near c (fst p) (snd p) /\ low (snd p)) ps ->
  c + 2 * inject_Z (Z.of_nat (List.length ps)) * unit_roundoff <= 1 # 2 ->
  Qsum (map snd ps) <= 2 ^ 1000 ->
  exists s,
    sum (map (fun p => Fin (fst p)) ps) = Fin s
    /\ near (c + 2 * inject_Z (Z.of_nat (List.length ps)) * unit_roundoff)
            s (Qsum (map snd ps)).
Proof.
  intros Hsum Hc Hall He Hhi.
  pose proof unit_roundoff_bounds as (Hu0 & Hu1).
  destruct (Hsum (map (fun p => Fin (fst p)) ps)) as (t & Hperm & Hd & ->).
  rewrite length_map in Hd.
  apply Permutation_map_inv in Hperm.
  destruct Hperm as (ps' & Hcells & Hperm).
  assert (Hall' : Forall (fun p => 0 <= snd p /\ near c (fst p) (snd p)
                                   /\ low (snd p)) ps')
    by (eapply Permutation_Forall; [exact Hperm|exact Hall]).
  assert (Esum : Qsum (map snd ps') == Qsum (map snd ps)).
  { apply Qsum_perm, Permutation_map, Permutation_sym, Hperm. }
  pose proof (count_le _ _ Hd) as Hdq.
  pose proof (count_nonneg (Binary64.depth t)) as Hd0.
  destruct (Qsum_low c ps Hall) as (H0 & _).
  set (n := inject_Z (Z.of_nat (List.length ps))) in *.
  set (d := inject_Z (Z.of_nat (Binary64.depth t))) in *.
  destruct (order_step c t Hc ps' Hcells Hall') as (s & Es & Ns).
  - fold d. nra.
  - rewrite Esum. exact Hhi.
  - exists s. split; [exact Es|]. fold d in Ns.
    apply (near_eq_x _ _ _ _ Esum) in Ns.
    apply (near_weaken (c + 2 * d * unit_roundoff)); [exact H0|nra|exact Ns].
Qed.

(** Adding the cells one after the other is one of these ways. *)
Lemma total_order (l : list num) (t : Binary64.sum_order) :
  fold_left Binary64.add l (Binary64.sum_in t)
  = Binary64.sum_in
      (fold_left (fun t x => Binary64.Plus t (Binary64.Cell x)) l t)
  /\ Binary64.cells
       (fold_left (fun t x => Binary64.Plus t (Binary64.Cell x)) l t)
     = Binary64.cells t ++ l
  /\ Binary64.depth
       (fold_left (fun t x => Binary64.Plus t (Binary64.Cell x)) l t)
     = (Binary64.depth t + List.length l)%nat.
Proof.
  revert t. induction l as [|x l IH]; intro t; cbn [fold_left List.length].
  - rewrite app_nil_r, Nat.add_0_r. repeat split.
  - destruct (IH (Binary64.Plus t (Binary64.Cell x))) as (E1 & E2 & E3).
    cbn [Binary64.sum_in] in E1. rewrite E1, E2, E3.
    cbn [Binary64.cells Binary64.depth]. rewrite <- app_assoc.
    rewrite Nat.max_0_r. repeat split. lia.
Qed.

Lemma total_additive : Binary64.additive Binary64.total.
Proof.
  intro col.
  destruct (total_order col Binary64.Start) as (E1 & E2 & E3).
  exists (fold_left (fun t x => Binary64.Plus t (Binary64.Cell x)) col
                    Binary64.Start).
  rewrite E2, E3. cbn [Binary64.cells Binary64.depth app].
  split; [apply Permutation_refl|]. split; [lia|exact E1].
Qed.

Lemma num_div_pos (y d : Q) :
  0 < d -> num_div (Fin y) (Fin d) = Fin (Qred (y / d)).
Proof.
  intro Hd. unfold num_div.
  destruct (d ?= 0) eqn:E; try reflexivity.
  apply Qeq_alt in E. rewrite E in Hd. exfalso. exact (Qlt_irrefl 0 Hd).
Qed.

Lemma div_step (a y x d : Q) :
  0 < d -> 0 <= x -> 0 <= a -> a <= 1 # 2 ->
  near a y x -> safe (x / d) ->
  exists z, Binary64.div (Fin y) (Fin d) = Fin z
            /\ near (a + 2 * unit_roundoff) z (x / d).
Proof.
  intros Hd Hx Ha Ha2 Hn Hs.
  unfold Binary64.div. rewrite (num_div_pos y d Hd). cbn [Binary64.round].
  assert (Hinv : 0 <= / d) by (apply Qlt_le_weak, Qinv_lt_0_compat; exact Hd).
  apply round_step; try assumption.
  - unfold Qdiv. apply Qmult_le_0_compat; assumption.
  - unfold near. rewrite Qred_correct. unfold Qdiv.
    apply near_scale; assumption.
Qed.

(** Division by a number known up to [b]. *)
Lemma near_divisor (b v m mu : Q) :
  0 <= v -> 0 < mu -> 0 <= b -> b <= 1 # 2 -> near b m mu ->
  0 < m /\ near (2 * b) (v / m) (v / mu).
Proof.
  intros Hv Hmu Hb Hb2 (H1 & H2).
  assert (Hm : 0 < m) by nra.
  split; [exact Hm|].
  set (w := v / mu).
  assert (Ew : v == w * mu) by (unfold w; field; lra).
  assert (Hw : 0 <= w).
  { unfold w, Qdiv. apply Qmult_le_0_compat; [exact Hv|].
    apply Qlt_le_weak, Qinv_lt_0_compat. exact Hmu. }
  unfold near. split.
  - apply Qle_shift_div_l; [exact Hm|]. rewrite Ew.
    assert (Hwm : 0 <= w * mu) by (apply Qmult_le_0_compat; lra).
    assert (K : w * (1 - 2 * b) * m <= w * (1 - 2 * b) * (mu * (1 + b))).
    { rewrite (Qmult_comm (w * (1 - 2 * b)) m),
        (Qmult_comm (w * (1 - 2 * b)) (mu * (1 + b))).
      apply Qmult_le_compat_r; [exact H2|].
      apply Qmult_le_0_compat; lra. }
    assert (K2 : w * (1 - 2 * b) * (mu * (1 + b))
                 == w * mu - w * mu * (b + 2 * b * b)) by ring.
    assert (K3 : 0 <= w * mu * (b + 2 * b * b)).
    { apply Qmult_le_0_compat; [exact Hwm|]. nra. }
    lra.
  - apply Qle_shift_div_r; [exact Hm|]. rewrite Ew.
    assert (Hwm : 0 <= w * mu) by (apply Qmult_le_0_compat; lra).
    assert (K : w * (1 + 2 * b) * (mu * (1 - b)) <= w * (1 + 2 * b) * m).
    { rewrite (Qmult_comm (w * (1 + 2 * b)) m),
        (Qmult_comm (w * (1 + 2 * b)) (mu * (1 - b))).
      apply Qmult_le_compat_r; [exact H1|].
      apply Qmult_le_0_compat; lra. }
    assert (K2 : w * (1 + 2 * b) * (mu * (1 - b))
                 == w * mu + w * mu * (b - 2 * b * b)) by ring.
    assert (K3 : 0 <= w * mu * (b - 2 * b * b)).
    { apply Qmult_le_0_compat; [exact Hwm|]. nra. }
    lra.
Qed.

Lemma div_near_step (b v m mu : Q) :
  0 <= v -> 0 < mu -> 0 <= b -> b <= 1 # 4 ->
  near b m mu -> safe (v / mu) ->
  exists z, Binary64.div (Fin v) (Fin m) = Fin z
            /\ near (2 * b + 2 * unit_roundoff) z (v / mu).
Proof.
  intros Hv Hmu Hb Hb4 Hn Hs.
  destruct (near_divisor b v m mu Hv Hmu Hb ltac:(lra) Hn) as (Hm & Hd).
  unfold Binary64.div. rewrite (num_div_pos v m Hm). cbn [Binary64.round].
  apply round_step; try assumption.
  - unfold Qdiv. apply Qmult_le_0_compat; [exact Hv|].
    apply Qlt_le_weak, Qinv_lt_0_compat. exact Hmu.
  - lra.
  - lra.
  - unfold near. rewrite Qred_correct. exact Hd.
Qed.

Lemma mul_step (a y x c : Q) :
  0 <= c -> 0 <= x -> 0 <= a -> a <= 1 # 2 ->
  near a y x -> safe (x * c) ->
  exists z, Binary64.mul (Fin y) (Fin c) = Fin z
            /\ near (a + 2 * unit_roundoff) z (x * c).
Proof.
  intros Hc Hx Ha Ha2 Hn Hs.
  unfold Binary64.mul. cbn [num_mul Binary64.round].
  apply round_step; try assumption.
  - apply Qmult_le_0_compat; assumption.
  - unfold near. rewrite Qred_correct. apply near_scale; assumption.
Qed.

Lemma ordinary_values (vs : list Q) :
  forallb ordinary_value (map Fin vs) = true ->
  Forall (fun v => v == 0 \/ (vlo <= v /\ v <= vhi)) vs.
Proof.
  induction vs as [|v vs IH]; intro H; [constructor|].
  cbn [map forallb] in H. apply andb_prop in H. destruct H as (Hv & H).
  constructor; [|apply IH; exact H].
  cbn [ordinary_value] in Hv. apply orb_prop in Hv.
  destruct Hv as [Hv|Hv].
  - left. apply Qeq_bool_iff. exact Hv.
  - right. apply andb_prop in Hv. destruct Hv as (H1 & H2).
    apply Qleb_le in H1, H2. split; assumption.
Qed.

Lemma ordinary_nonzero (vs : list Q) :
  existsb nonzero_finite (map Fin vs) = true ->
  exists v, In v vs /\ ~ v == 0.
Proof.
  induction vs as [|v vs IH]; intro H; [discriminate|].
  cbn [map existsb] in H. apply orb_prop in H. destruct H as [H|H].
  - exists v. split; [left; reflexivity|].
    cbn [nonzero_finite] in H. apply negb_true_iff in H.
    intro E. apply Qeq_bool_iff in E. congruence.
  - destruct (IH H) as (w & Hw & Hnz). exists w. split; [right|]; assumption.
Qed.

Lemma values_nonneg (vs : list Q) :
  Forall (fun v => v == 0 \/ (vlo <= v /\ v <= vhi)) vs ->
  Forall (fun v => 0 <= v) vs.
Proof.
  intro H. eapply Forall_impl; [|exact H]. cbn beta.
  intros v [E|(H1 & _)]; [lra|].
  assert (0 < vlo) by reflexivity. lra.
Qed.

Lemma Qsum_nonneg_all (vs : list Q) :
  Forall (fun v => 0 <= v) vs -> 0 <= Qsum vs.
Proof.
  induction 1 as [|v vs Hv _ IH]; [change (Qsum []) with 0; lra|].
  rewrite Qsum_cons. lra.
Qed.

Lemma Qsum_ge (vs : list Q) (v : Q) :
  Forall (fun v => 0 <= v) vs -> In v vs -> v <= Qsum vs.
Proof.
  induction 1 as [|w vs Hw Hvs IH]; intro Hin; [destruct Hin|].
  rewrite Qsum_cons. pose proof (Qsum_nonneg_all vs Hvs).
  destruct Hin as [->|Hin]; [lra|]. specialize (IH Hin). lra.
Qed.

Lemma Qsum_le (vs : list Q) (h : Q) :
  Forall (fun v => v <= h) vs ->
  Qsum vs <= inject_Z (Z.of_nat (List.length vs)) * h.
Proof.
  induction 1 as [|v vs Hv _ IH].
  - change (Qsum []) with 0. cbn [List.length].
    change (inject_Z (Z.of_nat 0)) with 0. lra.
  - rewrite Qsum_cons. cbn [List.length].
    rewrite Nat2Z.inj_succ. unfold Z.succ. rewrite inject_Z_plus.
    change (inject_Z 1) with 1. lra.
Qed.

(** ** A column of ordinary values *)

Section Column.
Variable vs : list Q.
Hypothesis ordinary_vs :
  Forall (fun v => v == 0 \/ (vlo <= v /\ v <= vhi)) vs.
Hypothesis nonzero_vs : exists v, In v vs /\ ~ v == 0.
Hypothesis short_vs : (Z.of_nat (List.length vs) <= 2 ^ 20)%Z.

Let n : Q := inject_Z (Z.of_nat (List.length vs)).
Let S : Q := Qsum vs.
Let mu : Q := S / n.

Lemma column_n : 1 <= n /\ n <= inject_Z (2 ^ 20).
Proof.
  unfold n. split.
  - destruct nonzero_vs as (v & Hin & _).
    destruct vs as [|w l]; [destruct Hin|].
    cbn [List.length]. rewrite Nat2Z.inj_succ. unfold Z.succ.
    rewrite inject_Z_plus. change (inject_Z 1) with 1.
    assert (0 <= inject_Z (Z.of_nat (List.length l))).
    { change 0 with (inject_Z 0). rewrite <- Zle_Qle. lia. }
    lra.
  - rewrite <- Zle_Qle. exact short_vs.
Qed.

Lemma column_S : vlo <= S /\ S <= n * vhi.
Proof.
  pose proof (values_nonneg vs ordinary_vs) as Hnn.
  split.
  - destruct nonzero_vs as (v & Hin & Hv).
    pose proof (Qsum_ge vs v Hnn Hin) as Hge.
    rewrite Forall_forall in ordinary_vs.
    destruct (ordinary_vs v Hin) as [E|(H1 & _)]; [contradiction|].
    unfold S. lra.
  - unfold S, n. apply Qsum_le.
    eapply Forall_impl; [|exact ordinary_vs]. cbn beta.
    intros v [E|(_ & H2)]; [|exact H2].
    assert (0 < vhi) by reflexivity. lra.
Qed.

Lemma column_mu : vlo / inject_Z (2 ^ 20) <= mu /\ mu <= vhi /\ 0 < mu.
Proof.
  destruct column_n as (Hn1 & Hn2). destruct column_S as (HS1 & HS2).
  assert (Hn : 0 < n) by lra.
  assert (Hlo : 0 < vlo) by reflexivity.
  assert (HN : 0 < inject_Z (2 ^ 20)) by reflexivity.
  assert (H1 : vlo / inject_Z (2 ^ 20) <= mu).
  { unfold mu. apply Qle_shift_div_l; [exact Hn|].
    apply Qle_trans with vlo; [|exact HS1].
    assert (E : vlo / inject_Z (2 ^ 20) * n
                == vlo * (n / inject_Z (2 ^ 20))) by (field; lra).
    rewrite E. rewrite <- (Qmult_1_r vlo) at 2.
    apply Qmult_le_l; [exact Hlo|].
    apply Qle_shift_div_r; [exact HN|]. lra. }
  split; [exact H1|]. split.
  - unfold mu. apply Qle_shift_div_r; [exact Hn|]. lra.
  - eapply Qlt_le_trans; [|exact H1]. reflexivity.
Qed.

End Column.

Lemma filter_notna_fin_all (qs : list Q) :
  filter notna (map Fin qs) = map Fin qs.
Proof.
  induction qs as [|q qs IH]; [reflexivity|].
  cbn [map filter notna]. rewrite IH. reflexivity.
Qed.

Lemma mean_by_fin (sum : list num -> num) (qs : list Q) :
  qs <> [] ->
  Binary64.mean_by sum (map Fin qs)
  = Binary64.div (sum (map Fin qs))
      (Fin (inject_Z (Z.of_nat (List.length qs)))).
Proof.
  intro H. unfold Binary64.mean_by. rewrite filter_notna_fin_all.
  destruct qs as [|q qs]; [contradiction|].
  cbn [map]. change (Fin q :: map Fin qs) with (map Fin (q :: qs)).
  rewrite length_map. reflexivity.
Qed.

(** The budget of relative errors, for a column of at most [2^20]
    cells. *)
Lemma budget (n : Q) :
  0 <= n -> n <= inject_Z (2 ^ 20) ->
  0 <= n * unit_roundoff /\ n * unit_roundoff <= 1 # 8589934592.
Proof.
  intros H0 H1. pose proof unit_roundoff_bounds as (Hu0 & _).
  split; [apply Qmult_le_0_compat; lra|].
  apply Qle_trans with (inject_Z (2 ^ 20) * unit_roundoff).
  - apply Qmult_le_compat_r; lra.
  - vm_compute. discriminate.
Qed.

Section Cells.
Variables (b m mu : Q).
Hypothesis mu_lo : vlo / inject_Z (2 ^ 20) <= mu.
Hypothesis mu_hi : mu <= vhi.
Hypothesis b_lo : 0 <= b.
Hypothesis b_hi : b <= 1 # 8.
Hypothesis m_near : near b m mu.

Lemma cell_exact (v : Q) :
  v == 0 \/ (vlo <= v /\ v <= vhi) ->
  0 <= v / mu * 100
  /\ low (v / mu * 100)
  /\ safe (v / mu) /\ safe (v / mu * 100)
  /\ v / mu * 100 <= inject_Z (2 ^ 430).
Proof.
  assert (Hmu : 0 < mu).
  { eapply Qlt_le_trans; [|exact mu_lo]. reflexivity. }
  intros [E|(H1 & H2)].
  - assert (E1 : v / mu == 0) by (rewrite E; field; lra).
    assert (E2 : v / mu * 100 == 0) by (rewrite E1; ring).
    split; [lra|]. split; [left; exact E2|].
    split; [left; exact E1|]. split; [left; exact E2|].
    rewrite E2. discriminate.
  - assert (Hlo : vlo / vhi <= v / mu).
    { apply Qle_shift_div_l; [exact Hmu|].
      apply Qle_trans with vlo; [|exact H1].
      assert (E : vlo / vhi * mu == vlo * (mu / vhi))
        by (field; discriminate).
      rewrite E. rewrite <- (Qmult_1_r vlo) at 2.
      apply Qmult_le_l; [reflexivity|].
      apply Qle_shift_div_r; [reflexivity|]. lra. }
    assert (Hhi : v / mu <= vhi * inject_Z (2 ^ 20) / vlo).
    { apply Qle_shift_div_r; [exact Hmu|].
      apply Qle_trans with vhi; [exact H2|].
      assert (E : vhi * inject_Z (2 ^ 20) / vlo * mu
                  == vhi * (mu / (vlo / inject_Z (2 ^ 20))))
        by (field; split; discriminate).
      rewrite E. rewrite <- (Qmult_1_r vhi) at 1.
      apply Qmult_le_l; [reflexivity|].
      apply Qle_shift_div_l; [reflexivity|]. lra. }
    assert (C1 : 2 ^ (-1000) <= vlo / vhi) by (vm_compute; discriminate).
    assert (C2 : vhi * inject_Z (2 ^ 20) / vlo <= 2 ^ 1000 * (1 # 100))
      by (vm_compute; discriminate).
    assert (C3 : 0 < vlo / vhi) by reflexivity.
    assert (C4 : vhi * inject_Z (2 ^ 20) / vlo * 100 <= inject_Z (2 ^ 430))
      by (vm_compute; discriminate).
    assert (C5 : 0 < 2 ^ 1000) by reflexivity.
    unfold low, safe.
    set (k1 := vlo / vhi) in *.
    set (k2 := vhi * inject_Z (2 ^ 20) / vlo) in *.
    set (p1 := 2 ^ (-1000)) in *. set (p2 := 2 ^ 1000) in *.
    set (p3 := inject_Z (2 ^ 430)) in *.
    set (w := v / mu) in *.
    clearbody k1 k2 p1 p2 p3 w.
    split; [lra|]. split; [right; lra|].
    split; [right; split; lra|]. split; [right; split; lra|]. lra.
Qed.

Lemma cell_step (v : Q) :
  v == 0 \/ (vlo <= v /\ v <= vhi) ->
  exists y,
    Binary64.mul (Binary64.div (Fin v) (Fin m)) (Fin 100) = Fin y
    /\ near (2 * b + 4 * unit_roundoff) y (v / mu * 100).
Proof.
  intro Hv.
  assert (Hmu : 0 < mu).
  { eapply Qlt_le_trans; [|exact mu_lo]. reflexivity. }
  destruct (cell_exact v Hv) as (H0 & _ & Hs1 & Hs2 & _).
  assert (Hv0 : 0 <= v).
  { destruct Hv as [E|(H1 & _)]; [lra|].
    assert (0 < vlo) by reflexivity. lra. }
  pose proof unit_roundoff_bounds as (Hu0 & _).
  assert (Hu8 : unit_roundoff <= 1 # 16) by (vm_compute; discriminate).
  destruct (div_near_step b v m mu Hv0 Hmu b_lo ltac:(lra) m_near Hs1)
    as (z & Hz & Hzn).
  rewrite Hz.
  assert (Hw : 0 <= v / mu).
  { unfold Qdiv. apply Qmult_le_0_compat; [exact Hv0|].
    apply Qlt_le_weak, Qinv_lt_0_compat. exact Hmu. }
  destruct (mul_step (2 * b + 2 * unit_roundoff) z (v / mu) 100)
    as (y & Hy & Hyn); try assumption; try lra.
  exists y. split; [exact Hy|].
  apply (near_eq (2 * b + 2 * unit_roundoff + 2 * unit_roundoff));
    [ring|exact Hyn].
Qed.

Lemma cells_step (vs : list Q) :
  Forall (fun v => v == 0 \/ (vlo <= v /\ v <= vhi)) vs ->
  exists ps : list (Q * Q),
    map (fun x => Binary64.mul (Binary64.div x (Fin m)) (Fin 100))
        (map Fin vs)
    = map (fun p => Fin (fst p)) ps
    /\ map snd ps = map (fun v => v / mu * 100) vs
    /\ Forall (fun p => 0 <= snd p
                        /\ near (2 * b + 4 * unit_roundoff) (fst p) (snd p)
                        /\ low (snd p)) ps.
Proof.
  induction 1 as [|v vs Hv _ (ps & E1 & E2 & Hall)].
  - exists []. repeat split. constructor.
  - destruct (cell_step v Hv) as (y & Hy & Hyn).
    destruct (cell_exact v Hv) as (H0 & Hl & _).
    exists ((y, v / mu * 100) :: ps). cbn [map fst snd].
    rewrite Hy, E1, E2. repeat split.
    constructor; [|exact Hall]. cbn [fst snd]. auto.
Qed.

End Cells.

Lemma Qsum_percent (vs : list Q) (mu : Q) :
  Qsum (map (fun v => v / mu * 100) vs) == Qsum vs / mu * 100.
Proof.
  induction vs as [|v vs IH].
  - change (Qsum (map _ [])) with 0. change (Qsum []) with 0.
    unfold Qdiv. ring.
  - cbn [map]. rewrite !Qsum_cons, IH. unfold Qdiv. ring.
Qed.

Lemma Qsum_near (c : Q) (ps : list (Q * Q)) :
  Forall (fun p => 0 <= snd p /\ near c (fst p) (snd p) /\ low (snd p)) ps ->
  near c (Qsum (map fst ps)) (Qsum (map snd ps)).
Proof.
  induction 1 as [|p ps (_ & Hp & _) _ IH].
  - change (Qsum (map fst [])) with 0. change (Qsum (map snd [])) with 0.
    unfold near. split; lra.
  - cbn [map]. rewrite !Qsum_cons. apply near_add; assumption.
Qed.

(** The mean of a column of ordinary values, and the mean of the column
    divided by it and multiplied by 100, in binary64, whatever the order
    of the additions: the second mean is 100 up to a millionth, and so is
    the exact mean of the cells of the second column. *)
Lemma column_mean_near (sum : list num -> num) (vs : list Q) :
  Binary64.additive sum ->
  ordinary (map Fin vs) = true ->
  exists m,
    Binary64.mean_by sum (map Fin vs) = Fin m
    /\ exists m',
         Binary64.mean_by sum
           (map (fun x => Binary64.mul (Binary64.div x (Fin m)) (Fin 100))
                (map Fin vs))
         = Fin m'
         /\ 100 - (1 # 1000000) <= m' /\ m' <= 100 + (1 # 1000000)
         /\ exists y ys,
              map (fun x => Binary64.mul (Binary64.div x (Fin m)) (Fin 100))
                  (map Fin vs)
              = map Fin (y :: ys)
              /\ 100 - (1 # 1000000)
                 <= Qsum (y :: ys)
                    / inject_Z (Z.of_nat (List.length (y :: ys)))
              /\ Qsum (y :: ys)
                 / inject_Z (Z.of_nat (List.length (y :: ys)))
                 <= 100 + (1 # 1000000).
Proof.
  unfold ordinary. intros Hadd H.
  apply andb_prop in H. destruct H as (H & Hex).
  apply andb_prop in H. destruct H as (Hlen & Hall).
  apply Z.leb_le in Hlen. rewrite length_map in Hlen.
  pose proof (ordinary_values vs Hall) as Hord.
  pose proof (ordinary_nonzero vs Hex) as Hnz.
  pose proof (column_n vs Hord Hnz Hlen) as (Hn1 & Hn2).
  pose proof (column_S vs Hord Hnz) as (HS1 & HS2).
  pose proof (column_mu vs Hord Hnz Hlen) as (Hmu1 & Hmu2 & Hmu0).
  set (n := inject_Z (Z.of_nat (List.length vs))) in *.
  set (S := Qsum vs) in *.
  set (mu := S / n) in *.
  pose proof unit_roundoff_bounds as (Hu0 & _).
  assert (Hu : unit_roundoff <= 1 # 9007199254740992)
    by (vm_compute; discriminate).
  destruct (budget n ltac:(lra) Hn2) as (Ht0 & Ht1).
  assert (Hne : vs <> []).
  { destruct Hnz as (v & Hin & _). intro E. rewrite E in Hin. destruct Hin. }
  pose proof (values_nonneg vs Hord) as Hnn.
  assert (Hvlo : 0 < vlo) by reflexivity.
  (* the sum of the column *)
  destruct (sum_step sum 0 (map (fun v => (v, v)) vs) Hadd ltac:(lra))
    as (s & Hs & Hsn).
  { apply Forall_forall. intros p Hp. apply in_map_iff in Hp.
    destruct Hp as (v & <- & Hv). cbn [fst snd].
    rewrite Forall_forall in Hord, Hnn.
    split; [apply Hnn; exact Hv|]. split; [apply near_exact|].
    destruct (Hord v Hv) as [E|(H1 & _)]; [left; exact E|right].
    apply Qle_trans with vlo; [|exact H1]. vm_compute. discriminate. }
  { rewrite length_map. fold n. lra. }
  { rewrite map_map. cbn [snd]. rewrite map_id. fold S.
    apply Qle_trans with (n * vhi); [lra|].
    apply Qle_trans with (inject_Z (2 ^ 20) * vhi).
    - apply Qmult_le_compat_r; [exact Hn2|discriminate].
    - vm_compute. discriminate. }
  rewrite map_map in Hs. cbn [fst] in Hs.
  change (map (fun x : Q => Fin x) vs) with (map Fin vs) in Hs.
  rewrite length_map in Hsn. rewrite map_map in Hsn. cbn [snd] in Hsn.
  rewrite map_id in Hsn. fold n S in Hsn.
  (* its mean *)
  rewrite (mean_by_fin sum vs Hne), Hs.
  fold n.
  destruct (div_step (0 + 2 * n * unit_roundoff) s S n) as (m & Hm & Hmn);
    try lra; try exact Hsn.
  { right. fold mu. split.
    - apply Qle_trans with (vlo / inject_Z (2 ^ 20)); [|exact Hmu1].
      vm_compute. discriminate.
    - apply Qle_trans with vhi; [exact Hmu2|]. vm_compute. discriminate. }
  exists m. split; [exact Hm|].
  set (b := 2 * n * unit_roundoff + 2 * unit_roundoff).
  assert (Hb : near b m mu).
  { apply (near_eq (0 + 2 * n * unit_roundoff + 2 * unit_roundoff));
      [unfold b; ring|exact Hmn]. }
  assert (Hb0 : 0 <= b) by (unfold b; lra).
  assert (Hb8 : b <= 1 # 8).
  { unfold b.
    assert (C : 2 * (1 # 8589934592) + 2 * (1 # 9007199254740992) <= 1 # 8)
      by (vm_compute; discriminate). lra. }
  (* the cells *)
  destruct (cells_step b m mu Hmu1 Hmu2 Hb0 Hb8 Hb vs Hord)
    as (ps & E1 & E2 & Hps).
  rewrite E1.
  assert (Elen : List.length ps = List.length vs).
  { rewrite <- (length_map snd ps), E2, length_map. reflexivity. }
  assert (Hps_ne : map fst ps <> []).
  { intro E. apply (f_equal (@List.length Q)) in E.
    rewrite length_map, Elen in E. destruct vs; [contradiction|].
    discriminate. }
  assert (Efst : map (fun p : Q * Q => Fin (fst p)) ps
                 = map Fin (map fst ps)) by (rewrite map_map; reflexivity).
  pose proof (Qsum_near _ _ Hps) as Hexact.
  rewrite Efst, (mean_by_fin sum (map fst ps) Hps_ne).
  rewrite <- Efst.
  rewrite length_map, Elen. fold n.
  set (c := 2 * b + 4 * unit_roundoff) in *.
  assert (Hc0 : 0 <= c) by (unfold c; lra).
  assert (Esum : Qsum (map snd ps) == n * 100).
  { rewrite E2, Qsum_percent. fold S. unfold mu. field. split; lra. }
  assert (Hbudget : c + 2 * n * unit_roundoff <= 1 # 2).
  { unfold c, b.
    assert (C : 2 * (2 * (1 # 8589934592) + 2 * (1 # 9007199254740992))
                + 4 * (1 # 9007199254740992) + 2 * (1 # 8589934592) <= 1 # 2)
      by (vm_compute; discriminate). lra. }
  destruct (sum_step sum c ps Hadd Hc0 Hps) as (s' & Hs' & Hsn').
  { rewrite Elen. fold n. exact Hbudget. }
  { rewrite Esum. apply Qle_trans with (inject_Z (2 ^ 20) * 100); [lra|].
    vm_compute. discriminate. }
  rewrite Hs'. rewrite Elen in Hsn'. fold n in Hsn'.
  assert (E100 : Qsum (map snd ps) / n == 100)
    by (rewrite Esum; field; lra).
  destruct (div_step (c + 2 * n * unit_roundoff) s' (Qsum (map snd ps)) n)
    as (m' & Hm' & Hmn'); try lra; try exact Hsn'.
  { right. rewrite E100. split; vm_compute; discriminate. }
  exists m'. split; [exact Hm'|].
  apply (near_eq_x _ _ _ _ E100) in Hmn'.
  destruct Hmn' as (K1 & K2). unfold c, b in K1, K2.
  assert (C : 100 * (2 * (2 * (1 # 8589934592) + 2 * (1 # 9007199254740992))
                     + 4 * (1 # 9007199254740992) + 2 * (1 # 8589934592)
                     + 2 * (1 # 9007199254740992)) <= 1 # 1000000)
    by (vm_compute; discriminate).
  split; [lra|]. split; [lra|].
  destruct (map fst ps) as [|y ys] eqn:Eys; [contradiction|].
  exists y, ys. split; [rewrite Efst; reflexivity|].
  assert (Ely : inject_Z (Z.of_nat (List.length (y :: ys))) == n).
  { rewrite <- Eys, length_map, Elen. reflexivity. }
  rewrite Ely.
  apply (near_scale _ _ _ (/ n)) in Hexact;
    [|apply Qlt_le_weak, Qinv_lt_0_compat; lra].
  assert (E100' : Qsum (map snd ps) * / n == 100)
    by (rewrite Esum; field; lra).
  apply (near_eq_x _ _ _ _ E100') in Hexact.
  destruct Hexact as (X1 & X2). unfold c, b in X1, X2.
  unfold Qdiv. split; lra.
Qed.

(** ** Normalisation in binary64 *)

Lemma binary64_normalize_values_eq (sum : list num -> num)
    (self : TradeAnalyzer) (df : DataFrame) :
  merged_df self = Some df ->
  col_in "perceived_value" (columns df) = true ->
  col_in "forecasted_value" (columns df) = true ->
  exists df',
    Binary64.normalize_values_by sum self = Ok (df', set_merged_df df' self)
    /\ map perceived_normalized (rows df')
       = map (fun x =>
                Binary64.mul
                  (Binary64.div x
                     (Binary64.mean_by sum (map perceived_value (rows df))))
                  (Fin 100))
             (map perceived_value (rows df))
    /\ map forecasted_normalized (rows df')
       = map (fun x =>
                Binary64.mul
                  (Binary64.div x
                     (Binary64.mean_by sum (map forecasted_value (rows df))))
                  (Fin 100))
             (map forecasted_value (rows df)).
Proof.
  intros Hm Hp Hf. unfold Binary64.normalize_values_by, require.
  rewrite Hm, Hp, Hf.
  cbn [bind]. eexists. split; [reflexivity|].
  cbn [rows]. rewrite !map_map. split; reflexivity.
Qed.

Lemma ordinary_fin (col : list num) :
  forallb ordinary_value col = true -> exists vs, col = map Fin vs.
Proof.
  induction col as [|x col IH]; intro H; [exists []; reflexivity|].
  cbn [forallb] in H. apply andb_prop in H. destruct H as (Hx & H).
  destruct (IH H) as (vs & ->).
  destruct x as [v| | |]; try discriminate.
  exists (v :: vs). reflexivity.
Qed.

Lemma approx_millionth (m : Q) :
  100 - (1 # 1000000) <= m -> m <= 100 + (1 # 1000000) ->
  approx millionth (Fin m) (Fin 100) = true.
Proof.
  intros H1 H2. unfold approx, millionth.
  cbn [num_sub num_abs num_le]. apply Qleb_le.
  rewrite Qred_correct. apply Qabs_Qle_condition.
  rewrite Qred_correct. split; lra.
Qed.

(** A column of ordinary values divided by its mean and multiplied by
    100, in binary64: the mean of the result, computed in binary64 with
    the additions in any order, is 100 up to a millionth, and so is the
    exact mean of its cells. *)
Lemma normalized_column_near (sum : list num -> num) (col : list num) :
  Binary64.additive sum ->
  ordinary col = true ->
  approx millionth
    (Binary64.mean_by sum
       (map (fun x =>
               Binary64.mul (Binary64.div x (Binary64.mean_by sum col))
                            (Fin 100))
            col))
    (Fin 100) = true
  /\ approx millionth
       (mean
          (map (fun x =>
                  Binary64.mul (Binary64.div x (Binary64.mean_by sum col))
                               (Fin 100))
               col))
       (Fin 100) = true.
Proof.
  intros Hadd Hord.
  assert (Hfin : exists vs, col = map Fin vs).
  { unfold ordinary in Hord. apply andb_prop in Hord.
    destruct Hord as (Hord & _). apply andb_prop in Hord.
    destruct Hord as (_ & Hall). apply ordinary_fin. exact Hall. }
  destruct Hfin as (vs & ->).
  destruct (column_mean_near sum vs Hadd Hord)
    as (m & Hm & m' & Hm' & K1 & K2 & y & ys & Ecol & X1 & X2).
  rewrite Hm, Hm'. split; [apply approx_millionth; assumption|].
  rewrite Ecol.
  destruct (mean_of_fin y ys (map Fin (y :: ys))) as (a & Ea & Eq).
  { apply filter_notna_fin_all. }
  rewrite Ea. apply approx_millionth; rewrite Qred_correct, Eq; assumption.
Qed.

(** C1.  After a merge that succeeds, [normalize_values] returns, with
    the additions of a sum in any order.  When the merged
    [perceived_value] column has at most [2^20] cells, each of them zero
    or from [2^-200] to [2^200], and not all of them zero, the mean of
    [perceived_normalized] is 100 up to a millionth: the mean that
    binary64 arithmetic gives, and the exact mean of the cells that it
    gives.  Likewise for [forecasted_normalized] and the
    [forecasted_value] column. *)
Theorem normalized_mean_near_100 (sum : list num -> num)
    (self0 : TradeAnalyzer) df0 self1 :
  Binary64.additive sum ->
  merge_data_sources self0 = Ok (df0, self1) ->
  exists df1 self2,
    Binary64.normalize_values_by sum self1 = Ok (df1, self2)
    /\ (ordinary (map perceived_value (rows df0)) = true ->
        approx millionth
          (Binary64.mean_by sum (map perceived_normalized (rows df1)))
          (Fin 100) = true
        /\ approx millionth
             (mean (map perceived_normalized (rows df1))) (Fin 100) = true)
    /\ (ordinary (map forecasted_value (rows df0)) = true ->
        approx millionth
          (Binary64.mean_by sum (map forecasted_normalized (rows df1)))
          (Fin 100) = true
        /\ approx millionth
             (mean (map forecasted_normalized (rows df1))) (Fin 100) = true).
Proof.
  intros Hadd Hmerge. apply merge_data_sources_inv in Hmerge.
  destruct Hmerge as (_ & Hdf & ->).
  destruct (binary64_normalize_values_eq sum (set_merged_df df0 self0) df0)
    as (df1 & Hnorm & Hp & Hf);
    try (subst df0; reflexivity).
  exists df1, (set_merged_df df1 (set_merged_df df0 self0)).
  split; [exact Hnorm|].
  rewrite Hp, Hf. split; apply normalized_column_near; exact Hadd.
Qed.

Lemma normalized_mean_near_100_witness :
  exists df1 self2,
    Binary64.normalize_values league_merged = Ok (df1, self2)
    /\ approx millionth
         (Binary64.mean (map perceived_normalized (rows df1))) (Fin 100)
       = true
    /\ approx millionth
         (mean (map perceived_normalized (rows df1))) (Fin 100) = true
    /\ approx millionth
         (Binary64.mean (map forecasted_normalized (rows df1))) (Fin 100)
       = true
    /\ approx millionth
         (mean (map forecasted_normalized (rows df1))) (Fin 100) = true.
Proof.
  destruct (normalized_mean_near_100 Binary64.total
              league (merged_table league) league_merged total_additive)
    as (df1 & self2 & Hnorm & Hp & Hf).
  - vm_compute. reflexivity.
  - exists df1, self2. split; [exact Hnorm|].
    destruct Hp as (Hp1 & Hp2); [vm_compute; reflexivity|].
    destruct Hf as (Hf1 & Hf2); [vm_compute; reflexivity|].
    repeat split; assumption.
Defined.

(** The league of the worked example (perceived values 100 and 50): in
    binary64 the mean of [perceived_normalized] is the double just below
    100, [99.99999999999999]. *)
Example league_mean_below_100 :
  exists df1 self2,
    Binary64.normalize_values league_merged = Ok (df1, self2)
    /\ Binary64.mean (map perceived_normalized (rows df1))
       = Fin (7036874417766399 # 70368744177664)
    /\ Binary64.mean (map perceived_normalized (rows df1)) <> Fin 100.
Proof.
  eexists. eexists. split; [vm_compute; reflexivity|].
  split; [vm_compute; reflexivity|].
  vm_compute. discriminate.
Qed.

(** Why the values must not be too large: two perceived values of
    [2^1023] add up to [+inf], every [perceived_normalized] is
    [2^1023 / inf * 100 = 0], and the mean of the column is 0. *)
Example overflowing_mean :
  exists df0 self1 df1 self2,
    merge_data_sources huge_league = Ok (df0, self1)
    /\ map perceived_value (rows df0)
       = [Fin (inject_Z (2 ^ 1023)); Fin (inject_Z (2 ^ 1023))]
    /\ Binary64.mean (map perceived_value (rows df0)) = PInf
    /\ Binary64.normalize_values self1 = Ok (df1, self2)
    /\ Binary64.mean (map perceived_normalized (rows df1)) = Fin 0
    /\ approx millionth
         (Binary64.mean (map perceived_normalized (rows df1))) (Fin 100)
       = false.
Proof.
  eexists. eexists. eexists. eexists.
  split; [vm_compute; reflexivity|].
  split; [vm_compute; reflexivity|].
  split; [vm_compute; reflexivity|].
  split; [vm_compute; reflexivity|].
  split; vm_compute; reflexivity.
Qed.

(** C1 as stated fails when the merged perceived values are all zero: the
    merged set has two rows, their mean perceived value is 0, every
    [perceived_normalized] is [0 / 0], and the mean of the column is
    [NaN], within no distance of 100; in binary64 as over exact
    rationals. *)
Lemma normalized_mean_counterexample :
  exists df0 self1 df1 self2 df1' self2',
    merge_data_sources unpriced_league = Ok (df0, self1)
    /\ List.length (rows df0) = 2%nat
    /\ Binary64.normalize_values self1 = Ok (df1, self2)
    /\ Binary64.mean (map perceived_normalized (rows df1)) = NaN
    /\ (forall eps,
          approx eps (Binary64.mean (map perceived_normalized (rows df1)))
                 (Fin 100)
          = false)
    /\ normalize_values self1 = Ok (df1', self2')
    /\ mean (map perceived_normalized (rows df1')) = NaN
    /\ forall eps,
         approx eps (mean (map perceived_normalized (rows df1'))) (Fin 100)
         = false.
Proof.
  eexists. eexists. eexists. eexists. eexists. eexists.
  split; [vm_compute; reflexivity|].
  split; [reflexivity|].
  split; [vm_compute; reflexivity|].
  split; [vm_compute; reflexivity|].
  split; [intro eps; vm_compute; reflexivity|].
  split; [vm_compute; reflexivity|].
  split; [vm_compute; reflexivity|].
  intro eps. vm_compute. reflexivity.
Qed.

(** * Trade suggestions in binary64 *)

Lemma binary64_pipeline_columns (sum : list num -> num) (cfg : Config)
    (self0 : TradeAnalyzer) df self :
  Binary64.run_pipeline_by sum cfg self0 = Ok (df, self) ->
  merged_df self = Some df /\ columns df = classified_columns.
Proof.
  unfold Binary64.run_pipeline_by. intro H.
  destruct (merge_data_sources self0) as [[df0 self1]|e] eqn:Hm;
    [|discriminate].
  apply merge_data_sources_inv in Hm. destruct Hm as (_ & -> & ->).
  hnf in H. inversion H; subst. split; reflexivity.
Qed.

Lemma binary64_consider_eq (cols : list string) (your_player target : Row) :
  col_in "forecasted_normalized" cols = true ->
  col_in "player_name" cols = true ->
  col_in "position" cols = true ->
  Binary64.consider cols your_player target
  = Ok (if num_gt (Binary64.gain your_player target) (Fin 5)
        then [Binary64.suggestion_of your_player target] else []).
Proof.
  intros Hf Hn Hp. unfold Binary64.consider, require. rewrite Hf, Hn, Hp.
  cbn [bind]. fold (Binary64.gain your_player target).
  destruct (num_gt (Binary64.gain your_player target) (Fin 5)); reflexivity.
Qed.

Lemma binary64_suggest_trade_pairs_eq cfg tolerance self your_team
    max_suggestions df :
  VALUE_MATCH_TOLERANCE cfg = Some tolerance ->
  merged_df self = Some df ->
  columns df = classified_columns ->
  Binary64.suggest_trade_pairs cfg self your_team max_suggestions
  = Ok (Binary64.suggestions_table cfg tolerance df your_team
          max_suggestions).
Proof.
  intros Htol Hm Hc.
  assert (Ht : col_in "team_name" (columns df) = true)
    by (rewrite Hc; reflexivity).
  assert (Hd : col_in "discount_premium" (columns df) = true)
    by (rewrite Hc; reflexivity).
  assert (Hpn : col_in "perceived_normalized" (columns df) = true)
    by (rewrite Hc; reflexivity).
  assert (Hfn : col_in "forecasted_normalized" (columns df) = true)
    by (rewrite Hc; reflexivity).
  assert (Hn : col_in "player_name" (columns df) = true)
    by (rewrite Hc; reflexivity).
  assert (Hp : col_in "position" (columns df) = true)
    by (rewrite Hc; reflexivity).
  unfold Binary64.suggest_trade_pairs, Binary64.suggestions_table.
  destruct (analyze_team_eq cfg self your_team df Hm Ht Hd) as (u & ->).
  rewrite (find_trade_targets_eq cfg self your_team None df Hm Ht Hd Hp Hn).
  cbn [bind columns rows].
  rewrite !(empty_rows _ _ _ Ht).
  set (overvalued := sort_values discount_premium true
                       (filter (is_overvalued_on cfg your_team) (rows df))).
  set (targets := sort_values discount_premium false
                    (filter (is_target cfg your_team None) (rows df))).
  assert (Hloop :
    for_each
      (fun your_player =>
         require (columns df) "perceived_normalized" ;;;
         tolerance <- read_tolerance cfg ;;
         for_each (Binary64.consider (columns df) your_player)
           (head 3 (filter (Binary64.similar_perceived tolerance
                              (perceived_normalized your_player))
                           targets)))
      overvalued
    = Ok (flat_map (Binary64.pairs_for tolerance targets) overvalued)).
  { apply for_each_total. intros y _. unfold require, read_tolerance.
    rewrite Hpn, Htol.
    cbn [bind]. unfold Binary64.pairs_for. apply for_each_total.
    intros t _. apply binary64_consider_eq; assumption. }
  destruct overvalued as [|y ys] eqn:Ho.
  - cbn [orb flat_map]. rewrite sort_values_nil, head_nil. reflexivity.
  - destruct targets as [|t ts] eqn:Htg.
    + simpl orb. cbv iota.
      assert (Hnil : flat_map (Binary64.pairs_for tolerance []) (y :: ys)
                     = []).
      { clear. induction (y :: ys) as [|z zs IH]; [reflexivity|].
        simpl. rewrite IH. reflexivity. }
      rewrite Hnil. rewrite sort_values_nil, head_nil. reflexivity.
    + simpl orb. cbv iota. rewrite Hloop. cbn [bind].
      destruct (flat_map (Binary64.pairs_for tolerance (t :: ts)) (y :: ys));
        [rewrite sort_values_nil, head_nil|]; reflexivity.
Qed.

Lemma binary64_suggestions_table_in cfg tolerance df your_team
    max_suggestions s :
  In s (Binary64.suggestions_table cfg tolerance df your_team
          max_suggestions) ->
  exists give get,
    In give (rows df) /\ In get (rows df)
    /\ is_overvalued_on cfg your_team give = true
    /\ is_target cfg your_team None get = true
    /\ Binary64.similar_perceived tolerance (perceived_normalized give) get
       = true
    /\ num_gt (Binary64.gain give get) (Fin 5) = true
    /\ s = Binary64.suggestion_of give get.
Proof.
  unfold Binary64.suggestions_table. intro H.
  apply head_in in H. apply sort_values_in in H.
  apply in_flat_map in H. destruct H as (give & Hgive & H).
  apply sort_values_in in Hgive. apply filter_In in Hgive.
  destruct Hgive as (Hgive & Hover).
  unfold Binary64.pairs_for in H. apply in_flat_map in H.
  destruct H as (get & Hget & H).
  apply head_in in Hget. apply filter_In in Hget.
  destruct Hget as (Hget & Hsim).
  apply sort_values_in in Hget. apply filter_In in Hget.
  destruct Hget as (Hget & Htarget).
  exists give, get.
  destruct (num_gt (Binary64.gain give get) (Fin 5)) eqn:Hgain.
  - destruct H as [H|[]]. subst s. repeat split; assumption.
  - destruct H.
Qed.

(** Without the attribute: the read is reached when both tables have a
    row, and not otherwise. *)
Lemma binary64_suggest_trade_pairs_unset cfg self your_team max_suggestions
    df :
  VALUE_MATCH_TOLERANCE cfg = None ->
  merged_df self = Some df ->
  columns df = classified_columns ->
  Binary64.suggest_trade_pairs cfg self your_team max_suggestions
  = if existsb (is_overvalued_on cfg your_team) (rows df)
       && existsb (is_target cfg your_team None) (rows df)
    then Err no_tolerance
    else Ok [].
Proof.
  intros Htol Hm Hc.
  assert (Ht : col_in "team_name" (columns df) = true)
    by (rewrite Hc; reflexivity).
  assert (Hd : col_in "discount_premium" (columns df) = true)
    by (rewrite Hc; reflexivity).
  assert (Hpn : col_in "perceived_normalized" (columns df) = true)
    by (rewrite Hc; reflexivity).
  assert (Hn : col_in "player_name" (columns df) = true)
    by (rewrite Hc; reflexivity).
  assert (Hp : col_in "position" (columns df) = true)
    by (rewrite Hc; reflexivity).
  unfold Binary64.suggest_trade_pairs.
  destruct (analyze_team_eq cfg self your_team df Hm Ht Hd) as (u & ->).
  rewrite (find_trade_targets_eq cfg self your_team None df Hm Ht Hd Hp Hn).
  cbn [bind columns rows].
  rewrite !(empty_rows _ _ _ Ht).
  rewrite !sorted_filter_empty.
  destruct (existsb (is_overvalued_on cfg your_team) (rows df)) eqn:Eo;
    [|reflexivity].
  destruct (existsb (is_target cfg your_team None) (rows df)) eqn:Et;
    [|reflexivity].
  cbn [negb orb andb].
  pose proof (sorted_filter_empty (rows df) (is_overvalued_on cfg your_team)
                true) as Ho.
  rewrite Eo in Ho.
  destruct (sort_values discount_premium true
              (filter (is_overvalued_on cfg your_team) (rows df)))
    as [|y ys]; [discriminate|].
  unfold read_tolerance. rewrite Htol.
  rewrite (for_each_raises _ no_tolerance).
  - reflexivity.
  - unfold require. rewrite Hpn. reflexivity.
Qed.

(** C6.  On the table the three stages produce in binary64, the additions
    of a sum in any order, with a tolerance configured,
    [suggest_trade_pairs] returns, and every suggestion it returns pairs
    a row of [your_team] with a row of another team such that the
    perceived value got is at least the perceived value given times
    [1 - tolerance] and at most the perceived value given times
    [1 + tolerance], the two factors and the two products rounded as the
    code rounds them; [value_gain] is the forecasted value got minus the
    forecasted value given, rounded, and [value_gain] is above 5.  With
    the module as it is, which configures no tolerance, the call raises
    [AttributeError] when the team has an overvalued row and there is a
    target, and returns no suggestion otherwise. *)
Theorem trade_match_band (sum : list num -> num) cfg self0 df self
    your_team max_suggestions :
  Binary64.run_pipeline_by sum cfg self0 = Ok (df, self) ->
  match VALUE_MATCH_TOLERANCE cfg with
  | Some tolerance =>
      exists out,
        Binary64.suggest_trade_pairs cfg self your_team max_suggestions
        = Ok out
        /\ forall s, In s out ->
           (exists give get,
               In give (rows df) /\ In get (rows df)
               /\ team_name give = your_team /\ team_name get <> your_team
               /\ give_perceived s = perceived_normalized give
               /\ get_perceived s = perceived_normalized get
               /\ give_forecasted s = forecasted_normalized give
               /\ get_forecasted s = forecasted_normalized get)
           /\ num_ge (get_perceived s)
                     (Binary64.mul (give_perceived s)
                                   (Binary64.sub (Fin 1) tolerance)) = true
           /\ num_le (get_perceived s)
                     (Binary64.mul (give_perceived s)
                                   (Binary64.add (Fin 1) tolerance)) = true
           /\ value_gain s
              = Binary64.sub (get_forecasted s) (give_forecasted s)
           /\ num_gt (value_gain s) (Fin 5) = true
  | None =>
      Binary64.suggest_trade_pairs cfg self your_team max_suggestions
      = if existsb (is_overvalued_on cfg your_team) (rows df)
           && existsb (is_target cfg your_team None) (rows df)
        then Err no_tolerance
        else Ok []
  end.
Proof.
  intro Hrun.
  destruct (binary64_pipeline_columns _ _ _ _ _ Hrun) as (Hm & Hc).
  destruct (VALUE_MATCH_TOLERANCE cfg) as [tolerance|] eqn:Htol.
  - eexists. split.
    + apply (binary64_suggest_trade_pairs_eq _ _ _ _ _ _ Htol Hm Hc).
    + intros s Hs. apply binary64_suggestions_table_in in Hs.
      destruct Hs as (give & get & Hgive & Hget & Hover & Htarget & Hsim
                      & Hgain & ->).
      unfold Binary64.similar_perceived in Hsim. apply andb_prop in Hsim.
      destruct Hsim as (Hlow & Hhigh).
      split; [|split; [|split; [|split]]].
      * exists give, get.
        unfold is_overvalued_on in Hover. apply andb_prop in Hover.
        destruct Hover as (Hteam & _). apply String.eqb_eq in Hteam.
        unfold is_target in Htarget. rewrite !andb_true_iff in Htarget.
        destruct Htarget as (((Hother & _) & _) & _).
        apply negb_true_iff, String.eqb_neq in Hother.
        repeat split; assumption.
      * exact Hlow.
      * exact Hhigh.
      * reflexivity.
      * exact Hgain.
  - exact (binary64_suggest_trade_pairs_unset _ _ your_team max_suggestions
             _ Htol Hm Hc).
Qed.

Lemma trade_match_band_witness :
  exists df self out,
    Binary64.run_pipeline quarter_config quarter_league = Ok (df, self)
    /\ Binary64.suggest_trade_pairs quarter_config self "TeamX" 10 = Ok out
    /\ forall s, In s out ->
       (exists give get,
           In give (rows df) /\ In get (rows df)
           /\ team_name give = "TeamX"%string
           /\ team_name get <> "TeamX"%string
           /\ give_perceived s = perceived_normalized give
           /\ get_perceived s = perceived_normalized get
           /\ give_forecasted s = forecasted_normalized give
           /\ get_forecasted s = forecasted_normalized get)
       /\ num_ge (get_perceived s)
                 (Binary64.mul (give_perceived s)
                               (Binary64.sub (Fin 1) (Fin (1 # 4)))) = true
       /\ num_le (get_perceived s)
                 (Binary64.mul (give_perceived s)
                               (Binary64.add (Fin 1) (Fin (1 # 4)))) = true
       /\ value_gain s = Binary64.sub (get_forecasted s) (give_forecasted s)
       /\ num_gt (value_gain s) (Fin 5) = true.
Proof.
  assert (Hrun : exists df self,
             Binary64.run_pipeline quarter_config quarter_league
             = Ok (df, self)).
  { eexists. eexists. vm_compute. reflexivity. }
  destruct Hrun as (df & self & Hrun).
  exists df, self.
  destruct (trade_match_band Binary64.total quarter_config quarter_league
              df self "TeamX" 10 Hrun) as (out & Hout & Hall).
  exists out. split; [exact Hrun|]. split; [exact Hout|exact Hall].
Defined.

(** C6 as stated fails by rounding.  With perceived values 20 and 25 and a
    tolerance of 0.25, the stages in binary64 give Alice and Bob the
    normalised values 88.88888888888889 and 111.11111111111111; Bob is
    inside Alice's band as the code tests it, so the pair is suggested,
    but the two values differ by 22.22222222222223, which is more than
    0.25 times Alice's value, 22.22222222222222 (as real numbers and as
    doubles). *)
Lemma band_rounding_counterexample :
  exists df s,
    Binary64.run_pipeline quarter_config quarter_league
    = Ok (df, quarter_classified)
    /\ Binary64.suggest_trade_pairs quarter_config quarter_classified
         "TeamX" 10 = Ok [s]
    /\ give_player s = "Alice"%string /\ get_player s = "Bob"%string
    /\ give_perceived s = Fin (3127499741229511 # 35184372088832)
    /\ get_perceived s = Fin (3909374676536889 # 35184372088832)
    /\ num_le (num_abs (num_sub (get_perceived s) (give_perceived s)))
              (num_mul (Fin (1 # 4)) (give_perceived s)) = false
    /\ num_le (num_abs (Binary64.sub (get_perceived s) (give_perceived s)))
              (Binary64.mul (Fin (1 # 4)) (give_perceived s)) = false.
Proof.
  eexists. eexists.
  split; [vm_compute; reflexivity|].
  split; [vm_compute; reflexivity|].
  repeat split.
Qed.


(** ** The percentage gained *)

(** C10.  On the table the three stages produce in binary64, the
    additions of a sum in any order, with a tolerance configured,
    [suggest_trade_pairs] returns, and in every suggestion it returns
    [value_gain_pct] is [value_gain / give_forecasted * 100], the quotient
    and the product rounded, when the forecasted value of the player
    given is above zero, and [0] otherwise: the quotient is only formed
    with a positive divisor.  The fields are those of a row of the team
    ([give]) and of a row of the table ([get]).  With the module as it
    is the call raises [AttributeError] or returns no suggestion, so that
    no suggestion is without the guard. *)
Theorem value_gain_pct_guarded (sum : list num -> num) cfg self0 df self
    your_team max_suggestions :
  Binary64.run_pipeline_by sum cfg self0 = Ok (df, self) ->
  match VALUE_MATCH_TOLERANCE cfg with
  | Some _ =>
      exists out,
        Binary64.suggest_trade_pairs cfg self your_team max_suggestions
        = Ok out
        /\ forall s, In s out ->
           (exists give get,
               In give (rows df) /\ In get (rows df)
               /\ team_name give = your_team
               /\ give_forecasted s = forecasted_normalized give
               /\ value_gain s
                  = Binary64.sub (forecasted_normalized get)
                                 (forecasted_normalized give))
           /\ (num_gt (give_forecasted s) (Fin 0) = true ->
               value_gain_pct s
               = Binary64.mul
                   (Binary64.div (value_gain s) (give_forecasted s))
                   (Fin 100))
           /\ (num_gt (give_forecasted s) (Fin 0) = false ->
               value_gain_pct s = Fin 0)
  | None =>
      Binary64.suggest_trade_pairs cfg self your_team max_suggestions
      = Err no_tolerance
      \/ Binary64.suggest_trade_pairs cfg self your_team max_suggestions
         = Ok []
  end.
Proof.
  intro Hrun.
  destruct (binary64_pipeline_columns _ _ _ _ _ Hrun) as (Hm & Hc).
  destruct (VALUE_MATCH_TOLERANCE cfg) as [tolerance|] eqn:Htol.
  - eexists. split.
    + apply (binary64_suggest_trade_pairs_eq _ _ _ _ _ _ Htol Hm Hc).
    + intros s Hs. apply binary64_suggestions_table_in in Hs.
      destruct Hs as (give & get & Hgive & Hget & Hover & _ & _ & _ & ->).
      split.
      * exists give, get. repeat split; try assumption.
        unfold is_overvalued_on in Hover. apply andb_prop in Hover.
        apply String.eqb_eq. apply Hover.
      * simpl. split; intro Hpos; rewrite Hpos; reflexivity.
  - rewrite (binary64_suggest_trade_pairs_unset _ _ your_team max_suggestions
               _ Htol Hm Hc).
    destruct (existsb _ (rows df) && existsb _ (rows df)); auto.
Qed.

Lemma value_gain_pct_guarded_witness :
  exists df self out,
    Binary64.run_pipeline (with_tolerance (Fin 1) default_config)
      benched_league = Ok (df, self)
    /\ Binary64.suggest_trade_pairs (with_tolerance (Fin 1) default_config)
         self "TeamX" 10 = Ok out
    /\ forall s, In s out ->
       (exists give get,
           In give (rows df) /\ In get (rows df)
           /\ team_name give = "TeamX"%string
           /\ give_forecasted s = forecasted_normalized give
           /\ value_gain s
              = Binary64.sub (forecasted_normalized get)
                             (forecasted_normalized give))
       /\ (num_gt (give_forecasted s) (Fin 0) = true ->
           value_gain_pct s
           = Binary64.mul (Binary64.div (value_gain s) (give_forecasted s))
                          (Fin 100))
       /\ (num_gt (give_forecasted s) (Fin 0) = false ->
           value_gain_pct s = Fin 0).
Proof.
  assert (Hrun : exists df self,
             Binary64.run_pipeline (with_tolerance (Fin 1) default_config)
               benched_league = Ok (df, self)).
  { eexists. eexists. vm_compute. reflexivity. }
  destruct Hrun as (df & self & Hrun).
  exists df, self.
  destruct (value_gain_pct_guarded Binary64.total
              (with_tolerance (Fin 1) default_config) benched_league
              df self "TeamX" 10 Hrun) as (out & Hout & Hall).
  exists out. split; [exact Hrun|]. split; [exact Hout|exact Hall].
Defined.

(** With Alice projected at zero and a tolerance of 100%, the suggestion
    to give her for Bob has a gain of 200 and a percentage of 0, in
    binary64 as over exact rationals. *)
Example benched_suggestion_binary64 :
  exists df self s,
    Binary64.run_pipeline (with_tolerance (Fin 1) default_config)
      benched_league = Ok (df, self)
    /\ Binary64.suggest_trade_pairs (with_tolerance (Fin 1) default_config)
         self "TeamX" 10 = Ok [s]
    /\ give_player s = "Alice"%string
    /\ give_forecasted s = Fin 0
    /\ value_gain s = Fin 200
    /\ value_gain_pct s = Fin 0.
Proof.
  eexists. eexists. eexists.
  split; [vm_compute; reflexivity|].
  split; [vm_compute; reflexivity|]. repeat split.
Qed.

(** With the module as it is, the call raises. *)
Example shipped_config_raises_binary64 :
  exists df self,
    Binary64.run_pipeline default_config trade_league = Ok (df, self)
    /\ Binary64.suggest_trade_pairs default_config self "TeamX" 10
       = Err no_tolerance.
Proof.
  eexists. eexists. split; vm_compute; reflexivity.
Qed.
